(* ===== verification/_CoqProject ===== *)
-Q . S2P
Prelude.v
ThoughtExtractor.v
Wellformed.v
Delivery.v
Route.v
Pacing.v
SimpleTransform.v
Middleware.v
Fusion.v
Liveness.v
Cancel.v
Report.v
Emission.v
Wrapper.v
ChatUI.v
Scheduler.v
Demo.v
Landing.v
