(* ===== verification/Prelude.v ===== *)
(** * A verification development of the stream-natural-text middleware

    The repository (maximus-powers/temp-convo-filler) wraps a slow
    "reasoning" language model (GPT-4) with a fast "delivery" model
    (SmolLM served by TGI).  Its core is the class
    [NaturalResponseProcessor] of
    [src/packages/ai/src/middleware/stream-natural-text/natural-response-processor.ts],
    installed by [streamNaturalTextMiddleware] of
    [stream-natural-text-middleware.ts].  For one conversation turn it

    - asks the delivery model for an immediate answer to the user's last
      message and streams it word by word ([emitImmediateResponse]);
    - then runs two tasks on the JavaScript event loop: the reasoning
      consumer [consumeGPT4Thoughts], which reads the upstream stream and
      cuts [[bt] ... [et]] delimited "thoughts" out of a text buffer, and
      the generation loop [runSmolLMGeneration], which polls the shared
      [thoughts] array, builds a prompt ([generateResponseForLatestThought]),
      calls the delivery endpoint ([callSmolLMForSentence]) and streams the
      answer ([streamSentenceTokens]);
    - closes the outward stream when the loop stops and reports metrics.

    ** Files (in dependency order, as listed in _CoqProject)

    - [Prelude] (this file): the JavaScript string primitives the code
      uses ([indexOf], [includes], [substring], [trim], [split(' ')],
      [join], [endsWith], [String(n)]) in Module [Js], the AI SDK's
      stream part type [stream_part] (text deltas and other parts), the
      lemmas on them, the hint databases [js] and [js_rw] and the tactic
      [js_case_eqb].
    - [ThoughtExtractor], Module [Extractor]: [consumeGPT4Thoughts]
      (lines 224-280).  One iteration of the extraction [while] is
      [extract_iteration] (found a thought / no progress / loop exit),
      the loop is the fuelled [extract_thoughts] (literal: an iteration
      that makes no progress re-tests the same buffer, [None] when the
      fuel runs out), the reader state is the record [reader] (buffer,
      chunkCount), one stream part is [on_part] and the whole read loop
      is [consume].  [scan] is a total analysis of the loop (finished or
      stalled) and [spec_extract] its result when it finishes.
    - [Wellformed], Module [Wellformed]: the extraction loop on text made
      of units [junk [bt] body [et]] ([render]): one iteration cuts out
      exactly the first unit, and the reasoning consumer yields the
      trimmed bodies however the text is cut into deltas.
    - [Delivery], Module [Delivery]: the ChatML prompts
      ([immediate_prompt], line 89; [build_prompt], lines 288-307), the
      request ([tgi_url], [resolve_temperature], [make_request_body],
      lines 330-342), the regex clean-up chain ([sanitize], lines
      362-370, each [replace] written out over characters: global
      literal removal, [\b]-delimited case-insensitive word removal and
      anchored prefixes), and the outcome of one call as data
      ([fetch_outcome], [call_smollm], [generate_response] with its
      [catch] returning [''] ).
    - [Route], Module [Route]: [POST] of [app/api/chat/route.ts]: body
      parsing, the [messages] and environment checks in their order,
      the middleware configuration and the 500 JSON error responses.
    - [Pacing], Module [Pacing]: [streamSentenceTokens] (lines 377-409)
      as the list of fragments it pushes ([sentence_fragments]) and the
      pushes themselves on a controller record (queue, closed, errored;
      [desiredSize] is [null] exactly on an errored stream).
    - [SimpleTransform], Module [SimpleTransform]: the [pump] loop of
      [simple-transform-middleware.ts], which copies the upstream parts
      into a new stream and closes or errors it.
    - [Middleware], Module [Middleware]: the prompt messages,
      [extractUserInput] (processor lines 121-139) and [transformParams]
      of [stream-natural-text-middleware.ts] (lines 63-94) with the exact
      system prompt text (lines 48-58).
    - [Fusion], Module [Fusion]: one turn of [processStream] as a
      small-step relation [step] (Section [Step], parameterised by the
      set of delivery outcomes the endpoint may give and by the prompt).
      A state [turn] holds the processor fields ([processor]), the stage
      of the main task ([stage]: one constructor per [await] of
      [processStream], [emitImmediateResponse] and [runSmolLMGeneration]),
      the stage of the background consumer ([consumer]), the upstream
      parts, the outward controller, the metrics callbacks made and the
      requests sent.  Each rule runs one synchronous segment of the
      code, so the two tasks interleave exactly at their [await]s;
      [reachable] is [star step] from [turn_init] ([wrapStream]).
    - [Liveness], Module [Liveness]: termination and completion of a
      turn, by a lexicographic measure on [Fusion]'s states (responses
      still allowed, rank of the main task's stage with the wait loop
      ranked by [100 - waitCount], words still to stream, parts still to
      read), with the invariant [no_stall] that the consumer never spins.
    - [Cancel], Module [Cancel]: the client may cancel the outward
      stream at any time; [cstep] extends [step] with that cancellation
      and with one rule per [enqueue] or [close] that then throws, each
      ending in the [catch] of [start] (lines 74-78, [abort]), after the
      [catch] of [emitImmediateResponse] (lines 103-113) when the throw
      comes from the immediate answer.
    - [Report], Module [Report]: the metrics log of a turn as an
      invariant of [step] ([report_inv]): what [wrapStream] logged until
      [start] settles, then exactly one more report carrying the turn's
      response count, processed-thought count and joined responses.
    - [Emission], Module [Emission]: two more invariants of [step] on
      the outward stream: every enqueued part is a text delta with a
      non-empty delta and an id in 1..5 or 1001..1005 ([emit_inv]), and
      the text a client reads is the opening followed by the stored
      answers ([text_inv]).
    - [Wrapper], Module [Wrapper]: a middleware as a record of its two
      operations ([middleware], the AI SDK's
      [LanguageModelV2Middleware]); [streamNaturalTextMiddleware]
      ([stream_natural_text_middleware]: [transformParams], and
      [wrapStream] with its [doStream] rejection path) and
      [testStreamMiddleware] ([test-middleware.ts]) and
      [simpleTransformMiddleware] ([simple_transform_middleware], whose
      stream is [SimpleTransform.transformed_stream]) as values of it, and
      [wrapLanguageModel]'s composition of the two operations.
    - [ChatUI], Modules [ChatInput], [MessageList], [ChatPage]: the web
      client.  The input's [useState], its handlers [handleKeyDown] and
      [handleFormSubmit] and the attributes it renders; the browser's
      part that the code relies on (a disabled control gets no events,
      [requestSubmit] runs the form's handler); [MessageList] and
      [Message] as the props and classes they render; and the chat page
      as a run of user events and [useChat] updates, [useChat] being a
      library whose state changes arbitrarily.
    - [Scheduler], Module [Scheduler]: an executable interpreter of
      [step]: a [choice] names the segment to run and the endpoint's
      answer, [run_step] runs it and [exec] runs a schedule, so that
      concrete executions are computed by [vm_compute].
    - [Demo], Module [Demo]: [src/packages/ai/quick-demo.js].  Its
      configuration ([quick_demo_config]), the wrapped model
      ([quick_demo_model], a [Wrapper] middleware) over the prompt
      [streamText] builds from its [system] and [prompt]
      ([quick_demo_prompt]), the turn that model runs ([demo_reaches]:
      [Fusion.step] from the turn [wrapStream] returns), and the script's
      console ([quick_demo]: its [console.log] lines and the chunks its
      [for await] loop writes, [for_await] over [text_chunks]).  An unset
      [HUGGINGFACE_ENDPOINT_URL] makes every delivery call throw
      ([demo_calls]).
    - [Landing], Module [Landing]: [app/page.tsx] as the tree of
      elements it renders ([Page]); its only link, around its only
      button, goes to [/chat] ([page_navigation]).

    ** Theorems

    - Extractor: with fuel [S (length buffer)] the loop returns exactly
      when [scan] finishes ([extract_thoughts_scan]); a buffer with an
      [[et]] before its first [[bt]] and none after makes it spin for any
      fuel ([extract_thoughts_spins]); when the whole stream is read, the
      result is [spec_extract] of the concatenated deltas whatever the
      chunking ([consume_chunking]), but whether the read finishes does
      depend on the chunking ([consume_split_stalls]); thoughts are only
      appended, non-empty and trimmed ([consume_thoughts_trimmed]).
    - Wellformed: the spec's first testable property.  On a buffer of
      units whose junk has no [[bt]] and whose bodies have no [[et]], the
      loop appends exactly the trimmed non-empty bodies
      ([extract_thoughts_wellformed]); when the junk has no marker at
      all, the consumer does so for every chunking of the text
      ([consume_wellformed]).
    - Delivery: the shape of the prompt ([build_prompt_turns]), the URL
      ([tgi_url_spec]), what the clean-up keeps ([sanitize_clean]) and a
      marker it lets through ([sanitize_marker_survives]), temperature 0
      sent as 0.7 ([temperature_zero_replaced]).
    - Pacing: the fragments read back as the sentence
      ([sentence_fragments_roundtrip]) and are appended in order on an
      open stream ([stream_sentence_tokens_open]).
    - Scheduler: [run_step] runs exactly the steps of [step]
      ([run_step_iff]); two computed executions show behaviour the spec
      does not expect: final metrics that miss a thought extracted after
      the stream closed ([late_thought_unreported]) and a thought left
      unanswered by an endpoint that answers every call
      ([second_thought_unanswered]).
    - Middleware: [transformParams] keeps the user input and installs the
      system prompt.  SimpleTransform: the new stream is the upstream
      stream, part for part ([transformed_stream_passthrough]).  Route:
      when [POST] streams ([post_stream_iff], [convertToModelMessages]
      being a parameter that may throw) and that the [messages] check
      precedes the environment checks ([post_messages_first]).
    - Fusion: an invariant [inv] preserved by every rule ([inv_step]),
      giving the response bounds, that the stream is closed exactly
      after [controller.close()], that nothing is read before the
      immediate answer is out; and, when the endpoint always fails or answers blank, that a turn
      waiting on a thought never closes and has an infinite execution
      ([endpoint_down_never_closes], [endpoint_down_diverges]).  Two
      concrete traces from [turn_init] ([demo_reaches_waiting],
      [demo_closes]) show both situations are reachable.
    - Cancel: with cancellation, [onMetricsUpdate] gets exactly one
      report once [start] settles, normally or through its [catch]
      ([metrics_sent_once]); and a cancellation during the
      immediate answer ends the turn before the reasoning consumer ever
      starts, leaving the upstream stream unread
      ([cancel_leaves_upstream_unread]).
    - Emission: once the stream is closed, the client has read the
      opening (nothing, the fallback sentence, or a usable immediate
      answer) and then every stored answer in order, words re-joined by
      single spaces ([closed_transcript]); every part is a non-empty
      text delta ([emitted_text_deltas]); ids stay in 1..5 and
      1001..1005, [waitCount] at most 100 and [textId] at most 6
      ([emitted_ids_bounded]).
    - Wrapper: the wrapped model rethrows a [doStream] rejection and
      otherwise returns a turn over the model's stream whose first
      request asks the delivery model the user's own question
      ([natural_stream_composition]).
    - ChatUI: every message the page sends is non-blank and sent while
      the page is neither loading nor showing an error, whatever
      [useChat] does ([submissions_guarded]); Enter and the send button
      do the same thing ([enter_is_send]).  Route: the error body reads
      back as [{"error": message}] through the JSON string grammar
      ([error_body_roundtrip]).
    - Demo: once the demo's turn has closed its stream, the script has
      written the opening and the stored answers and logged the length of
      exactly that text ([quick_demo_output]).  With the endpoint
      variable unset every delivery call throws ([demo_calls]), so the
      demo is in the situation of [endpoint_down_never_closes] as soon
      as a thought arrives.
    - Liveness: those are the only ways a turn runs forever.  When every
      answer the endpoint may give is non-blank and the upstream text
      never makes the extraction loop spin, every execution from
      [turn_init] is finite ([turn_terminates]), and from every reachable
      state some execution completes the turn: stream closed, upstream
      read, and the final report in the metrics log with the turn's
      counts and text ([Report.turn_completes]).  When the reasoning
      stream yields no thought, the idle bound ends every execution
      whatever the endpoint does ([idle_turn_terminates]) and the turn
      can always complete with no loop response and a report of none
      ([Report.idle_turn_completes]),
      which is the spec's idle-bound scenario and, with an endpoint that
      always fails, the thought-free case of its HTTP 500 scenario.

    ** Modelling choices

    - Strings are Stdlib [string] (8-bit characters).  JavaScript strings
      are UTF-16; the code only searches for ASCII markers, so characters
      of code point >= 256 are out of scope.  [trim] removes the
      ECMAScript white space of that range (TAB, LF, VT, FF, CR, SP,
      NBSP).
    - Indices returned by [indexOf] are [Z], with -1 for "not found", as
      in the code; [substring] clamps and swaps its arguments as
      ECMAScript does; [this.thoughts[i]] out of range is the string
      ["undefined"] a template literal produces.
    - Loops that may not terminate are Fixpoints with fuel returning
      [option].  The extraction loop gets [S (length buffer)] iterations:
      every productive iteration removes at least four characters and a
      loop exit costs one, so this fuel is enough whenever the loop
      exits at all ([extract_thoughts_scan]).  The generation loop and
      the turn are not given fuel: they are the relation [step], whose
      divergence is stated with [infseq] and whose termination with
      [Acc] (every execution is finite).
    - Network calls and timers are suspension points; the delivery
      endpoint is any outcome the Section's [allowed] predicate admits,
      and the time a call or a pause takes is an arbitrary clock tick.
    - Temperatures are rationals ([Q]); times are natural numbers of
      milliseconds.

    ** Not modelled
    - Console logging, which has no effect on the state.
    - The auto-scroll effect of [MessageList] (a DOM side effect), and
      [useChat] itself (a library: its state changes are the page
      model's inputs).
    - [index.ts] (re-exports), [test_middleware.js] (it requires a
      module that does not exist), a [doStream] rejection in
      [quick-demo.js] (handled inside [streamText]), and in [route.ts]
      the library calls [streamText],
      [convertToModelMessages] and the provider, whose result is
      modelled by its inputs.
    - The HTTP transport, JSON encoding and the AI SDK itself: the code
      only calls them; their results are inputs of the model.
*)

From Stdlib Require Import Ascii String List Lia Arith ZArith Bool DecimalString.
Import ListNotations.

Declare Scope js_scope.
Delimit Scope js_scope with js.
(** String concatenation, the [+] and template literals of the code. *)
Infix "+++" := String.append (at level 60, right associativity) : js_scope.

Create HintDb js discriminated.
Create Rewrite HintDb js_rw.

Local Open Scope string_scope.
Local Open Scope js_scope.

(** ** JavaScript string primitives *)
Module Js.

(** [s.substring(n)] for an in-range [n], and its complement. *)
Fixpoint drop (n : nat) (s : string) : string :=
  match n, s with
  | 0, _ => s
  | S _, EmptyString => EmptyString
  | S n', String _ s' => drop n' s'
  end.

Fixpoint take (n : nat) (s : string) : string :=
  match n, s with
  | 0, _ => EmptyString
  | S _, EmptyString => EmptyString
  | S n', String c s' => String c (take n' s')
  end.

(** First position at which [pat] occurs in [s]. *)
Fixpoint find_at (pat s : string) : option nat :=
  if prefix pat s then Some 0
  else match s with
       | EmptyString => None
       | String _ s' => option_map S (find_at pat s')
       end.

(** ECMAScript clamps a position to [0, length]. *)
Definition clamp (len : nat) (i : Z) : nat :=
  Z.to_nat (Z.max 0 (Z.min i (Z.of_nat len))).

(** [s.indexOf(pat, from)]: -1 when absent. *)
Definition index_of (s pat : string) (from : Z) : Z :=
  let p := clamp (String.length s) from in
  match find_at pat (drop p s) with
  | Some k => Z.of_nat (p + k)
  | None => (-1)%Z
  end.

(** [s.includes(pat)]. *)
Definition includes (s pat : string) : bool :=
  match find_at pat s with Some _ => true | None => false end.

(** [s.substring(i, j)]: both clamped, swapped when [i > j]. *)
Definition substring (s : string) (i j : Z) : string :=
  let a := clamp (String.length s) i in
  let b := clamp (String.length s) j in
  take (Nat.max a b - Nat.min a b) (drop (Nat.min a b) s).

(** [s.substring(i)]. *)
Definition substring_from (s : string) (i : Z) : string :=
  substring s i (Z.of_nat (String.length s)).

(** ECMAScript [WhiteSpace] and [LineTerminator] below code point 256. *)
Definition is_ws (c : ascii) : bool :=
  match nat_of_ascii c with
  | 9 | 10 | 11 | 12 | 13 | 32 | 160 => true
  | _ => false
  end.

Fixpoint trim_start (s : string) : string :=
  match s with
  | EmptyString => EmptyString
  | String c s' => if is_ws c then trim_start s' else s
  end.

Fixpoint trim_end (s : string) : string :=
  match s with
  | EmptyString => EmptyString
  | String c s' =>
      match trim_end s' with
      | EmptyString => if is_ws c then EmptyString else String c EmptyString
      | r => String c r
      end
  end.

(** [s.trim()]. *)
Definition trim (s : string) : string := trim_end (trim_start s).

(** JavaScript truthiness of a string: non-empty. *)
Definition truthy (s : string) : bool :=
  match s with EmptyString => false | _ => true end.

(** [s.split(' ')]: a single space separates, empty fields are kept. *)
Fixpoint split_space (s : string) : list string :=
  match s with
  | EmptyString => [EmptyString]
  | String c s' =>
      if (c =? " ")%char then EmptyString :: split_space s'
      else match split_space s' with
           | w :: ws => String c w :: ws
           | [] => [String c EmptyString]
           end
  end.

(** [l.join(sep)]. *)
Definition join (sep : string) (l : list string) : string := String.concat sep l.

(** [s.endsWith(suf)]. *)
Definition ends_with (s suf : string) : bool :=
  Nat.leb (String.length suf) (String.length s)
  && String.eqb (drop (String.length s - String.length suf) s) suf.

(** [String(n)] for a non-negative integer. *)
Definition of_nat (n : nat) : string := NilEmpty.string_of_uint (Nat.to_uint n).

End Js.

(** ** The AI SDK's stream part

    [LanguageModelV2StreamPart] (package [@ai-sdk/provider]) is a tagged
    union; the code reads the [text-delta] variant ([id], [delta]) and
    passes over every other one, so the other variants are kept only by
    their [type] tag. *)
Inductive stream_part :=
| TextDelta (id : string) (delta : string)
| OtherPart (type_ : string).

(** ** Generic list lemmas *)

Lemma fold_right_map_comp {A B C} (f : B -> C -> C) (g : A -> B) (c : C) (l : list A) :
  fold_right f c (map g l) = fold_right (fun x acc => f (g x) acc) c l.
Proof. induction l; simpl; congruence. Qed.

(** ** Generic string lemmas *)

Lemma str_length_app (s t : string) :
  String.length (s +++ t) = String.length s + String.length t.
Proof. induction s; simpl; congruence. Qed.

Lemma str_app_assoc (s t u : string) : (s +++ t) +++ u = s +++ (t +++ u).
Proof. induction s; simpl; congruence. Qed.

Lemma str_app_nil_r (s : string) : s +++ "" = s.
Proof. induction s; simpl; congruence. Qed.

Lemma drop_length n s : String.length (Js.drop n s) = String.length s - n.
Proof. revert s; induction n; destruct s; simpl; auto. Qed.

Lemma take_length n s : String.length (Js.take n s) = Nat.min n (String.length s).
Proof. revert s; induction n; destruct s; simpl; auto. Qed.

Lemma drop_app_l n s t :
  n <= String.length s -> Js.drop n (s +++ t) = Js.drop n s +++ t.
Proof.
  revert s; induction n; intros [|c s] H; simpl in *; auto; try lia.
  apply IHn; lia.
Qed.

Lemma take_app_l n s t :
  n <= String.length s -> Js.take n (s +++ t) = Js.take n s.
Proof.
  revert s; induction n; intros [|c s] H; simpl in *; auto; try lia.
  f_equal; apply IHn; lia.
Qed.

Lemma drop_drop n m s : Js.drop n (Js.drop m s) = Js.drop (m + n) s.
Proof. revert s; induction m; destruct s; simpl; auto; destruct n; auto. Qed.

Lemma prefix_length (p u : string) :
  prefix p u = true -> String.length p <= String.length u.
Proof.
  revert u; induction p as [|a p IH]; intros [|b u] H; simpl in *; try lia; try discriminate.
  destruct (ascii_dec a b) as [_|_]; [apply le_n_S, IH; auto | discriminate].
Qed.

Lemma prefix_app (p u t : string) :
  String.length p <= String.length u -> prefix p (u +++ t) = prefix p u.
Proof.
  revert u; induction p as [|a p IH]; intros [|b u] H; simpl in *; auto; try lia.
  - destruct t; reflexivity.
  - destruct (ascii_dec a b); auto. apply IH; lia.
Qed.

(** [(p + t).startsWith(p)]. *)
Lemma prefix_app_self (p t : string) : prefix p (p +++ t) = true.
Proof.
  induction p as [|a p IH]; [destruct t; reflexivity|].
  cbn. destruct (ascii_dec a a); [exact IH | contradiction].
Qed.

Lemma find_at_unfold (p s : string) :
  Js.find_at p s =
  if prefix p s then Some 0
  else match s with
       | EmptyString => None
       | String _ s' => option_map S (Js.find_at p s')
       end.
Proof. destruct s; reflexivity. Qed.

Lemma find_at_spec (p s : string) k :
  Js.find_at p s = Some k ->
  prefix p (Js.drop k s) = true /\ k + String.length p <= String.length s.
Proof.
  revert k; induction s as [|c s IH]; intros k H; rewrite find_at_unfold in H.
  - destruct (prefix p "") eqn:E; inversion H; subst.
    split; auto. apply prefix_length in E. simpl in *. lia.
  - destruct (prefix p (String c s)) eqn:E.
    + inversion H; subst. split; auto. apply prefix_length in E. simpl in *. lia.
    + destruct (Js.find_at p s) as [k'|] eqn:F; simpl in H; inversion H; subst.
      destruct (IH k' eq_refl) as [H1 H2]. simpl. split; auto; lia.
Qed.

(** An occurrence found in [s] is still the first one in [s +++ t]. *)
Lemma find_at_app (p s t : string) k :
  Js.find_at p s = Some k -> Js.find_at p (s +++ t) = Some k.
Proof.
  revert k; induction s as [|c s IH]; intros k H.
  - rewrite find_at_unfold in H. destruct (prefix p "") eqn:E; inversion H; subst.
    rewrite find_at_unfold. rewrite <- (prefix_app p "" t) in E.
    + now rewrite E.
    + now apply prefix_length.
  - rewrite find_at_unfold in H. rewrite find_at_unfold.
    destruct (prefix p (String c s)) eqn:E.
    + inversion H; subst. rewrite <- (prefix_app p (String c s) t) in E.
      * now rewrite E.
      * now apply prefix_length.
    + destruct (Js.find_at p s) as [k'|] eqn:F; simpl in H; inversion H; subst.
      pose proof (find_at_spec _ _ _ F) as [_ Hl].
      rewrite <- (prefix_app p (String c s) t) in E by (simpl; lia).
      rewrite E. simpl. rewrite (IH k' eq_refl). reflexivity.
Qed.

Lemma clamp_of_nat len k : k <= len -> Js.clamp len (Z.of_nat k) = k.
Proof. intros H. unfold Js.clamp. lia. Qed.

Lemma clamp_le len i : Js.clamp len i <= len.
Proof. unfold Js.clamp. lia. Qed.

Lemma substring_app (s t : string) i j :
  (0 <= i <= Z.of_nat (String.length s))%Z ->
  (0 <= j <= Z.of_nat (String.length s))%Z ->
  Js.substring (s +++ t) i j = Js.substring s i j.
Proof.
  intros Hi Hj. unfold Js.substring. rewrite str_length_app.
  replace (Js.clamp (String.length s + String.length t) i) with (Js.clamp (String.length s) i)
    by (unfold Js.clamp; lia).
  replace (Js.clamp (String.length s + String.length t) j) with (Js.clamp (String.length s) j)
    by (unfold Js.clamp; lia).
  pose proof (clamp_le (String.length s) i); pose proof (clamp_le (String.length s) j).
  rewrite drop_app_l by lia. apply take_app_l. rewrite drop_length. lia.
Qed.

Lemma substring_from_drop (s : string) i :
  Js.substring_from s i = Js.drop (Js.clamp (String.length s) i) s.
Proof.
  unfold Js.substring_from, Js.substring.
  rewrite clamp_of_nat by lia. pose proof (clamp_le (String.length s) i).
  rewrite Nat.max_r, Nat.min_l by lia.
  remember (Js.drop (Js.clamp (String.length s) i) s) as r.
  assert (Hr : String.length r = String.length s - Js.clamp (String.length s) i)
    by (subst; apply drop_length).
  rewrite <- Hr. clear. induction r; simpl; congruence.
Qed.

(** What [indexOf] returns when it finds [pat]. *)
Lemma index_of_found (s pat : string) i :
  Js.index_of s pat i <> (-1)%Z ->
  exists k, Js.index_of s pat i = Z.of_nat k
       /\ Js.clamp (String.length s) i <= k
       /\ k + String.length pat <= String.length s
       /\ prefix pat (Js.drop k s) = true.
Proof.
  unfold Js.index_of. intros H.
  destruct (Js.find_at pat (Js.drop (Js.clamp (String.length s) i) s)) as [k|] eqn:F;
    [|congruence].
  apply find_at_spec in F as [F1 F2]. rewrite drop_length, drop_drop in *.
  pose proof (clamp_le (String.length s) i).
  exists (Js.clamp (String.length s) i + k). repeat split; auto; lia.
Qed.

Lemma includes_app (s t pat : string) :
  Js.includes s pat = true -> Js.includes (s +++ t) pat = true.
Proof.
  unfold Js.includes. destruct (Js.find_at pat s) eqn:F; [|discriminate].
  now rewrite (find_at_app _ _ _ _ F).
Qed.

(** A search that succeeds inside [s] is not disturbed by what follows. *)
Lemma index_of_app (s t pat : string) i :
  (0 <= i <= Z.of_nat (String.length s))%Z ->
  Js.index_of s pat i <> (-1)%Z ->
  Js.index_of (s +++ t) pat i = Js.index_of s pat i.
Proof.
  unfold Js.index_of. rewrite str_length_app. intros Hi H.
  replace (Js.clamp (String.length s + String.length t) i) with (Js.clamp (String.length s) i)
    by (unfold Js.clamp; lia).
  rewrite drop_app_l by (apply clamp_le).
  destruct (Js.find_at pat (Js.drop (Js.clamp (String.length s) i) s)) eqn:F; [|congruence].
  now rewrite (find_at_app _ _ _ _ F).
Qed.

Lemma substring_from_app (s t : string) i :
  (0 <= i <= Z.of_nat (String.length s))%Z ->
  Js.substring_from (s +++ t) i = Js.substring_from s i +++ t.
Proof.
  intros Hi. rewrite !substring_from_drop, str_length_app.
  replace (Js.clamp (String.length s + String.length t) i) with (Js.clamp (String.length s) i)
    by (unfold Js.clamp; lia).
  apply drop_app_l, clamp_le.
Qed.

Lemma includes_index_of (s pat : string) :
  Js.includes s pat = negb (Js.index_of s pat 0 =? -1)%Z.
Proof.
  unfold Js.includes, Js.index_of. replace (Js.clamp (String.length s) 0) with 0 by (unfold Js.clamp; lia).
  simpl Js.drop. destruct (Js.find_at pat s); [|reflexivity]. simpl. symmetry. apply negb_true_iff, Z.eqb_neq. lia.
Qed.

(** ** [trim] *)

Lemma trim_start_head s :
  Js.trim_start s = EmptyString \/ exists c r, Js.trim_start s = String c r /\ Js.is_ws c = false.
Proof.
  induction s as [|c s IH]; simpl; auto.
  destruct (Js.is_ws c) eqn:W; eauto.
Qed.

Lemma trim_end_head c r :
  Js.trim_end (String c r) = EmptyString \/ exists r', Js.trim_end (String c r) = String c r'.
Proof. simpl. destruct (Js.trim_end r); [destruct (Js.is_ws c)|]; eauto. Qed.

Lemma trim_end_cons c r :
  Js.trim_end (String c r) =
  match Js.trim_end r with
  | EmptyString => if Js.is_ws c then EmptyString else String c EmptyString
  | r' => String c r'
  end.
Proof. reflexivity. Qed.

Lemma trim_end_idem s : Js.trim_end (Js.trim_end s) = Js.trim_end s.
Proof.
  induction s as [|c s IH]; [reflexivity|].
  rewrite trim_end_cons. destruct (Js.trim_end s) as [|a r] eqn:E.
  - destruct (Js.is_ws c) eqn:W; [reflexivity|]. rewrite trim_end_cons. simpl. now rewrite W.
  - rewrite trim_end_cons, IH. reflexivity.
Qed.

Lemma trim_idem s : Js.trim (Js.trim s) = Js.trim s.
Proof.
  unfold Js.trim.
  destruct (trim_start_head s) as [-> | (c & r & E & W)]; [reflexivity|].
  rewrite E. destruct (trim_end_head c r) as [-> | (r' & E')]; [reflexivity|].
  rewrite E'. simpl Js.trim_start. rewrite W, <- E'. apply trim_end_idem.
Qed.

Lemma drop_all (s : string) : Js.drop (String.length s) s = EmptyString.
Proof. induction s; simpl; auto. Qed.

Lemma drop_app_length (s t : string) : Js.drop (String.length s) (s +++ t) = t.
Proof. induction s; simpl; auto. Qed.

Lemma take_app_length (s t : string) : Js.take (String.length s) (s +++ t) = s.
Proof. induction s; simpl; f_equal; auto. Qed.

Lemma take_app_r n (s t : string) :
  String.length s <= n -> Js.take n (s +++ t) = s +++ Js.take (n - String.length s) t.
Proof.
  revert n; induction s as [|c s IH]; intros n H; cbn [append String.length] in *.
  - now rewrite Nat.sub_0_r.
  - destruct n as [|n]; [lia|]. cbn. rewrite IH by lia. reflexivity.
Qed.

Lemma drop_take i n (s : string) : Js.drop i (Js.take n s) = Js.take (n - i) (Js.drop i s).
Proof.
  revert i n; induction s as [|c s IH]; intros [|i] [|n]; cbn; auto.
  - destruct (n - i); reflexivity.
Qed.

Lemma prefix_take (p u : string) m : prefix p (Js.take m u) = true -> prefix p u = true.
Proof.
  revert u m; induction p as [|a p IH]; intros [|b u] [|m]; cbn; auto; try discriminate.
  destruct (ascii_dec a b); [apply IH | discriminate].
Qed.

(** [find_at] returns the first occurrence. *)
Lemma find_at_le (p s : string) i :
  prefix p (Js.drop i s) = true -> exists i', Js.find_at p s = Some i' /\ i' <= i.
Proof.
  revert s; induction i as [|i IH]; intros s H; rewrite find_at_unfold.
  - cbn in H. rewrite H. eauto.
  - destruct (prefix p s) eqn:P; [exists 0; split; [reflexivity | lia]|].
    destruct s as [|c s]; cbn in H.
    + destruct p; cbn in *; congruence.
    + destruct (IH s H) as (i' & -> & L). exists (S i'). split; [reflexivity | lia].
Qed.

(** An occurrence in a prefix is an occurrence in the text. *)
Lemma find_at_take (p s : string) n i :
  Js.find_at p (Js.take n s) = Some i -> exists i', Js.find_at p s = Some i' /\ i' <= i.
Proof.
  intros H. apply find_at_spec in H as [H _]. rewrite drop_take in H.
  apply find_at_le, (prefix_take _ _ _ H).
Qed.

Lemma includes_take (s p : string) n : Js.includes s p = false -> Js.includes (Js.take n s) p = false.
Proof.
  unfold Js.includes. destruct (Js.find_at p (Js.take n s)) eqn:F; [|auto].
  destruct (find_at_take _ _ _ _ F) as (i' & -> & _). discriminate.
Qed.

(** A text holding [p] somewhere holds it at a first position. *)
Lemma find_at_mid (p s t : string) : Js.find_at p (s +++ p +++ t) <> None.
Proof.
  induction s as [|c s IH]; rewrite find_at_unfold; cbn [append].
  - rewrite prefix_app_self. discriminate.
  - destruct (prefix p _); [discriminate|]. destruct (Js.find_at p _); [discriminate|contradiction].
Qed.

Lemma ends_with_app (u suf : string) : Js.ends_with (u +++ suf) suf = true.
Proof.
  unfold Js.ends_with. rewrite str_length_app.
  replace (String.length u + String.length suf - String.length suf) with (String.length u) by lia.
  rewrite drop_app_l, drop_all by lia. simpl.
  rewrite (proj2 (Nat.leb_le _ _)) by lia. apply String.eqb_refl.
Qed.

#[export] Hint Rewrite str_length_app drop_length take_length drop_drop : js_rw.
#[export] Hint Resolve prefix_length prefix_app_self clamp_le find_at_app : js.

(** Unfold a boolean [if] whose test is an [=?] on [nat] or [Z]. *)
Ltac js_case_eqb :=
  repeat match goal with
    | |- context [Nat.eqb ?a ?b] => destruct (Nat.eqb_spec a b)
    | |- context [Z.eqb ?a ?b] => destruct (Z.eqb_spec a b)
    | |- context [Nat.leb ?a ?b] => destruct (Nat.leb_spec a b)
    | |- context [Nat.ltb ?a ?b] => destruct (Nat.ltb_spec a b)
    end.
