(* ===== verification/ThoughtExtractor.v ===== *)
(** * The thought extractor of [consumeGPT4Thoughts]

    [natural-response-processor.ts], lines 224-280.  The reasoning
    consumer appends every [text-delta] chunk to a local [buffer] and then
    runs a synchronous [while] loop that cuts [[bt] ... [et]] units out of
    it.  This file models one iteration of that loop
    ([extract_iteration]), the loop itself with fuel ([extract_thoughts],
    [None] when the fuel runs out), the per-part handler ([on_part]) and
    the whole read loop ([consume]).  [scan] is a total analysis of the
    loop that says whether it exits ([Finished]) or reaches an iteration
    that changes nothing and so repeats forever ([Stalled]);
    [spec_extract] is the algorithm of section 4.1 of the spec, which
    stops in that situation instead. *)

From Stdlib Require Import Ascii String List Lia ZArith Bool.
From S2P Require Import Prelude.
Import ListNotations.

Local Open Scope string_scope.
Local Open Scope js_scope.

Module Extractor.

Definition BT : string := "[bt]".
Definition ET : string := "[et]".

(** What one pass of the loop body does to the buffer. *)
Inductive iteration :=
| Extracted (thoughtContent : string) (rest : string)
    (** both indices found: a unit is cut out *)
| NoProgress
    (** the [while] condition holds but the [if] inside fails:
        nothing changes and the condition is tested again *)
| LoopExit.
    (** the [while] condition is false *)

(** Lines 251-269. *)
Definition extract_iteration (buffer : string) : iteration :=
  if Js.includes buffer BT && Js.includes buffer ET then
    let btIndex := Js.index_of buffer BT 0 in
    let etIndex := Js.index_of buffer ET btIndex in
    if negb (btIndex =? -1)%Z && negb (etIndex =? -1)%Z then
      Extracted (Js.trim (Js.substring buffer (btIndex + 4) etIndex))
                (Js.substring_from buffer (etIndex + 4))
    else NoProgress
  else LoopExit.

(** Lines 261-263: [if (thoughtContent) this.thoughts.push(...)]. *)
Definition push_thought (thoughts : list string) (c : string) : list string :=
  if Js.truthy c then (thoughts ++ [c])%list else thoughts.

(** The [while] loop of lines 251-270, run for at most [fuel]
    iterations; it returns the buffer and the thoughts array when the
    loop exits. *)
Fixpoint extract_thoughts (fuel : nat) (buffer : string) (thoughts : list string)
  : option (string * list string) :=
  match fuel with
  | 0 => None
  | S fuel' =>
      match extract_iteration buffer with
      | LoopExit => Some (buffer, thoughts)
      | NoProgress => extract_thoughts fuel' buffer thoughts
      | Extracted c rest => extract_thoughts fuel' rest (push_thought thoughts c)
      end
  end.

(** The outcome of the loop, decided without fuel. *)
Inductive scan_result :=
| Finished (buffer : string) (thoughts : list string)
| Stalled (buffer : string) (thoughts : list string).

Fixpoint scan_fuel (fuel : nat) (buffer : string) (thoughts : list string) : scan_result :=
  match fuel with
  | 0 => Stalled buffer thoughts
  | S fuel' =>
      match extract_iteration buffer with
      | LoopExit => Finished buffer thoughts
      | NoProgress => Stalled buffer thoughts
      | Extracted c rest => scan_fuel fuel' rest (push_thought thoughts c)
      end
  end.

(** Every productive iteration shortens the buffer, so [length + 1]
    iterations suffice ([scan_fuel_stable] below). *)
Definition scan (buffer : string) (thoughts : list string) : scan_result :=
  scan_fuel (S (String.length buffer)) buffer thoughts.

(** Section 4.1 of the spec: a begin marker with no end marker after
    it stops the loop and keeps the buffer. *)
Definition spec_extract (buffer : string) (thoughts : list string) : string * list string :=
  match scan buffer thoughts with
  | Finished b ts | Stalled b ts => (b, ts)
  end.

(** The consumer's local state (lines 228-229). *)
Record reader := mkReader { buffer : string; chunkCount : nat }.

Definition reader_init : reader := mkReader "" 0.

(** Fuel for the extraction loop on a buffer. *)
Definition loop_fuel (b : string) : nat := S (String.length b).

(** Lines 242-271: one part read from the upstream stream.  [None]: the
    synchronous loop never exits (see [extract_thoughts_stalled]). *)
Definition on_part (r : reader) (thoughts : list string) (p : stream_part)
  : option (reader * list string) :=
  match p with
  | TextDelta _ chunk =>
      let buf := buffer r +++ chunk in
      match extract_thoughts (loop_fuel buf) buf thoughts with
      | Some (b', ts') => Some (mkReader b' (S (chunkCount r)), ts')
      | None => None
      end
  | OtherPart _ => Some (r, thoughts)
  end.

(** Lines 234-272: read every part until the stream is done. *)
Fixpoint consume (r : reader) (thoughts : list string) (parts : list stream_part)
  : option (reader * list string) :=
  match parts with
  | [] => Some (r, thoughts)
  | p :: ps =>
      match on_part r thoughts p with
      | Some (r', ts') => consume r' ts' ps
      | None => None
      end
  end.

(** The text carried by a sequence of parts. *)
Fixpoint deltas (parts : list stream_part) : string :=
  match parts with
  | [] => ""
  | TextDelta _ d :: ps => d +++ deltas ps
  | OtherPart _ :: ps => deltas ps
  end.

(** The scenario of section 8 of the spec: three chunks, markers split
    across chunk boundaries. *)
Definition scenario_parts : list stream_part :=
  [TextDelta "0" "[bt]ML is AI su";
   TextDelta "1" "bset[et] <|sil|> [bt]It trains on da";
   TextDelta "2" "ta[et]"].

(** ** One iteration *)

Lemma extract_iteration_found b c r :
  extract_iteration b = Extracted c r ->
  exists bt et,
    Js.includes b BT = true /\ Js.includes b ET = true
    /\ Js.index_of b BT 0 = Z.of_nat bt
    /\ Js.index_of b ET (Z.of_nat bt) = Z.of_nat et
    /\ bt + 4 <= String.length b /\ bt <= et /\ et + 4 <= String.length b
    /\ c = Js.trim (Js.substring b (Z.of_nat bt + 4) (Z.of_nat et))
    /\ r = Js.substring_from b (Z.of_nat et + 4).
Proof.
  unfold extract_iteration.
  destruct (Js.includes b BT) eqn:I1; [|discriminate].
  destruct (Js.includes b ET) eqn:I2; [|discriminate].
  destruct (Z.eqb_spec (Js.index_of b BT 0) (-1)) as [|Hbt]; [discriminate|].
  destruct (Z.eqb_spec (Js.index_of b ET (Js.index_of b BT 0)) (-1)) as [|Het];
    [discriminate|].
  cbn [andb negb]. intros H; inversion H; subst.
  destruct (index_of_found _ _ _ Hbt) as (bt & E1 & _ & L1 & _).
  rewrite E1 in *. destruct (index_of_found _ _ _ Het) as (et & E2 & L2 & L3 & _).
  unfold BT, ET in *; simpl String.length in *.
  rewrite clamp_of_nat in L2 by lia.
  exists bt, et. rewrite E2. repeat split; auto; lia.
Qed.

Lemma extract_iteration_shrinks b c r :
  extract_iteration b = Extracted c r -> String.length r + 4 <= String.length b.
Proof.
  intros H.
  destruct (extract_iteration_found _ _ _ H) as (bt & et & _ & _ & _ & _ & _ & _ & L & _ & ->).
  replace (Z.of_nat et + 4)%Z with (Z.of_nat (et + 4)) by lia.
  rewrite substring_from_drop, drop_length, clamp_of_nat by lia. lia.
Qed.

(** Appending text after a buffer does not change a productive
    iteration: the unit found is the same, and the new text ends up
    after the rest. *)
Lemma extract_iteration_app b s c r :
  extract_iteration b = Extracted c r ->
  extract_iteration (b +++ s) = Extracted c (r +++ s).
Proof.
  intros H.
  destruct (extract_iteration_found _ _ _ H)
    as (bt & et & I1 & I2 & E1 & E2 & L1 & L2 & L3 & -> & ->).
  unfold extract_iteration. cbv zeta.
  rewrite (includes_app _ _ _ I1), (includes_app _ _ _ I2).
  rewrite (index_of_app b s BT 0) by (try rewrite E1; lia). rewrite E1.
  rewrite (index_of_app b s ET (Z.of_nat bt)) by (try rewrite E2; lia). rewrite E2.
  cbn [andb negb Z.eqb].
  replace (Z.of_nat et =? -1)%Z with false by lia.
  replace (Z.of_nat bt =? -1)%Z with false by lia. cbn [andb negb].
  rewrite substring_app, substring_from_app by lia. reflexivity.
Qed.

Lemma extract_iteration_NoProgress b :
  extract_iteration b = NoProgress <->
  Js.includes b BT = true /\ Js.includes b ET = true
  /\ Js.index_of b ET (Js.index_of b BT 0) = (-1)%Z.
Proof.
  unfold extract_iteration. rewrite (includes_index_of b BT).
  destruct (Z.eqb_spec (Js.index_of b BT 0) (-1)); simpl;
    [split; [discriminate | intros (? & ? & ?); discriminate]|].
  destruct (Js.includes b ET); simpl; [|split; [discriminate | intros (? & ? & ?); discriminate]].
  destruct (Z.eqb_spec (Js.index_of b ET (Js.index_of b BT 0)) (-1)); simpl;
    split; auto; [discriminate | intros (? & ? & ?); contradiction].
Qed.

(** ** The loop: fuel, termination and divergence *)

Lemma scan_fuel_stable f1 f2 b ts :
  String.length b < f1 -> String.length b < f2 -> scan_fuel f1 b ts = scan_fuel f2 b ts.
Proof.
  revert f2 b ts; induction f1 as [|f1 IH]; intros [|f2] b ts H1 H2; try lia.
  simpl. destruct (extract_iteration b) eqn:E; auto.
  pose proof (extract_iteration_shrinks _ _ _ E). apply IH; lia.
Qed.

Lemma scan_unfold b ts :
  scan b ts = match extract_iteration b with
              | LoopExit => Finished b ts
              | NoProgress => Stalled b ts
              | Extracted c rest => scan rest (push_thought ts c)
              end.
Proof.
  unfold scan at 1; simpl. destruct (extract_iteration b) eqn:E; auto.
  pose proof (extract_iteration_shrinks _ _ _ E). apply scan_fuel_stable; lia.
Qed.

(** Induction following the iterations of the loop. *)
Lemma scan_ind (P : string -> list string -> scan_result -> Prop) :
  (forall b ts, extract_iteration b = LoopExit -> P b ts (Finished b ts)) ->
  (forall b ts, extract_iteration b = NoProgress -> P b ts (Stalled b ts)) ->
  (forall b ts c r, extract_iteration b = Extracted c r ->
      P r (push_thought ts c) (scan r (push_thought ts c)) ->
      P b ts (scan r (push_thought ts c))) ->
  forall b ts, P b ts (scan b ts).
Proof.
  intros HE HN HX b ts.
  assert (Hn : forall n b ts, String.length b < n -> P b ts (scan b ts)).
  { induction n as [|n IH]; intros b' ts' L; [lia|].
    rewrite scan_unfold. destruct (extract_iteration b') eqn:E; auto.
    pose proof (extract_iteration_shrinks _ _ _ E).
    apply HX; auto. apply IH; lia. }
  apply (Hn (S (String.length b))); lia.
Qed.

Lemma extract_thoughts_finished b ts b' ts' fuel :
  scan b ts = Finished b' ts' -> String.length b < fuel ->
  extract_thoughts fuel b ts = Some (b', ts').
Proof.
  revert b ts; induction fuel as [|f IH]; intros b ts H L; [lia|].
  rewrite scan_unfold in H. simpl. destruct (extract_iteration b) eqn:E.
  - pose proof (extract_iteration_shrinks _ _ _ E). apply IH; [assumption | lia].
  - discriminate.
  - congruence.
Qed.

Lemma extract_thoughts_stalled b ts b' ts' :
  scan b ts = Stalled b' ts' -> forall fuel, extract_thoughts fuel b ts = None.
Proof.
  intros H fuel; revert b ts H; induction fuel as [|f IH]; intros b ts H; [reflexivity|].
  pose proof H as H0. rewrite scan_unfold in H0. simpl.
  destruct (extract_iteration b) eqn:E; [| apply IH; exact H | discriminate].
  apply IH; exact H0.
Qed.

(** ** Chunking *)

Lemma scan_app b s ts :
  scan (b +++ s) ts =
  match scan b ts with Finished c us | Stalled c us => scan (c +++ s) us end.
Proof.
  revert b ts.
  apply (scan_ind (fun b ts res =>
    scan (b +++ s) ts = match res with Finished c us | Stalled c us => scan (c +++ s) us end));
    auto.
  intros b ts c r E IH. rewrite scan_unfold, (extract_iteration_app _ _ _ _ E). exact IH.
Qed.

Lemma scan_at_rest b ts :
  match scan b ts with
  | Finished c us => scan c us = Finished c us
  | Stalled c us => scan c us = Stalled c us
  end.
Proof.
  revert b ts.
  apply (scan_ind (fun _ _ res => match res with
    | Finished c us => scan c us = Finished c us
    | Stalled c us => scan c us = Stalled c us end)); intros b ts; [intros E | intros E | auto].
  - rewrite scan_unfold, E. reflexivity.
  - rewrite scan_unfold, E. reflexivity.
Qed.

Corollary spec_extract_app b s ts :
  spec_extract (b +++ s) ts =
  let (c, us) := spec_extract b ts in spec_extract (c +++ s) us.
Proof. unfold spec_extract at 1 2. rewrite scan_app. now destruct (scan b ts). Qed.

Lemma scan_thoughts_trimmed b ts :
  match scan b ts with
  | Finished _ us | Stalled _ us =>
      exists fresh, us = (ts ++ fresh)%list /\ Forall (fun t => t <> "" /\ Js.trim t = t) fresh
  end.
Proof.
  revert b ts.
  apply (scan_ind (fun _ ts res => match res with
    | Finished _ us | Stalled _ us =>
        exists fresh, us = (ts ++ fresh)%list /\ Forall (fun t => t <> "" /\ Js.trim t = t) fresh end));
    intros b ts; [exists []; rewrite app_nil_r; auto ..|].
  intros c r E IH. destruct (scan r (push_thought ts c)) as [? us | ? us];
    destruct IH as (fresh & -> & F); unfold push_thought;
    destruct (Js.truthy c) eqn:T; try (exists fresh; auto; fail);
    exists (c :: fresh); rewrite <- app_assoc; split; auto; constructor; auto;
    destruct (extract_iteration_found _ _ _ E) as (? & ? & _ & _ & _ & _ & _ & _ & _ & -> & _);
    (split; [intros Hc; rewrite Hc in T; discriminate | apply trim_idem]).
Qed.

(** ** The consumer *)

Lemma on_part_scan r ts p :
  on_part r ts p =
  match p with
  | TextDelta _ chunk =>
      match scan (buffer r +++ chunk) ts with
      | Finished b' ts' => Some (mkReader b' (S (chunkCount r)), ts')
      | Stalled _ _ => None
      end
  | OtherPart _ => Some (r, ts)
  end.
Proof.
  destruct p as [i chunk|]; [|reflexivity]. unfold on_part.
  destruct (scan (buffer r +++ chunk) ts) eqn:S.
  - rewrite (extract_thoughts_finished _ _ _ _ _ S); [reflexivity | unfold loop_fuel; lia].
  - now rewrite (extract_thoughts_stalled _ _ _ _ S).
Qed.

Lemma consume_spec r ts parts r' ts' :
  scan (buffer r) ts = Finished (buffer r) ts ->
  consume r ts parts = Some (r', ts') ->
  (buffer r', ts') = spec_extract (buffer r +++ deltas parts) ts.
Proof.
  revert r ts; induction parts as [|p ps IH]; intros r ts Rest H; simpl in H.
  - inversion H; subst. simpl. rewrite str_app_nil_r. unfold spec_extract. now rewrite Rest.
  - rewrite on_part_scan in H. destruct p as [i d|t]; simpl deltas.
    + destruct (scan (buffer r +++ d) ts) as [b1 ts1|] eqn:S; [|discriminate].
      pose proof (scan_at_rest (buffer r +++ d) ts) as R1. rewrite S in R1.
      rewrite (IH (mkReader b1 (Datatypes.S (chunkCount r))) ts1 R1 H), <- str_app_assoc, (spec_extract_app (buffer r +++ d)).
      replace (spec_extract (buffer r +++ d) ts) with (b1, ts1)
        by (unfold spec_extract; now rewrite S).
      reflexivity.
    + exact (IH _ _ Rest H).
Qed.

Lemma on_part_extends r ts p r' ts' :
  on_part r ts p = Some (r', ts') -> exists fresh, ts' = (ts ++ fresh)%list.
Proof.
  rewrite on_part_scan. destruct p as [i d|t].
  - pose proof (scan_thoughts_trimmed (buffer r +++ d) ts) as H.
    destruct (scan (buffer r +++ d) ts); intros E; inversion E; subst.
    destruct H as (fresh & -> & _). eauto.
  - intros E; inversion E; subst. exists []. now rewrite app_nil_r.
Qed.

Lemma scan_stalled_extends b ts b' ts' :
  scan b ts = Stalled b' ts' -> exists fresh, ts' = (ts ++ fresh)%list.
Proof.
  pose proof (scan_thoughts_trimmed b ts) as H. intros E. rewrite E in H.
  destruct H as (fresh & -> & _). eauto.
Qed.

(** C12: Whenever the reasoning consumer processes a sequence of stream
    parts to the end, the thoughts it extracted and the buffer it
    kept are those of the specified extractor run once on the
    concatenation of the text deltas: how the text is chunked does
    not matter. *)
Theorem consume_chunking parts r' ts' :
  consume reader_init [] parts = Some (r', ts') ->
  (buffer r', ts') = spec_extract (deltas parts) [].
Proof. intros H. exact (consume_spec reader_init [] parts r' ts' eq_refl H). Qed.

(** The scenario of section 8 of the spec: three chunks with markers
    split across chunk boundaries yield exactly the thoughts [ML is
    AI subset] and [It trains on data]. *)
Example consume_scenario :
  consume reader_init [] scenario_parts
  = Some (mkReader "" 3, ["ML is AI subset"; "It trains on data"]).
Proof. vm_compute. reflexivity. Qed.

(** Chunking does matter for termination: the text [[et][bt]a[et]]
    read in one chunk yields the thought [a], while the same text
    split after [a] makes the extraction loop spin. *)
Example consume_split_stalls :
  consume reader_init [] [TextDelta "0" "[et][bt]a"; TextDelta "1" "[et]"] = None
  /\ consume reader_init [] [TextDelta "0" "[et][bt]a[et]"] = Some (mkReader "" 1, ["a"]).
Proof. split; vm_compute; reflexivity. Qed.

Lemma consume_chunking_witness :
  consume reader_init [] scenario_parts
    = Some (mkReader "" 3, ["ML is AI subset"; "It trains on data"])
  /\ ("", ["ML is AI subset"; "It trains on data"]) = spec_extract (deltas scenario_parts) [].
Proof.
  split; [vm_compute; reflexivity|].
  apply (consume_chunking scenario_parts (mkReader "" 3)). vm_compute. reflexivity.
Defined.

(** ** The loop and the consumer against the specification *)

(** With one more iteration than the buffer has characters, the
    extraction loop of lines 251-270 exits exactly when [scan]
    finishes, with the buffer and thoughts [scan] computes; when
    [scan] stalls the loop never exits. *)
Theorem extract_thoughts_scan b ts fuel :
  String.length b < fuel ->
  extract_thoughts fuel b ts =
  match scan b ts with
  | Finished b' ts' => Some (b', ts')
  | Stalled _ _ => None
  end.
Proof.
  intros L. destruct (scan b ts) eqn:S.
  - exact (extract_thoughts_finished _ _ _ _ _ S L).
  - exact (extract_thoughts_stalled _ _ _ _ S fuel).
Qed.

(** C3: A buffer holding a begin marker and an end marker, but no end
    marker after the first begin marker, makes the extraction loop
    of lines 251-270 spin for ever: the [while] test stays true and
    the [if] inside it stays false, so nothing changes. *)
Theorem extract_thoughts_spins b ts :
  Js.includes b BT = true -> Js.includes b ET = true ->
  Js.index_of b ET (Js.index_of b BT 0) = (-1)%Z ->
  forall fuel, extract_thoughts fuel b ts = None.
Proof.
  intros H1 H2 H3.
  assert (E : extract_iteration b = NoProgress) by (apply extract_iteration_NoProgress; auto).
  apply (extract_thoughts_stalled b ts b ts). rewrite scan_unfold, E. reflexivity.
Qed.

Lemma extract_thoughts_spins_witness :
  Js.includes "[et][bt]a" BT = true /\ Js.includes "[et][bt]a" ET = true
  /\ Js.index_of "[et][bt]a" ET (Js.index_of "[et][bt]a" BT 0) = (-1)%Z
  /\ extract_thoughts 1000 "[et][bt]a" [] = None.
Proof.
  split; [reflexivity|]. split; [reflexivity|]. split; [vm_compute; reflexivity|].
  apply extract_thoughts_spins; vm_compute; reflexivity.
Defined.

(** C17: The reasoning consumer only appends to [thoughts], and every unit
    it appends is non-empty and has no white space at either end. *)
Theorem consume_thoughts_trimmed r ts parts r' ts' :
  consume r ts parts = Some (r', ts') ->
  exists fresh, ts' = (ts ++ fresh)%list
           /\ Forall (fun t => t <> "" /\ Js.trim t = t) fresh.
Proof.
  revert r ts; induction parts as [|p ps IH]; intros r ts H; cbn [consume] in H.
  - inversion H; subst. exists []. rewrite app_nil_r. auto.
  - destruct (on_part r ts p) as [[r1 ts1]|] eqn:E; [|discriminate].
    destruct (IH _ _ H) as (fresh2 & -> & F2).
    assert (Hp : exists fresh1, ts1 = (ts ++ fresh1)%list
                 /\ Forall (fun t => t <> "" /\ Js.trim t = t) fresh1).
    { rewrite on_part_scan in E. destruct p as [i d|t].
      - pose proof (scan_thoughts_trimmed (buffer r +++ d) ts) as HS.
        destruct (scan (buffer r +++ d) ts); inversion E; subst. exact HS.
      - inversion E; subst. exists []. rewrite app_nil_r. auto. }
    destruct Hp as (fresh1 & -> & F1). exists (fresh1 ++ fresh2)%list.
    rewrite app_assoc. split; [reflexivity | apply Forall_app; auto].
Qed.

Lemma consume_thoughts_trimmed_witness :
  exists r' ts', consume reader_init [] scenario_parts = Some (r', ts')
    /\ exists fresh, ts' = ([] ++ fresh)%list
                 /\ Forall (fun t => t <> "" /\ Js.trim t = t) fresh.
Proof.
  exists (mkReader "" 3), ["ML is AI subset"; "It trains on data"].
  assert (H : consume reader_init [] scenario_parts
              = Some (mkReader "" 3, ["ML is AI subset"; "It trains on data"]))
    by (vm_compute; reflexivity).
  split; [exact H | exact (consume_thoughts_trimmed _ _ _ _ _ H)].
Defined.

End Extractor.
