(* ===== verification/Wellformed.v ===== *)
(** * The extraction loop on well-formed text

    Section 4.1 of the spec says the extractor yields, in order, the
    trimmed text strictly between each begin marker and the next end
    marker, dropping empty units.  This file proves that the extraction
    loop of [consumeGPT4Thoughts] ([Extractor.extract_thoughts], lines
    251-270) does so on a buffer made of units [junk ++ [bt] ++ body ++
    [et]] followed by a tail, when no junk holds a begin marker, no body
    holds an end marker, and the tail does not hold both markers.  Junk
    may hold end markers and bodies may hold begin markers: the code
    searches the end marker from the begin marker on.

    The markers do not overlap themselves ([[] occurs in them only at
    the start), so an occurrence cannot straddle a unit boundary; the
    lemmas [prefix_straddle] and [find_at_after] carry that argument.

    When moreover no junk holds an end marker and the tail holds none,
    no prefix of the text makes the loop stall, so the reasoning
    consumer yields the same thoughts however the text is cut into
    deltas ([consume_wellformed]); [Extractor.consume_split_stalls]
    shows that the condition on the junk is needed. *)

From Stdlib Require Import Ascii String List Lia Arith ZArith Bool.
From S2P Require Import Prelude ThoughtExtractor.
Import ListNotations.

Local Open Scope string_scope.
Local Open Scope js_scope.
Local Open Scope list_scope.

Module Wellformed.
Import Extractor.

(** A buffer of complete units, each a junk text, a begin marker, a
    body and an end marker. *)
Fixpoint render (units : list (string * string)) : string :=
  match units with
  | [] => ""
  | (junk, body) :: us => junk +++ BT +++ body +++ ET +++ render us
  end.

(** The conditions on a unit: the junk holds no begin marker and the
    body no end marker. *)
Definition unit_ok (u : string * string) : bool :=
  negb (Js.includes (fst u) BT) && negb (Js.includes (snd u) ET).

(** What section 4.1 of the spec yields for the units: the trimmed
    bodies, the empty ones dropped. *)
Definition bodies (units : list (string * string)) : list string :=
  filter Js.truthy (map (fun u => Js.trim (snd u)) units).

(** The stronger condition under which chunking does not matter: the
    junk holds no marker at all. *)
Definition unit_clean (u : string * string) : bool :=
  negb (Js.includes (fst u) BT) && negb (Js.includes (fst u) ET) && negb (Js.includes (snd u) ET).

(** ** Occurrences of a marker *)

Lemma prefix_straddle m m' j r :
  m = BT \/ m = ET -> m' = BT \/ m' = ET -> 0 < String.length j < 4 ->
  prefix m (j +++ m' +++ r) = false.
Proof.
  intros Hm Hm' Hj. destruct j as [|a [|b [|c [|d j]]]]; cbn [String.length] in Hj; try lia;
    destruct Hm as [-> | ->], Hm' as [-> | ->]; unfold BT, ET; cbn [append prefix];
    repeat match goal with |- context [ascii_dec ?x ?y] => is_var y; destruct (ascii_dec x y) end;
    reflexivity.
Qed.

(** An occurrence of a marker after a text free of it starts after
    that text. *)
Lemma find_at_after m m' j r :
  m = BT \/ m = ET -> m' = BT \/ m' = ET -> Js.find_at m j = None ->
  Js.find_at m (j +++ m' +++ r) = option_map (Nat.add (String.length j)) (Js.find_at m (m' +++ r)).
Proof.
  intros Hm Hm'. induction j as [|c j IH]; intros Hj.
  - cbn [append String.length]. now destruct (Js.find_at m (m' +++ r)).
  - rewrite find_at_unfold in Hj |- *. destruct (prefix m (String c j)) eqn:P; [discriminate|].
    assert (Hp : prefix m (String c j +++ m' +++ r) = false).
    { destruct (Nat.lt_ge_cases (String.length (String c j)) 4) as [L|L].
      - apply prefix_straddle; [exact Hm | exact Hm' | cbn in *; lia].
      - rewrite prefix_app; [exact P|]. destruct Hm as [-> | ->]; exact L. }
    cbn [append] in Hp |- *. rewrite Hp.
    destruct (Js.find_at m j) eqn:F; [discriminate|]. rewrite IH by reflexivity.
    now destruct (Js.find_at m (m' +++ r)).
Qed.

(** The first occurrence of a marker after a text free of it is right
    after that text. *)
Lemma find_at_first m j r :
  m = BT \/ m = ET -> Js.find_at m j = None -> Js.find_at m (j +++ m +++ r) = Some (String.length j).
Proof.
  intros Hm Hj. rewrite find_at_after by auto. rewrite find_at_unfold, prefix_app_self.
  cbn. f_equal. lia.
Qed.

Lemma find_at_ET_BT x : Js.find_at ET x = None -> Js.find_at ET (BT +++ x) = None.
Proof. intros H. unfold BT, ET in *. cbn. rewrite H. reflexivity. Qed.

Lemma includes_false_find_at s p : Js.includes s p = false -> Js.find_at p s = None.
Proof. unfold Js.includes. destruct (Js.find_at p s); congruence. Qed.

(** Dropping the junk and the begin marker of a unit. *)
Lemma drop_unit j x r :
  Js.drop (String.length j + 4) (j +++ BT +++ x +++ r) = x +++ r.
Proof.
  rewrite <- drop_drop, drop_app_length. change 4 with (String.length BT). apply drop_app_length.
Qed.

(** ** One pass of the loop cuts out the first unit *)

Lemma extract_iteration_unit j x r :
  Js.includes j BT = false -> Js.includes x ET = false ->
  extract_iteration (j +++ BT +++ x +++ ET +++ r) = Extracted (Js.trim x) r.
Proof.
  intros Hj%includes_false_find_at Hx%includes_false_find_at.
  set (buf := j +++ BT +++ x +++ ET +++ r).
  assert (Lb : String.length buf = String.length j + 4 + String.length x + 4 + String.length r)
    by (unfold buf; rewrite !str_length_app; cbn; lia).
  assert (Hbt : Js.find_at BT buf = Some (String.length j)) by (apply find_at_first; auto).
  assert (Het : Js.find_at ET (BT +++ x +++ ET +++ r) = Some (4 + String.length x)).
  { rewrite <- str_app_assoc, find_at_first; [| now right | now apply find_at_ET_BT].
    rewrite str_length_app. reflexivity. }
  assert (Ib : Js.index_of buf BT 0 = Z.of_nat (String.length j)).
  { unfold Js.index_of. change 0%Z with (Z.of_nat 0). rewrite clamp_of_nat by lia.
    cbn [Js.drop]. rewrite Hbt. reflexivity. }
  assert (Ie : Js.index_of buf ET (Z.of_nat (String.length j))
               = Z.of_nat (String.length j + (4 + String.length x))).
  { unfold Js.index_of. rewrite clamp_of_nat by lia. unfold buf.
    rewrite drop_app_length, Het. reflexivity. }
  unfold extract_iteration, Js.includes. rewrite Hbt.
  replace (Js.find_at ET buf) with (Js.find_at ET ((j +++ BT +++ x) +++ ET +++ r))
    by (unfold buf; now rewrite !str_app_assoc).
  destruct (Js.find_at ET ((j +++ BT +++ x) +++ ET +++ r)) eqn:F;
    [|exfalso; exact (find_at_mid _ _ _ F)].
  fold buf. rewrite Ib, Ie. cbn [andb negb].
  replace (Z.of_nat (String.length j) =? -1)%Z with false by (symmetry; apply Z.eqb_neq; lia).
  replace (Z.of_nat (String.length j + (4 + String.length x)) =? -1)%Z with false
    by (symmetry; apply Z.eqb_neq; lia).
  cbn [andb negb]. f_equal.
  - f_equal. unfold Js.substring.
    replace (Z.of_nat (String.length j) + 4)%Z with (Z.of_nat (String.length j + 4)) by lia.
    rewrite !clamp_of_nat by lia.
    replace (Nat.max _ _ - Nat.min _ _) with (String.length x) by lia.
    replace (Nat.min _ _) with (String.length j + 4) by lia.
    unfold buf. rewrite drop_unit. apply take_app_length.
  - rewrite substring_from_drop.
    replace (Z.of_nat (String.length j + (4 + String.length x)) + 4)%Z
      with (Z.of_nat ((String.length j + 4) + String.length (x +++ ET))) by (rewrite str_length_app; cbn; lia).
    rewrite clamp_of_nat by (rewrite str_length_app; cbn; lia).
    unfold buf. rewrite <- drop_drop, drop_unit, <- str_app_assoc. apply drop_app_length.
Qed.

Lemma unit_ok_iff u :
  unit_ok u = true <-> Js.includes (fst u) BT = false /\ Js.includes (snd u) ET = false.
Proof. unfold unit_ok. rewrite andb_true_iff, !negb_true_iff. reflexivity. Qed.

Lemma render_cons j x us t :
  render ((j, x) :: us) +++ t = j +++ BT +++ x +++ ET +++ (render us +++ t).
Proof. cbn [render]. now rewrite !str_app_assoc. Qed.

Lemma bodies_cons j x us ts :
  (push_thought ts (Js.trim x) ++ bodies us = ts ++ bodies ((j, x) :: us))%list.
Proof.
  unfold bodies, push_thought. cbn [map filter snd].
  destruct (Js.truthy (Js.trim x)); [now rewrite <- app_assoc | reflexivity].
Qed.

Lemma scan_render units tail ts :
  forallb unit_ok units = true ->
  (Js.includes tail BT && Js.includes tail ET) = false ->
  scan (render units +++ tail) ts = Finished tail (ts ++ bodies units).
Proof.
  revert ts; induction units as [|[j x] us IH]; intros ts Hu Ht.
  - rewrite scan_unfold. unfold extract_iteration. cbn [render append]. rewrite Ht.
    now rewrite app_nil_r.
  - cbn [forallb] in Hu. apply andb_true_iff in Hu as [[Hj Hx]%unit_ok_iff Hus].
    rewrite render_cons, scan_unfold, extract_iteration_unit by assumption.
    rewrite IH by assumption. now rewrite (bodies_cons j x us ts).
Qed.

(** C9: On a buffer of units [junk [bt] body [et]] followed by a tail
    that does not hold both markers, where no junk holds a begin marker
    and no body an end marker, the extraction loop of lines 251-270
    exits with the tail left in the buffer and appends exactly the
    trimmed non-empty bodies, in order. *)
Theorem extract_thoughts_wellformed units tail ts :
  forallb unit_ok units = true ->
  (Js.includes tail BT && Js.includes tail ET) = false ->
  extract_thoughts (loop_fuel (render units +++ tail)) (render units +++ tail) ts
  = Some (tail, ts ++ bodies units).
Proof.
  intros Hu Ht. apply extract_thoughts_finished; [now apply scan_render | unfold loop_fuel; lia].
Qed.

Lemma extract_thoughts_wellformed_witness :
  let units := [(""%string, " ML is AI "); ("<|sil|> [et] ", "  "); (" ", "a [bt] b")] in
  forallb unit_ok units = true
  /\ (Js.includes "[bt] It tr" BT && Js.includes "[bt] It tr" ET) = false
  /\ extract_thoughts (loop_fuel (render units +++ "[bt] It tr")) (render units +++ "[bt] It tr") []
     = Some ("[bt] It tr", [] ++ bodies units).
Proof.
  cbv zeta. split; [vm_compute; reflexivity | split; [vm_compute; reflexivity|]].
  apply extract_thoughts_wellformed; vm_compute; reflexivity.
Defined.

(** ** No prefix of well-formed text stalls the loop *)

Lemma unit_clean_ok u : unit_clean u = true -> unit_ok u = true.
Proof.
  unfold unit_clean, unit_ok. rewrite !andb_true_iff. intros [[A _] C]. now rewrite A, C.
Qed.

Lemma forallb_unit_clean_ok us : forallb unit_clean us = true -> forallb unit_ok us = true.
Proof.
  rewrite !forallb_forall. intros H u Hu. apply unit_clean_ok, H, Hu.
Qed.

(** A buffer without an end marker ends the loop at once. *)
Lemma scan_no_ET b ts : Js.includes b ET = false -> scan b ts = Finished b ts.
Proof.
  intros H. rewrite scan_unfold. unfold extract_iteration. now rewrite H, andb_false_r.
Qed.

Lemma find_at_ET_unit j x :
  Js.includes j ET = false -> Js.includes x ET = false -> Js.find_at ET (j +++ BT +++ x) = None.
Proof.
  intros Hj%includes_false_find_at Hx%includes_false_find_at.
  rewrite find_at_after by auto. now rewrite find_at_ET_BT.
Qed.

(** A proper prefix of a unit holds no end marker. *)
Lemma take_unit_no_ET j x n :
  Js.includes j ET = false -> Js.includes x ET = false ->
  n < String.length (j +++ BT +++ x +++ ET) ->
  Js.includes (Js.take n (j +++ BT +++ x +++ ET)) ET = false.
Proof.
  intros Hj Hx Ln. pose proof (find_at_ET_unit j x Hj Hx) as FV.
  assert (E : j +++ BT +++ x +++ ET = (j +++ BT +++ x) +++ ET +++ "")
    by now rewrite str_app_nil_r, !str_app_assoc.
  rewrite E in Ln |- *. rewrite !str_length_app in Ln. cbn [String.length ET] in Ln.
  unfold Js.includes. destruct (Js.find_at ET (Js.take n _)) as [i|] eqn:G; [exfalso|reflexivity].
  pose proof (find_at_spec _ _ _ G) as [_ Li]. rewrite take_length in Li.
  destruct (find_at_take _ _ _ _ G) as (i' & F & Le).
  rewrite find_at_first in F by auto. injection F as <-.
  rewrite !str_length_app in Li, Le. cbn in Li, Le, Ln. lia.
Qed.

Lemma scan_take_render units tail ts n :
  forallb unit_clean units = true -> Js.includes tail ET = false ->
  exists b ts', scan (Js.take n (render units +++ tail)) ts = Finished b ts'.
Proof.
  revert ts n; induction units as [|[j x] us IH]; intros ts n Hu Ht.
  - cbn [render append]. eexists _, _. apply scan_no_ET, includes_take, Ht.
  - cbn [forallb] in Hu. apply andb_true_iff in Hu as [Hc Hus].
    unfold unit_clean in Hc. cbn [fst snd] in Hc. rewrite !andb_true_iff, !negb_true_iff in Hc.
    destruct Hc as [[Hjb Hje] Hxe].
    rewrite render_cons.
    assert (E : j +++ BT +++ x +++ ET +++ (render us +++ tail)
                = (j +++ BT +++ x +++ ET) +++ (render us +++ tail)) by now rewrite !str_app_assoc.
    rewrite E. destruct (Nat.lt_ge_cases n (String.length (j +++ BT +++ x +++ ET))) as [L|L].
    + rewrite take_app_l by lia. eexists _, _. apply scan_no_ET, take_unit_no_ET; assumption.
    + rewrite take_app_r by exact L. rewrite !str_app_assoc, scan_unfold, extract_iteration_unit
        by assumption.
      apply IH; assumption.
Qed.

(** The consumer finishes whenever no prefix of the text it reads, cut
    at any point, makes the loop stall. *)
Lemma consume_total r ts parts :
  (forall n, exists b ts', scan (buffer r +++ Js.take n (deltas parts)) ts = Finished b ts') ->
  exists r' ts', consume r ts parts = Some (r', ts').
Proof.
  revert r ts; induction parts as [|[i d|o] ps IH]; intros r ts H; cbn [consume]; eauto.
  - rewrite on_part_scan.
    destruct (H (String.length d)) as (b & us & Hb). cbn [deltas] in Hb.
    rewrite take_app_length in Hb. rewrite Hb.
    apply IH. intros n. destruct (H (String.length d + n)) as (b' & us' & Hb').
    cbn [deltas] in Hb'. rewrite take_app_r in Hb' by lia.
    replace (String.length d + n - String.length d) with n in Hb' by lia.
    rewrite <- str_app_assoc, scan_app, Hb in Hb'. cbn [buffer]. eauto.
  - apply IH. exact H.
Qed.

(** C8: However the upstream text is cut into text deltas, when it is a
    sequence of units [junk [bt] body [et]] whose junk holds no marker
    and whose bodies hold no end marker, followed by a tail without an
    end marker, the reasoning consumer reads it to the end, extracts
    exactly the trimmed non-empty bodies in order, and keeps the tail
    in its buffer. *)
Theorem consume_wellformed units tail parts :
  forallb unit_clean units = true -> Js.includes tail ET = false ->
  deltas parts = render units +++ tail ->
  exists r', consume reader_init [] parts = Some (r', bodies units) /\ buffer r' = tail.
Proof.
  intros Hu Ht Hd.
  destruct (consume_total reader_init [] parts) as (r' & ts' & Hc).
  { intros n. cbn [buffer reader_init append]. rewrite Hd. now apply scan_take_render. }
  pose proof (consume_spec reader_init [] parts r' ts' eq_refl Hc) as Hs.
  cbn [buffer reader_init append] in Hs. rewrite Hd in Hs. unfold spec_extract in Hs.
  rewrite scan_render in Hs by (auto using forallb_unit_clean_ok; now rewrite Ht, andb_false_r).
  injection Hs as Hb Ht'. exists r'. split; [now rewrite Hc, Ht' | exact Hb].
Qed.

Lemma consume_wellformed_witness :
  forallb unit_clean [(""%string, "ML is AI subset"); (" <|sil|> ", "It trains on data")] = true
  /\ Js.includes "" ET = false
  /\ deltas scenario_parts = render [(""%string, "ML is AI subset"); (" <|sil|> ", "It trains on data")] +++ ""
  /\ exists r', consume reader_init [] scenario_parts
                = Some (r', bodies [(""%string, "ML is AI subset"); (" <|sil|> ", "It trains on data")])
              /\ buffer r' = "".
Proof.
  split; [vm_compute; reflexivity|]. split; [vm_compute; reflexivity|].
  split; [vm_compute; reflexivity|].
  apply consume_wellformed; vm_compute; reflexivity.
Defined.

End Wellformed.
