(* ===== verification/Delivery.v ===== *)
(** * The delivery generator: prompts, request and clean-up

    [natural-response-processor.ts]: [emitImmediateResponse] (its prompt,
    line 89), [generateResponseForLatestThought] (lines 286-323) and
    [callSmolLMForSentence] (lines 329-371).  The prompt is a ChatML text
    built by string concatenation; the request goes to the TGI endpoint
    and its answer is cleaned with a chain of regular-expression
    replacements.  The endpoint itself is not modelled: a call is
    described by its [fetch_outcome]. *)

From Stdlib Require Import Ascii String List Lia Arith ZArith Bool QArith.
From S2P Require Import Prelude.
Import ListNotations.

Local Open Scope nat_scope.
Local Open Scope string_scope.
Local Open Scope js_scope.

Module Delivery.

(** The newline character of the template literals. *)
Definition nl : string := String (ascii_of_nat 10) EmptyString.

(** [this.thoughts[i]] inside a template literal: an index past the
    end reads [undefined], which is rendered as the text "undefined". *)
Definition js_at (l : list string) (i : nat) : string :=
  match nth_error l i with Some s => s | None => "undefined" end.

Definition user_turn (u : string) : string :=
  "<|im_start|>user" +++ nl +++ u +++ "<|im_end|>" +++ nl.
Definition knowledge_turn (t : string) : string :=
  "<|im_start|>knowledge" +++ nl +++ t +++ "<|im_end|>" +++ nl.
Definition assistant_turn (r : string) : string :=
  "<|im_start|>assistant" +++ nl +++ r +++ "<|im_end|>" +++ nl.
Definition assistant_open : string := "<|im_start|>assistant" +++ nl.

(** Line 89. *)
Definition immediate_prompt (currentUserInput : string) : string :=
  user_turn currentUserInput +++ assistant_open.

(** Lines 289-307, [prompt += ...] written as a left fold. *)
Definition build_prompt (currentUserInput : string) (thoughts responses : list string)
  : string :=
  let prompt := user_turn currentUserInput in
  let prompt :=
    if Nat.eqb (length responses) 0 then
      prompt +++ knowledge_turn (js_at thoughts 0)
    else
      let numResponses := length responses in
      let prompt :=
        fold_left (fun p i => p +++ knowledge_turn (js_at thoughts i)
                                +++ assistant_turn (js_at responses i))
                  (seq 0 numResponses) prompt in
      if Nat.ltb numResponses (length thoughts)
      then prompt +++ knowledge_turn (js_at thoughts numResponses)
      else prompt in
  prompt +++ assistant_open.

(** ** The request (lines 330-351) *)

Definition completions_suffix : string := "/v1/chat/completions".

(** Lines 340-342. *)
Definition tgi_url (huggingfaceEndpointUrl : string) : string :=
  if Js.ends_with huggingfaceEndpointUrl completions_suffix
  then huggingfaceEndpointUrl
  else huggingfaceEndpointUrl +++ completions_suffix.

(** [fallbackBehavior] of [types.ts]. *)
Inductive fallback_behavior := Passthrough | Silence.

(** [StreamNaturalTextConfig] of [types.ts]; numbers are rationals, the
    callback is kept as whether it is present. *)
Record config := mkConfig {
  huggingfaceEndpointUrl : string;
  huggingfaceApiKey : string;
  temperature : option Q;
  fallbackBehavior : option fallback_behavior;
  onMetricsUpdate : bool }.

(** Line 336: [this.config.temperature || 0.7]; [0] is falsy. *)
Definition resolve_temperature (t : option Q) : Q :=
  match t with
  | Some q => if Qeq_bool q 0%Q then (7 # 10)%Q else q
  | None => (7 # 10)%Q
  end.

Record chat_message := mkChatMessage { role : string; content : string }.

Record request_body := mkRequestBody {
  model : string;
  messages : list chat_message;
  max_tokens : nat;
  req_temperature : Q;
  stream : bool }.

(** Lines 330-338. *)
Definition make_request_body (cfg : config) (prompt : string) : request_body :=
  {| model := "tgi";
     messages := [mkChatMessage "user" prompt];
     max_tokens := 50;
     req_temperature := resolve_temperature (temperature cfg);
     stream := false |}.

(** ** Clean-up of the answer (lines 362-370) *)

Definition in_range (lo hi n : nat) : bool := Nat.leb lo n && Nat.leb n hi.

Definition lower (c : ascii) : ascii :=
  let n := nat_of_ascii c in
  if in_range 65 90 n then ascii_of_nat (n + 32) else c.

(** Case-insensitive prefix test (the [i] flag on ASCII letters). *)
Fixpoint prefix_ci (p s : string) : bool :=
  match p, s with
  | EmptyString, _ => true
  | String a p', String b s' => Ascii.eqb (lower a) (lower b) && prefix_ci p' s'
  | _, _ => false
  end.

(** [\w]: ASCII letters, digits and underscore. *)
Definition is_word_char (c : ascii) : bool :=
  let n := nat_of_ascii c in
  in_range 48 57 n || in_range 65 90 n || in_range 97 122 n || Nat.eqb n 95.

Definition starts_with_word_char (s : string) : bool :=
  match s with String c _ => is_word_char c | EmptyString => false end.

(** [s.replace(/lit/g, '')] for a non-empty literal: a left-to-right
    scan; [skip] counts the characters of a match still to drop. *)
Fixpoint remove_all_aux (pat : string) (skip : nat) (s : string) : string :=
  match s with
  | EmptyString => EmptyString
  | String c s' =>
      match skip with
      | S k => remove_all_aux pat k s'
      | 0 => if prefix pat s then remove_all_aux pat (String.length pat - 1) s'
             else String c (remove_all_aux pat 0 s')
      end
  end.

Definition remove_all (pat s : string) : string := remove_all_aux pat 0 s.

(** [s.replace(/\bword\b/gi, '')] for a word of word characters:
    [prev_word] tells whether the character before the scan position
    is a word character. *)
Fixpoint remove_word_aux (w : string) (prev_word : bool) (skip : nat) (s : string) : string :=
  match s with
  | EmptyString => EmptyString
  | String c s' =>
      match skip with
      | S k => remove_word_aux w (is_word_char c) k s'
      | 0 =>
          if negb prev_word && prefix_ci w s
             && negb (starts_with_word_char (Js.drop (String.length w) s))
          then remove_word_aux w (is_word_char c) (String.length w - 1) s'
          else String c (remove_word_aux w (is_word_char c) 0 s')
      end
  end.

Definition remove_word (w s : string) : string := remove_word_aux w false 0 s.

(** [s.replace(/^word\s*/i, '')]. *)
Definition strip_leading (w s : string) : string :=
  if prefix_ci w s then Js.trim_start (Js.drop (String.length w) s) else s.

(** [s.replace(/^\s*word\s*/i, '')]. *)
Definition strip_leading_ws (w s : string) : string :=
  let t := Js.trim_start s in
  if prefix_ci w t then Js.trim_start (Js.drop (String.length w) t) else s.

(** Lines 362-370, in the order of the code. *)
Definition sanitize (content : string) : string :=
  let s := remove_all "<|im_start|>" content in
  let s := remove_all "<|im_end|>" s in
  let s := strip_leading "assistant" s in
  let s := remove_word "assistant" s in
  let s := remove_word "knowledge" s in
  let s := strip_leading_ws "knowledge" s in
  let s := strip_leading_ws "assistant" s in
  Js.trim s.

(** ** One call *)

(** What [fetch] and [response.json()] produce. *)
Inductive fetch_outcome :=
| FetchRejected                        (** network failure: [fetch] rejects *)
| HttpNotOk (status : nat)             (** [!response.ok], line 353 *)
| HttpOkBadJson                        (** [response.json()] rejects *)
| HttpOkJson (content : option string).
    (** [result.choices?.[0]?.message?.content], when it is a string *)

Inductive call_result := CallOk (text : string) | CallError.

(** [callSmolLMForSentence] after its request: throws on a failed
    fetch, a non-2xx status or a body that is not JSON; otherwise
    [content || ''] cleaned. *)
Definition call_smollm (o : fetch_outcome) : call_result :=
  match o with
  | FetchRejected | HttpNotOk _ | HttpOkBadJson => CallError
  | HttpOkJson c => CallOk (sanitize (match c with Some s => s | None => "" end))
  end.

(** [generateResponseForLatestThought] after the prompt: any error is
    caught and becomes the empty answer (lines 319-322). *)
Definition generate_response (o : fetch_outcome) : string :=
  match call_smollm o with CallOk t => t | CallError => "" end.

(** ** Analysis helpers *)

#[local] Arguments user_turn : simpl never.
#[local] Arguments knowledge_turn : simpl never.
#[local] Arguments assistant_turn : simpl never.
#[local] Arguments assistant_open : simpl never.

(** The knowledge/assistant alternation the prompt is meant to show:
    each earlier thought paired with the answer generated for it, then
    the first thought without an answer, and no later one. *)
Fixpoint dialogue_turns (thoughts responses : list string) : string :=
  match thoughts, responses with
  | t :: ts, r :: rs => knowledge_turn t +++ assistant_turn r +++ dialogue_turns ts rs
  | t :: _, [] => knowledge_turn t
  | [], _ => ""
  end.

(** Case-insensitive occurrence anywhere in a string. *)
Fixpoint contains_ci (w s : string) : bool :=
  prefix_ci w s || match s with String _ s' => contains_ci w s' | EmptyString => false end.

(** ** Prompt construction *)

Lemma fold_left_append (g : nat -> string) (l : list nat) (p : string) :
  fold_left (fun p i => p +++ g i) l p = p +++ fold_right (fun i acc => g i +++ acc) "" l.
Proof.
  revert p; induction l as [|i l IH]; intros p; simpl.
  - now rewrite str_app_nil_r.
  - rewrite IH, str_app_assoc. reflexivity.
Qed.

Lemma history_turns (thoughts responses : list string) :
  length responses <= length thoughts ->
  fold_right (fun i acc => (knowledge_turn (js_at thoughts i)
                             +++ assistant_turn (js_at responses i)) +++ acc) ""
             (seq 0 (length responses))
  +++ (if Nat.ltb (length responses) (length thoughts)
       then knowledge_turn (js_at thoughts (length responses)) else "")
  = dialogue_turns thoughts responses.
Proof.
  revert thoughts; induction responses as [|r rs IH]; intros [|t ts] L;
    cbn [length] in L; try lia; try reflexivity.
  cbn [length seq fold_right dialogue_turns].
  rewrite <- seq_shift, fold_right_map_comp, <- (IH ts) by lia.
  rewrite !str_app_assoc. reflexivity.
Qed.

(** C16: When at least one thought exists and responses are no more than
    thoughts, the prompt of lines 289-307 is the user turn, then
    each earlier thought paired with the response stored at its
    index, then the first thought without a response and no later
    thought, then the open assistant turn; the special case for zero
    responses is the same rendering. *)
Theorem build_prompt_turns (u : string) (thoughts responses : list string) :
  thoughts <> [] -> length responses <= length thoughts ->
  build_prompt u thoughts responses
  = user_turn u +++ dialogue_turns thoughts responses +++ assistant_open.
Proof.
  intros Hne L. unfold build_prompt. cbv zeta.
  destruct responses as [|r rs].
  - destruct thoughts as [|t ts]; [contradiction|].
    cbn [length Nat.eqb dialogue_turns js_at nth_error]. now rewrite str_app_assoc.
  - cbn [length Nat.eqb].
    rewrite (fold_left_append (fun i => knowledge_turn (js_at thoughts i)
                                   +++ assistant_turn (js_at (r :: rs) i))).
    rewrite <- (history_turns thoughts (r :: rs) L). cbn [length].
    destruct (Nat.ltb (S (length rs)) (length thoughts));
      rewrite ?str_app_nil_r, !str_app_assoc; reflexivity.
Qed.

Lemma build_prompt_turns_witness :
  build_prompt "Q" ["t0"; "t1"; "t2"] ["r0"]
  = user_turn "Q" +++ dialogue_turns ["t0"; "t1"; "t2"] ["r0"] +++ assistant_open.
Proof. apply build_prompt_turns; [discriminate | simpl; lia]. Defined.

(** ** The endpoint URL *)

Lemma tgi_url_ends (u : string) : Js.ends_with (tgi_url u) completions_suffix = true.
Proof.
  unfold tgi_url. destruct (Js.ends_with u completions_suffix) eqn:E; auto.
  apply ends_with_app.
Qed.

(** The request always goes to a URL ending in
    [/v1/chat/completions]; a URL that already ends so is kept, and
    normalising twice changes nothing. *)
Theorem tgi_url_spec (u : string) :
  Js.ends_with (tgi_url u) completions_suffix = true
  /\ tgi_url (tgi_url u) = tgi_url u
  /\ (Js.ends_with u completions_suffix = true -> tgi_url u = u).
Proof.
  split; [apply tgi_url_ends|]. split.
  - unfold tgi_url at 1. now rewrite tgi_url_ends.
  - intros E. unfold tgi_url. now rewrite E.
Qed.

(** ** The clean-up *)

Lemma remove_all_aux_absent (pat s : string) :
  Js.find_at pat s = None -> remove_all_aux pat 0 s = s.
Proof.
  induction s as [|c s IH]; intros H; [reflexivity|].
  rewrite find_at_unfold in H. cbn [remove_all_aux].
  destruct (prefix pat (String c s)); [discriminate|].
  destruct (Js.find_at pat s); [discriminate|]. rewrite IH; auto.
Qed.

Lemma contains_ci_cons (w : string) c s :
  contains_ci w (String c s) = false -> prefix_ci w (String c s) = false /\ contains_ci w s = false.
Proof. cbn [contains_ci]. now intros [? ?]%orb_false_iff. Qed.

Lemma remove_word_aux_absent (w s : string) b :
  contains_ci w s = false -> remove_word_aux w b 0 s = s.
Proof.
  revert b; induction s as [|c s IH]; intros b H; [reflexivity|].
  apply contains_ci_cons in H as [H1 H2]. cbn [remove_word_aux]. rewrite H1, andb_false_r.
  cbn [andb]. rewrite IH; auto.
Qed.

Lemma contains_ci_trim_start (w s : string) :
  contains_ci w s = false -> prefix_ci w (Js.trim_start s) = false.
Proof.
  induction s as [|c s IH]; intros H.
  - cbn [contains_ci] in H. now rewrite orb_false_r in H.
  - pose proof (contains_ci_cons _ _ _ H) as [H1 H2]. cbn [Js.trim_start].
  destruct (Js.is_ws c); auto.
Qed.

Lemma strip_leading_absent (w s : string) :
  contains_ci w s = false -> strip_leading w s = s /\ strip_leading_ws w s = s.
Proof.
  intros H. unfold strip_leading, strip_leading_ws.
  rewrite (contains_ci_trim_start _ _ H).
  destruct s as [|c s]; [destruct w; split; auto; discriminate|].
  now rewrite (proj1 (contains_ci_cons _ _ _ H)).
Qed.

(** An answer without control markers or role words, already trimmed,
    comes out of the clean-up of lines 362-370 unchanged. *)
Theorem sanitize_clean (s : string) :
  Js.find_at "<|im_start|>" s = None -> Js.find_at "<|im_end|>" s = None ->
  contains_ci "assistant" s = false -> contains_ci "knowledge" s = false ->
  Js.trim s = s -> sanitize s = s.
Proof.
  intros H1 H2 H3 H4 H5. unfold sanitize, remove_all, remove_word.
  rewrite (remove_all_aux_absent _ _ H1), (remove_all_aux_absent _ _ H2).
  rewrite (proj1 (strip_leading_absent _ _ H3)).
  rewrite (remove_word_aux_absent _ _ _ H3), (remove_word_aux_absent _ _ _ H4).
  rewrite (proj2 (strip_leading_absent _ _ H4)), (proj2 (strip_leading_absent _ _ H3)).
  exact H5.
Qed.

Lemma sanitize_clean_witness :
  sanitize "Planes fly high." = "Planes fly high.".
Proof. apply sanitize_clean; vm_compute; reflexivity. Defined.

(** The clean-up does not remove every control marker: removing
    [<|im_end|>] can join two halves of an [<|im_start|>] marker,
    which then survives. *)
Example sanitize_marker_survives :
  sanitize "<|im_<|im_end|>start|>hi" = "<|im_start|>hi".
Proof. vm_compute. reflexivity. Qed.

Lemma sanitize_trimmed (c : string) : Js.trim (sanitize c) = sanitize c.
Proof. apply trim_idem. Qed.

(** A configured temperature of 0 is sent as 0.7, because line 336
    uses [||]. *)
Example temperature_zero_replaced : resolve_temperature (Some 0%Q) = (7 # 10)%Q.
Proof. reflexivity. Qed.

End Delivery.
