(* ===== verification/Route.v ===== *)
(** * The chat API route

    [src/apps/web/app/api/chat/route.ts]: [POST] (lines 51-118) reads the
    JSON body, takes its [messages] field, checks that it is an array and
    that the three environment variables are set, builds the middleware
    configuration ([createNaturalTextModel], lines 5-49) and returns a
    text stream response; any error thrown on the way is caught (lines
    106-117) and answered with status 500 and the JSON body
    [{"error": message}].  [convertToModelMessages] is a library call
    that may throw: [post] takes it as a parameter (Section [Post]), and
    its error goes to the [catch] like the others.  [streamText] and the
    OpenAI provider are library calls that return without throwing: the
    streaming response is modelled by the converted messages and the
    configuration it is built from.
    Console logging and the debugging reader of lines 88-98 (which only
    takes and releases a lock) are not modelled. *)

From Stdlib Require Import Ascii String List Lia Arith Bool ZArith QArith.
From S2P Require Import Prelude Delivery.
Import ListNotations.

Local Open Scope string_scope.
Local Open Scope js_scope.
Local Open Scope nat_scope.

Module Route.

Local Set Warnings "-register-all".

(** JSON values. *)
Inductive json :=
| JNull
| JBool (b : bool)
| JNumber (n : Z)
| JString (s : string)
| JArray (xs : list json)
| JObject (fields : list (string * json)).

(** The request as [POST] sees it: [req.json()] rejects with an error
    message, or resolves to a JSON value. *)
Inductive request :=
| Unparsable (error_message : string)
| Parsed (body : json).

(** The environment variables the route reads. *)
Record env := mkEnv {
  OPENAI_API_KEY : option string;
  HUGGINGFACE_ENDPOINT_URL : option string;
  HUGGINGFACE_API_KEY : option string }.

Inductive response :=
| TextStreamResponse (messages : list json) (cfg : Delivery.config)
    (** [result.toTextStreamResponse()] over the wrapped model, for the
        model messages [convertToModelMessages] returned *)
| JsonResponse (status : nat) (body : string).

(** The field of an object with a given name as [JSON.parse] builds the
    object: a later field with the same name overwrites an earlier one,
    so the last one is kept. *)
Fixpoint lookup (k : string) (fields : list (string * json)) : option json :=
  match fields with
  | [] => None
  | (k', v) :: fs =>
      match lookup k fs with
      | Some w => Some w
      | None => if String.eqb k k' then Some v else None
      end
  end.

(** V8's message when destructuring [null]. *)
Definition null_destructure_error : string :=
  "Cannot destructure property 'messages' of '(intermediate value)' as it is null.".

(** Line 54: [const { messages } = ...]: [inl] the message of the
    [TypeError] destructuring [null] throws, [inr] the field ([None]
    when it is missing, as for every value that is not an object). *)
Definition destructure (body : json) : string + option json :=
  match body with
  | JNull => inl null_destructure_error
  | JObject fields => inr (lookup "messages" fields)
  | _ => inr None
  end.

(** [!process.env.X]: unset or empty. *)
Definition env_missing (v : option string) : bool :=
  match v with Some s => negb (Js.truthy s) | None => true end.

Definition env_value (v : option string) : string :=
  match v with Some s => s | None => "" end.

(** Lines 10-38: the configuration handed to
    [streamNaturalTextMiddleware].  The options [maxTokens: 64],
    [thoughtDelay] and [silenceDelay] are not fields of
    [StreamNaturalTextConfig] and nothing reads them. *)
Definition middleware_config (e : env) : Delivery.config :=
  Delivery.mkConfig (env_value (HUGGINGFACE_ENDPOINT_URL e)) (env_value (HUGGINGFACE_API_KEY e))
                    (Some (7 # 10)%Q) (Some Delivery.Passthrough) true.

(** [JSON.stringify] of a string: quotes, backslashes and control
    characters escaped. *)
Definition dquote : string := String (ascii_of_nat 34) EmptyString.
Definition backslash : string := String (ascii_of_nat 92) EmptyString.

Definition hex_digit (n : nat) : ascii :=
  if n <? 10 then ascii_of_nat (48 + n) else ascii_of_nat (87 + n).

Definition escape_char (c : ascii) : string :=
  let n := nat_of_ascii c in
  if (n =? 34) || (n =? 92) then backslash +++ String c EmptyString
  else if n =? 8 then backslash +++ "b"
  else if n =? 9 then backslash +++ "t"
  else if n =? 10 then backslash +++ "n"
  else if n =? 12 then backslash +++ "f"
  else if n =? 13 then backslash +++ "r"
  else if n <? 32 then
    backslash +++ "u00" +++ String (hex_digit (n / 16)) (String (hex_digit (n mod 16)) EmptyString)
  else String c EmptyString.

Fixpoint escape (s : string) : string :=
  match s with
  | EmptyString => EmptyString
  | String c s' => escape_char c +++ escape s'
  end.

(** Lines 108-116. *)
Definition error_response (message : string) : response :=
  JsonResponse 500 ("{" +++ dquote +++ "error" +++ dquote +++ ":"
                    +++ dquote +++ escape message +++ dquote +++ "}").

(** Lines 58-73: the checks all pass. *)
Definition env_ok (e : env) : bool :=
  negb (env_missing (OPENAI_API_KEY e)) && negb (env_missing (HUGGINGFACE_ENDPOINT_URL e))
  && negb (env_missing (HUGGINGFACE_API_KEY e)).

(** [POST] is parameterised by the AI SDK's [convertToModelMessages]
    (line 82): it throws, with an error message, on UI messages it does
    not accept (an unknown role, a missing [parts] array), and otherwise
    returns the model messages. *)
Section Post.

Variable convertToModelMessages : list json -> string + list json.

(** Lines 51-118. *)
Definition post (e : env) (r : request) : response :=
  match r with
  | Unparsable msg => error_response msg
  | Parsed body =>
      match destructure body with
      | inl msg => error_response msg
      | inr (Some (JArray messages)) =>
          if env_missing (OPENAI_API_KEY e)
          then error_response "Missing OPENAI_API_KEY environment variable"
          else if env_missing (HUGGINGFACE_ENDPOINT_URL e)
          then error_response "Missing HUGGINGFACE_ENDPOINT_URL environment variable"
          else if env_missing (HUGGINGFACE_API_KEY e)
          then error_response "Missing HUGGINGFACE_API_KEY environment variable"
          else match convertToModelMessages messages with
               | inl msg => error_response msg
               | inr model_messages => TextStreamResponse model_messages (middleware_config e)
               end
      | inr _ => error_response "Messages must be provided as an array"
      end
  end.

End Post.

(** A converter that accepts every array as it is (used in examples). *)
Definition accept_all (xs : list json) : string + list json := inr xs.

(** ** Reading the error body back (RFC 8259)

    A client reads the body of an error response with [JSON.parse].  The
    decoder below is the grammar of a JSON string's characters: a raw
    character other than the quote, the backslash and the control
    characters, or a backslash followed by a quote, a backslash, a slash,
    one of [b f n r t], or [u] and four hex digits (only code units below
    256 are characters of this model). *)
Definition hex_value (c : ascii) : option nat :=
  let n := nat_of_ascii c in
  if (48 <=? n) && (n <=? 57) then Some (n - 48)
  else if (97 <=? n) && (n <=? 102) then Some (n - 87)
  else if (65 <=? n) && (n <=? 70) then Some (n - 55)
  else None.

Definition unicode_escape (h1 h2 h3 h4 : ascii) : option ascii :=
  match hex_value h1, hex_value h2, hex_value h3, hex_value h4 with
  | Some a, Some b, Some c, Some d =>
      let code := a * 4096 + b * 256 + c * 16 + d in
      if code <? 256 then Some (ascii_of_nat code) else None
  | _, _, _, _ => None
  end.

Definition simple_escape (e : ascii) : option ascii :=
  let n := nat_of_ascii e in
  if (n =? 34) || (n =? 92) || (n =? 47) then Some e
  else if n =? 98 then Some (ascii_of_nat 8)
  else if n =? 102 then Some (ascii_of_nat 12)
  else if n =? 110 then Some (ascii_of_nat 10)
  else if n =? 114 then Some (ascii_of_nat 13)
  else if n =? 116 then Some (ascii_of_nat 9)
  else None.

Definition cons_char (c : ascii) (r : option (string * string)) : option (string * string) :=
  match r with Some (d, rest) => Some (String c d, rest) | None => None end.

(** The characters of a string literal up to its closing quote: the
    decoded text and what follows the quote. *)
Fixpoint json_chars (s : string) : option (string * string) :=
  match s with
  | EmptyString => None
  | String c s' =>
      let n := nat_of_ascii c in
      if n =? 34 then Some (EmptyString, s')
      else if n =? 92 then
        match s' with
        | String "u" (String h1 (String h2 (String h3 (String h4 s'')))) =>
            match unicode_escape h1 h2 h3 h4 with
            | Some c' => cons_char c' (json_chars s'')
            | None => None
            end
        | String e s'' =>
            match simple_escape e with
            | Some c' => cons_char c' (json_chars s'')
            | None => None
            end
        | EmptyString => None
        end
      else if n <? 32 then None
      else cons_char c (json_chars s')
  end.

Definition error_prefix : string := "{" +++ dquote +++ "error" +++ dquote +++ ":" +++ dquote.

(** [JSON.parse(body).error] for a body of the form [{"error":"..."}]. *)
Definition read_error_body (body : string) : option string :=
  if prefix error_prefix body then
    match json_chars (Js.drop (String.length error_prefix) body) with
    | Some (m, rest) => if String.eqb rest "}" then Some m else None
    | None => None
    end
  else None.

(** ** What the route answers *)

(** C23: [POST] answers with a text stream exactly when the body parses
    to an object whose [messages] field (the last one, as [JSON.parse]
    keeps it) is an array, the three environment variables are set and
    [convertToModelMessages] accepts those messages; the stream is then
    built from the converted messages and the fixed middleware
    configuration.  Any other request gets a JSON error response. *)
Theorem post_stream_iff convert e r msgs cfg :
  post convert e r = TextStreamResponse msgs cfg <->
  (exists body ms, r = Parsed body /\ destructure body = inr (Some (JArray ms))
                   /\ convert ms = inr msgs)
  /\ env_ok e = true /\ cfg = middleware_config e.
Proof.
  unfold env_ok. split.
  - destruct r as [m|body]; cbn; [discriminate|].
    destruct (destructure body) as [m|[[| | | |xs|]|]] eqn:D; try discriminate.
    destruct (env_missing (OPENAI_API_KEY e)), (env_missing (HUGGINGFACE_ENDPOINT_URL e)),
      (env_missing (HUGGINGFACE_API_KEY e)); try discriminate.
    destruct (convert xs) as [m|ms] eqn:C; [discriminate|].
    intros H; injection H as <- <-. eauto 7.
  - intros ((body & ms & -> & D & C) & Ho & ->). cbn. rewrite D.
    apply andb_true_iff in Ho as [Ho Hk]. apply andb_true_iff in Ho as [Ho Hu].
    apply negb_true_iff in Ho, Hu, Hk. now rewrite Ho, Hu, Hk, C.
Qed.

(** When the environment is complete and [convertToModelMessages]
    throws, the error reaches the [catch] of line 106: status 500 with
    the conversion's message. *)
Lemma post_convert_error convert e body ms msg :
  destructure body = inr (Some (JArray ms)) -> env_ok e = true -> convert ms = inl msg ->
  post convert e (Parsed body) = error_response msg.
Proof.
  unfold env_ok. intros D Ho C. cbn. rewrite D.
  apply andb_true_iff in Ho as [Ho Hk]. apply andb_true_iff in Ho as [Ho Hu].
  apply negb_true_iff in Ho, Hu, Hk. now rewrite Ho, Hu, Hk, C.
Qed.

(** C24: The [messages] check comes first: a body whose [messages] is
    not an array is answered with that error, with status 500, whatever
    the environment and whatever [convertToModelMessages] does. *)
Theorem post_messages_first convert e body m :
  destructure body = inr m -> (forall xs, m <> Some (JArray xs)) ->
  post convert e (Parsed body) = error_response "Messages must be provided as an array".
Proof.
  intros D Hm. cbn. rewrite D. destruct m as [[| | | |xs|]|]; auto.
  exfalso. exact (Hm xs eq_refl).
Qed.

Lemma post_messages_first_witness :
  destructure (JObject [("messages", JArray []); ("messages", JString "hi")])
  = inr (Some (JString "hi"))
  /\ (forall xs, Some (JString "hi") <> Some (JArray xs))
  /\ post accept_all (mkEnv None None None)
          (Parsed (JObject [("messages", JArray []); ("messages", JString "hi")]))
     = error_response "Messages must be provided as an array".
Proof.
  assert (D : destructure (JObject [("messages", JArray []); ("messages", JString "hi")])
              = inr (Some (JString "hi"))) by reflexivity.
  assert (Hm : forall xs, Some (JString "hi") <> Some (JArray xs)) by discriminate.
  split; [exact D | split; [exact Hm | exact (post_messages_first _ _ _ _ D Hm)]].
Defined.

(** ** The error body round trip *)

Lemma json_chars_escape_char (c : ascii) (t : string) :
  json_chars (escape_char c +++ t) = cons_char c (json_chars t).
Proof. destruct c as [[] [] [] [] [] [] [] []]; reflexivity. Qed.

Lemma json_chars_escape (s t : string) :
  json_chars (escape s +++ dquote +++ t) = Some (s, t).
Proof.
  induction s as [|c s IH]; [reflexivity|].
  cbn [escape]. rewrite str_app_assoc, json_chars_escape_char, IH. reflexivity.
Qed.

(** C31: The body of every error response reads back, through the JSON
    grammar, as the object [{"error": message}] with the exact message
    the route caught, whatever characters it holds. *)
Theorem error_body_roundtrip (message : string) :
  exists body, error_response message = JsonResponse 500 body /\ read_error_body body = Some message.
Proof.
  eexists. split; [reflexivity|]. unfold read_error_body.
  change ("{" +++ dquote +++ "error" +++ dquote +++ ":" +++ dquote +++ escape message +++ dquote +++ "}")
    with (error_prefix +++ (escape message +++ dquote +++ "}")).
  rewrite prefix_app_self, drop_app_length, json_chars_escape. reflexivity.
Qed.

End Route.
