(* ===== verification/Pacing.v ===== *)
(** * The pacing emitter [streamSentenceTokens]

    [natural-response-processor.ts], lines 377-409.  A sentence is split
    on single spaces, blank words are dropped, each word (followed by a
    space unless it is the last) is enqueued under the id [String(textId)]
    with a 30 ms pause after it, and a final [' '] fragment is enqueued
    under [String(textId + 1000)].  Every push is guarded by
    [controller.desiredSize !== null].  The outward stream controller is
    modelled by its queue and its two terminal states (WHATWG streams:
    [desiredSize] is [null] exactly when the stream is errored, and
    [enqueue] throws on a closed or errored stream).  The pauses are the
    suspension points of [Fusion]; here the emitter is the list of
    fragments it pushes. *)

From Stdlib Require Import Ascii String List Lia Arith Bool.
From S2P Require Import Prelude.
Import ListNotations.

Local Open Scope string_scope.
Local Open Scope js_scope.

Module Pacing.

(** [ReadableStreamDefaultController]: the parts enqueued so far and
    whether [close()] was called or the stream errored. *)
Record controller := mkController {
  queue : list stream_part;
  closed : bool;
  errored : bool }.

Definition controller_init : controller := mkController [] false false.

(** [controller.desiredSize === null]. *)
Definition desired_size_null (c : controller) : bool := errored c.

(** [controller.enqueue(p)]: [None] when it throws. *)
Definition enqueue (c : controller) (p : stream_part) : option controller :=
  if closed c || errored c then None
  else Some (mkController (queue c ++ [p]) (closed c) (errored c)).

(** [controller.close()]: [None] when it throws. *)
Definition close (c : controller) : option controller :=
  if closed c || errored c then None
  else Some (mkController (queue c) true (errored c)).

(** [controller.error(e)]: the stream becomes errored unless it already
    is (WHATWG [ReadableStreamDefaultControllerError]). *)
Definition error (c : controller) : controller :=
  if errored c then c else mkController (queue c) (closed c) true.

(** Lines 389-395 and 402-408: a guarded push. *)
Definition push_fragment (c : controller) (p : stream_part) : option controller :=
  if desired_size_null c then Some c else enqueue c p.

(** Line 384: [sentence.split(' ').filter(w => w.trim())]. *)
Definition words_of (sentence : string) : list string :=
  filter (fun w => Js.truthy (Js.trim w)) (Js.split_space sentence).

(** Line 387: [words[i] + (i < words.length - 1 ? ' ' : '')]. *)
Definition word_deltas (words : list string) : list string :=
  map (fun i => match nth_error words i with Some w => w | None => "undefined" end
                +++ (if Nat.ltb i (length words - 1) then " " else ""))
      (seq 0 (length words)).

(** The fragments lines 382-408 push, in order. *)
Definition sentence_fragments (textId : nat) (sentence : string) : list stream_part :=
  if negb (Js.truthy sentence) || String.eqb (Js.trim sentence) "" then []
  else map (TextDelta (Js.of_nat textId)) (word_deltas (words_of sentence))
       ++ [TextDelta (Js.of_nat (textId + 1000)) " "].

(** Push a list of fragments one after the other. *)
Fixpoint push_all (c : controller) (ps : list stream_part) : option controller :=
  match ps with
  | [] => Some c
  | p :: ps' =>
      match push_fragment c p with
      | Some c' => push_all c' ps'
      | None => None
      end
  end.

(** [streamSentenceTokens(sentence, controller, textId)]. *)
Definition stream_sentence_tokens (c : controller) (textId : nat) (sentence : string)
  : option controller :=
  push_all c (sentence_fragments textId sentence).

(** The text a consumer reads from a list of parts. *)
Fixpoint visible_text (ps : list stream_part) : string :=
  match ps with
  | [] => ""
  | TextDelta _ d :: ps' => d +++ visible_text ps'
  | OtherPart _ :: ps' => visible_text ps'
  end.

(** ** Splitting and joining *)

Lemma split_space_nonempty (s : string) : Js.split_space s <> [].
Proof.
  destruct s as [|c s]; simpl; [discriminate|].
  destruct ((c =? " ")%char); [discriminate|]. destruct (Js.split_space s); discriminate.
Qed.

Lemma join_cons (w : string) (ws : list string) :
  ws <> [] -> Js.join " " (w :: ws) = w +++ " " +++ Js.join " " ws.
Proof. destruct ws; [contradiction|reflexivity]. Qed.

(** [s.split(' ').join(' ') === s]. *)
Lemma split_join (s : string) : Js.join " " (Js.split_space s) = s.
Proof.
  induction s as [|c s IH]; [reflexivity|]. cbn [Js.split_space].
  destruct (Ascii.eqb_spec c " ") as [->|Hc].
  - rewrite join_cons by apply split_space_nonempty. rewrite IH. reflexivity.
  - pose proof (split_space_nonempty s) as Hne.
    destruct (Js.split_space s) as [|w ws] eqn:E; [contradiction|].
    destruct ws as [|w' ws].
    + cbn in IH |- *. now rewrite IH.
    + rewrite join_cons by discriminate. rewrite join_cons in IH by discriminate.
      rewrite <- IH. reflexivity.
Qed.

(** ** What the emitter enqueues *)

Lemma word_deltas_cons (w : string) (ws : list string) :
  word_deltas (w :: ws) = (w +++ if Nat.eqb (length ws) 0 then "" else " ") :: word_deltas ws.
Proof.
  unfold word_deltas. cbn [length seq map nth_error].
  rewrite <- seq_shift, map_map. f_equal.
  - destruct ws; reflexivity.
  - apply map_ext_in. intros i Hi. apply in_seq in Hi.
    replace (length (w :: ws) - 1) with (length ws) by (simpl; lia).
    destruct ws as [|w' ws]; [simpl in Hi; lia|].
    cbn [length] in *. f_equal. js_case_eqb; reflexivity || lia.
Qed.

Lemma visible_word_deltas (id : string) (words : list string) :
  visible_text (map (TextDelta id) (word_deltas words)) = Js.join " " words.
Proof.
  induction words as [|w ws IH]; [reflexivity|].
  rewrite word_deltas_cons. cbn [map visible_text].
  destruct ws as [|w' ws].
  - cbn. rewrite !str_app_nil_r. reflexivity.
  - cbn [length Nat.eqb]. rewrite IH, (join_cons w (w' :: ws)) by discriminate.
    apply str_app_assoc.
Qed.

Lemma visible_text_app (ps qs : list stream_part) :
  visible_text (ps ++ qs) = visible_text ps +++ visible_text qs.
Proof.
  induction ps as [|[] ps IH]; cbn [app visible_text]; auto.
  rewrite IH. symmetry. apply str_app_assoc.
Qed.

Lemma sentence_fragments_text (textId : nat) (sentence : string) :
  visible_text (sentence_fragments textId sentence)
  = if negb (Js.truthy sentence) || String.eqb (Js.trim sentence) "" then ""
    else Js.join " " (words_of sentence) +++ " ".
Proof.
  unfold sentence_fragments.
  destruct (negb (Js.truthy sentence) || String.eqb (Js.trim sentence) ""); [reflexivity|].
  rewrite visible_text_app, visible_word_deltas. cbn [visible_text]. now rewrite str_app_nil_r.
Qed.

(** C19: For a sentence whose words are separated by single spaces and are
    not blank, the fragments [streamSentenceTokens] pushes read back
    as the sentence followed by one space. *)
Theorem sentence_fragments_roundtrip (textId : nat) (sentence : string) :
  Forall (fun w => Js.truthy (Js.trim w) = true) (Js.split_space sentence) ->
  Js.trim sentence <> "" ->
  visible_text (sentence_fragments textId sentence) = sentence +++ " ".
Proof.
  intros Hw Ht. rewrite sentence_fragments_text.
  destruct sentence as [|c s]; [contradiction|].
  destruct (String.eqb_spec (Js.trim (String c s)) "") as [E|_]; [contradiction|].
  cbn [Js.truthy negb orb]. unfold words_of.
  rewrite forallb_filter_id; [now rewrite split_join|].
  apply forallb_forall. intros x Hx. rewrite Forall_forall in Hw. auto.
Qed.

Lemma push_all_open (c : controller) (ps : list stream_part) :
  closed c = false -> errored c = false ->
  push_all c ps = Some (mkController (queue c ++ ps) false false).
Proof.
  revert c; induction ps as [|p ps IH]; intros [q cl er] Hc He; cbn in Hc, He; subst.
  - cbn. now rewrite app_nil_r.
  - cbn. rewrite IH by reflexivity. cbn. now rewrite <- app_assoc.
Qed.

(** On an open stream, [streamSentenceTokens] appends exactly its
    fragments, in order, after what the stream already holds. *)
Theorem stream_sentence_tokens_open (c : controller) (textId : nat) (sentence : string) :
  closed c = false -> errored c = false ->
  stream_sentence_tokens c textId sentence
  = Some (mkController (queue c ++ sentence_fragments textId sentence) false false).
Proof. apply push_all_open. Qed.

Lemma sentence_fragments_roundtrip_witness :
  visible_text (sentence_fragments 2 "Planes fly high.") = "Planes fly high." +++ " ".
Proof.
  apply sentence_fragments_roundtrip; [|vm_compute; discriminate].
  vm_compute. repeat constructor.
Defined.

Lemma stream_sentence_tokens_open_witness :
  stream_sentence_tokens controller_init 1 "Hi there"
  = Some (mkController (queue controller_init ++ sentence_fragments 1 "Hi there") false false).
Proof. apply stream_sentence_tokens_open; reflexivity. Defined.

(** ** The controller operations *)

Lemma push_fragment_flags c p c' :
  push_fragment c p = Some c' ->
  closed c' = closed c /\ errored c' = errored c
  /\ (queue c' = queue c \/ queue c' = (queue c ++ [p])%list).
Proof.
  unfold push_fragment, desired_size_null, enqueue.
  destruct (errored c) eqn:E; [intros H; inversion H; subst; auto|].
  destruct (closed c); cbn; intros H; inversion H; subst; cbn; auto.
Qed.

(** On a stream that has not errored, a guarded push that succeeds
    appends its part. *)
Lemma push_fragment_enqueues c p c' :
  errored c = false -> push_fragment c p = Some c' -> queue c' = (queue c ++ [p])%list.
Proof.
  unfold push_fragment, desired_size_null, enqueue. intros -> H.
  destruct (closed c); cbn in H; inversion H; reflexivity.
Qed.

(** A property of every queued part survives a guarded push of a part
    that has it. *)
Lemma push_fragment_Forall (P : stream_part -> Prop) c p c' :
  Forall P (queue c) -> P p -> push_fragment c p = Some c' -> Forall P (queue c').
Proof.
  intros Hq Hp (_ & _ & [-> | ->])%push_fragment_flags; auto.
  apply Forall_app; auto.
Qed.

(** The words [words_of] keeps are not empty, nor are the deltas made
    of them. *)
Lemma words_of_nonempty (s : string) : Forall (fun w => w <> "") (words_of s).
Proof.
  apply Forall_forall. intros w (_ & H)%filter_In ->. discriminate H.
Qed.

Lemma word_deltas_nonempty (ws : list string) :
  Forall (fun w => w <> "") ws -> Forall (fun w => w <> "") (word_deltas ws).
Proof.
  induction 1 as [|w ws Hw _ IH]; [constructor|]. rewrite word_deltas_cons.
  constructor; [|exact IH]. destruct w; [contradiction | discriminate].
Qed.

Lemma enqueue_flags c p c' :
  enqueue c p = Some c' ->
  closed c' = false /\ errored c' = false /\ queue c' = (queue c ++ [p])%list.
Proof.
  unfold enqueue. destruct (closed c), (errored c); cbn; intros H; inversion H; subst; auto.
Qed.

Lemma close_flags c c' :
  close c = Some c' -> closed c' = true /\ errored c' = errored c /\ queue c' = queue c.
Proof.
  unfold close. destruct (closed c), (errored c); cbn; intros H; inversion H; subst; auto.
Qed.

End Pacing.
