(* ===== verification/SimpleTransform.v ===== *)
(** * The simple transform middleware

    [src/packages/ai/src/middleware/simple-transform-middleware.ts]:
    [wrapStream] calls [doStream] and returns a new stream whose [start]
    launches [pump] (lines 25-45), which reads every part of the
    upstream stream and enqueues it unchanged, closes the new stream when
    the upstream is done and errors it when a read rejects.  The
    upstream is its list of parts and whether it errors after them, as in
    [Fusion]; the new stream is a [Pacing.controller]. *)

From Stdlib Require Import Ascii String List Bool.
From S2P Require Import Prelude Pacing.
Import ListNotations.

Local Open Scope list_scope.

Module SimpleTransform.

(** Lines 27-44: the [while (true)] loop of [pump] and its [catch].  A
    throwing [enqueue] or [close] ([None]) also ends in
    [controller.error]. *)
Fixpoint pump (c : Pacing.controller) (parts : list stream_part) (fails : bool)
  : Pacing.controller :=
  match parts with
  | [] =>
      if fails then Pacing.error c
      else match Pacing.close c with
           | Some c' => c'
           | None => Pacing.error c
           end
  | p :: ps =>
      match Pacing.enqueue c p with
      | Some c' => pump c' ps fails
      | None => Pacing.error c
      end
  end.

(** Lines 18-49: the stream [wrapStream] returns, from a fresh
    controller. *)
Definition transformed_stream (parts : list stream_part) (fails : bool) : Pacing.controller :=
  pump Pacing.controller_init parts fails.

Lemma pump_open c parts fails :
  Pacing.closed c = false -> Pacing.errored c = false ->
  pump c parts fails = Pacing.mkController (Pacing.queue c ++ parts) (negb fails) fails.
Proof.
  revert c; induction parts as [|p ps IH]; intros [q cl er] Hc He; cbn in Hc, He; subst.
  - destruct fails; cbn; now rewrite app_nil_r.
  - cbn [pump Pacing.enqueue Pacing.closed Pacing.errored orb].
    rewrite IH by reflexivity. cbn. now rewrite <- app_assoc.
Qed.

(** C22: The simple transform passes the upstream stream through: the
    new stream holds every upstream part, in order and unchanged, and
    is closed when the upstream ends normally and errored when it
    fails. *)
Theorem transformed_stream_passthrough parts fails :
  transformed_stream parts fails = Pacing.mkController parts (negb fails) fails.
Proof. unfold transformed_stream. now rewrite pump_open. Qed.

End SimpleTransform.
