(* ===== verification/Middleware.v ===== *)
(** * The middleware: [extractUserInput] and [transformParams]

    [stream-natural-text-middleware.ts] (lines 42-126) installs the
    processor: [transformParams] puts a fixed system prompt in front of
    the conversation (lines 63-94) and [wrapStream] hands the upstream
    stream and the transformed parameters to [processStream].  The
    processor then takes the user's text from the last user message
    ([extractUserInput], [natural-response-processor.ts] lines 121-139).
    Messages are the [LanguageModelV2Prompt] of the AI SDK, kept as their
    roles and their text parts. *)

From Stdlib Require Import Ascii String List Lia Arith Bool.
From S2P Require Import Prelude.
Import ListNotations.

Local Open Scope string_scope.
Local Open Scope js_scope.

Module Middleware.

(** A part of a message's [content] array: the code keeps the parts
    whose [type] is ['text']. *)
Inductive content_part :=
| TextPart (text : string)
| NonTextPart (type_ : string).

(** [LanguageModelV2Message]: a system message carries a string, the
    others an array of parts. *)
Inductive message :=
| SystemMessage (content : string)
| UserMessage (content : list content_part)
| AssistantMessage (content : list content_part)
| ToolMessage (content : list content_part).

Definition is_user (m : message) : bool :=
  match m with UserMessage _ => true | _ => false end.

Definition is_system (m : message) : bool :=
  match m with SystemMessage _ => true | _ => false end.

(** [.filter(part => part.type === 'text').map(part => part.text)]. *)
Fixpoint text_parts (ps : list content_part) : list string :=
  match ps with
  | [] => []
  | TextPart t :: ps' => t :: text_parts ps'
  | NonTextPart _ :: ps' => text_parts ps'
  end.

(** Lines 121-139 of the processor. *)
Definition extract_user_input (prompt : list message) : string :=
  match find is_user (rev prompt) with
  | Some (UserMessage content) => Js.join " " (text_parts content)
  | _ => "User question"
  end.

(** Lines 48-58 of the middleware. *)
Definition STRUCTURED_THOUGHT_SYSTEM_PROMPT : string :=
"You are a helpful AI assistant that MUST structure your responses using special markers.

CRITICAL: You MUST wrap every complete thought in [bt] and [et] markers. You MUST use <|sil|> tokens between thoughts for natural pauses.

REQUIRED FORMAT:
[bt]Your first complete thought about the topic[et] <|sil|> [bt]Your second complete thought with more details[et] <|sil|> [bt]Your final thought or conclusion[et]

EXAMPLE:
[bt]Machine learning is a subset of artificial intelligence that enables computers to learn patterns from data[et] <|sil|> [bt]It works by training algorithms on large datasets to recognize and predict outcomes without explicit programming[et] <|sil|> [bt]Popular applications include image recognition, natural language processing, and recommendation systems[et]

IMPORTANT: Every response must contain multiple [bt]...[et] sections with <|sil|> pauses between them. Do not provide responses without these markers.".

Definition blank_line : string :=
  String (ascii_of_nat 10) (String (ascii_of_nat 10) EmptyString).

(** [Array.prototype.findIndex]. *)
Fixpoint find_index {A} (f : A -> bool) (l : list A) : option nat :=
  match l with
  | [] => None
  | x :: l' => if f x then Some 0 else option_map S (find_index f l')
  end.

(** [a[i] = x] for an index inside the array. *)
Fixpoint set_at {A} (l : list A) (i : nat) (x : A) : list A :=
  match l, i with
  | [], _ => []
  | _ :: l', 0 => x :: l'
  | y :: l', S i' => y :: set_at l' i' x
  end.

(** Lines 69-85 of the middleware. *)
Definition transform_prompt (prompt : list message) : list message :=
  match find_index is_system prompt with
  | Some systemMessageIndex =>
      match nth_error prompt systemMessageIndex with
      | Some (SystemMessage content) =>
          set_at prompt systemMessageIndex
            (SystemMessage (STRUCTURED_THOUGHT_SYSTEM_PROMPT +++ blank_line +++ content))
      | _ => prompt
      end
  | None => SystemMessage STRUCTURED_THOUGHT_SYSTEM_PROMPT :: prompt
  end.

(** ** The user's text only depends on the user messages *)

Lemma find_filter {A} (f : A -> bool) (l : list A) : find f (filter f l) = find f l.
Proof. induction l as [|x l IH]; simpl; auto. destruct (f x) eqn:E; simpl; rewrite ?E; auto. Qed.

Lemma extract_user_input_filter (prompt : list message) :
  extract_user_input prompt = extract_user_input (filter is_user prompt).
Proof. unfold extract_user_input. now rewrite <- filter_rev, find_filter. Qed.

Lemma filter_set_at (l : list message) i x :
  is_user x = false -> (forall y, nth_error l i = Some y -> is_user y = false) ->
  filter is_user (set_at l i x) = filter is_user l.
Proof.
  revert i; induction l as [|y l IH]; intros [|i] Hx Hy; cbn [set_at filter]; auto.
  - rewrite Hx, (Hy y eq_refl). reflexivity.
  - rewrite IH; auto.
Qed.

Lemma extract_user_input_transform (prompt : list message) :
  extract_user_input (transform_prompt prompt) = extract_user_input prompt.
Proof.
  rewrite (extract_user_input_filter (transform_prompt prompt)), (extract_user_input_filter prompt).
  f_equal. unfold transform_prompt.
  destruct (find_index is_system prompt) as [i|]; [|reflexivity].
  destruct (nth_error prompt i) as [[c| | |]|] eqn:E; auto.
  apply filter_set_at; [reflexivity|]. intros y Hy. rewrite E in Hy. now inversion Hy.
Qed.

Lemma find_index_spec {A} (f : A -> bool) (l : list A) i :
  find_index f l = Some i -> exists x, nth_error l i = Some x /\ f x = true.
Proof.
  revert i; induction l as [|x l IH]; intros i H; simpl in H; [discriminate|].
  destruct (f x) eqn:E; [inversion H; subst; exists x; auto|].
  destruct (find_index f l) as [j|] eqn:F; inversion H; subst. simpl. now apply IH.
Qed.

Lemma nth_error_set_at {A} (l : list A) i x y :
  nth_error l i = Some y -> nth_error (set_at l i x) i = Some x.
Proof.
  revert i; induction l as [|z l IH]; intros [|i] H; simpl in *; try discriminate; auto.
Qed.

(** After [transformParams] some message of the prompt is a system
    message whose content starts with the structured-thought
    instructions. *)
Theorem transform_prompt_system (prompt : list message) :
  exists i c, nth_error (transform_prompt prompt) i = Some (SystemMessage c)
         /\ prefix STRUCTURED_THOUGHT_SYSTEM_PROMPT c = true.
Proof.
  unfold transform_prompt.
  destruct (find_index is_system prompt) as [i|] eqn:F.
  - destruct (find_index_spec _ _ _ F) as ([c| | |] & Hn & Hs); try discriminate.
    rewrite Hn. exists i, (STRUCTURED_THOUGHT_SYSTEM_PROMPT +++ blank_line +++ c).
    split; [eapply nth_error_set_at; eauto | apply prefix_app_self].
  - exists 0, STRUCTURED_THOUGHT_SYSTEM_PROMPT. split; [reflexivity|].
    rewrite <- (str_app_nil_r STRUCTURED_THOUGHT_SYSTEM_PROMPT) at 2. apply prefix_app_self.
Qed.

End Middleware.
