(* ===== verification/Fusion.v ===== *)
(** * The fusion controller: one turn as a transition system

    [natural-response-processor.ts], [processStream] (lines 52-81),
    [emitImmediateResponse] (87-115), [startConcurrentProcessing]
    (146-165), [runSmolLMGeneration] (171-218), [consumeGPT4Thoughts]
    (224-280), [shouldStopGeneration] (415-419), [sendMetrics] (436-454)
    and [reset] (460-468).

    The code runs on one JavaScript event loop.  A task runs without
    interruption between two [await]s, so a state of the model is the
    processor's fields, the outward stream, the two tasks' program
    counters and the rest of the upstream stream, and each rule of
    [step] is one segment of code between two suspension points: the
    reasoning consumer reading one part, the generation loop resuming
    after a timer, after a call to the delivery endpoint, or after the
    pause between two words.  Which task runs next is left open, so
    [step] is nondeterministic; so is the outcome of every call to the
    endpoint, restricted by the parameter [allowed].  When the
    extraction loop spins ([CSpinning]) it never yields, so no other
    segment can run. *)

From Stdlib Require Import Ascii String List Lia Arith Bool.
From S2P Require Import Prelude ThoughtExtractor Delivery Pacing Middleware.
Import ListNotations.

Local Open Scope string_scope.
Local Open Scope js_scope.
Local Open Scope list_scope.

Module Fusion.

(** The fields of [NaturalResponseProcessor] that [processStream]
    uses (lines 20-25); times are milliseconds of [Date.now()]. *)
Record processor := mkProcessor {
  thoughts : list string;
  responses : list string;
  currentUserInput : string;
  startTime : nat;
  firstResponseTime : nat;
  thoughtsProcessedCount : nat }.

(** [ProcessingMetrics & { thoughts, fullText }] of [types.ts]. *)
Record metrics := mkMetrics {
  thoughtsExtracted : nat;
  thoughtsProcessed : nat;
  responsesGenerated : nat;
  processingTimeMs : nat;
  firstResponseTimeMs : nat;
  metrics_thoughts : list string;
  fullText : string }.

(** The locals of [runSmolLMGeneration] (lines 175-177). *)
Record loop_vars := mkLoopVars { textId : nat; lastThoughtCount : nat; waitCount : nat }.

(** Where [start] (lines 58-79) is suspended. *)
Inductive stage :=
| PStart
    (** [start] not run yet *)
| PImmediate (prompt : string)
    (** awaiting the immediate call (line 92) *)
| PImmStream (words : list string)
    (** streaming the immediate answer: word deltas still to push *)
| PAwaitRPC (v : loop_vars) (prompt : string)
    (** awaiting [generateResponseForLatestThought] (line 191) *)
| PStream (v : loop_vars) (id : nat) (response : string) (words : list string)
    (** streaming a loop answer under [textId = id] (line 196) *)
| PAwaitDelay (v : loop_vars)
    (** awaiting [this.delay(100)] (line 207) *)
| PLoopDone
    (** [runSmolLMGeneration] has returned (line 158) *)
| PClosed
    (** [controller.close()] done (line 164) *)
| PDone.
    (** [sendMetrics] done (line 72): [start] has resolved *)

(** The task [consumeGPT4Thoughts]. *)
Inductive consumer :=
| CIdle                               (** not started (before line 153) *)
| CReading (r : Extractor.reader)     (** suspended on [reader.read()] *)
| CSpinning (buffer : string)         (** in the extraction loop forever *)
| CDone                               (** the stream ended *)
| CFailed.                            (** [read()] rejected; logged at 153-155 *)

Record turn := mkTurn {
  cfg : Delivery.config;
  proc : processor;
  phase : stage;
  cons : consumer;
  upstream : list stream_part;
    (** parts the reasoning model has still to deliver *)
  upstream_fails : bool;
    (** whether the upstream stream errors after them *)
  out : Pacing.controller;
  metrics_log : list metrics;
    (** the calls of [onMetricsUpdate], in order *)
  requests : list (string * Delivery.request_body);
    (** the requests sent to the endpoint, in order *)
  clock : nat }.

(** ** Field updates *)

Definition set_proc (t : turn) (p : processor) : turn :=
  mkTurn (cfg t) p (phase t) (cons t) (upstream t) (upstream_fails t) (out t)
         (metrics_log t) (requests t) (clock t).
Definition set_phase (t : turn) (ph : stage) : turn :=
  mkTurn (cfg t) (proc t) ph (cons t) (upstream t) (upstream_fails t) (out t)
         (metrics_log t) (requests t) (clock t).
Definition set_out (t : turn) (c : Pacing.controller) : turn :=
  mkTurn (cfg t) (proc t) (phase t) (cons t) (upstream t) (upstream_fails t) c
         (metrics_log t) (requests t) (clock t).
Definition tick (t : turn) (ms : nat) : turn :=
  mkTurn (cfg t) (proc t) (phase t) (cons t) (upstream t) (upstream_fails t) (out t)
         (metrics_log t) (requests t) (clock t + ms).
Definition log_request (t : turn) (prompt : string) : turn :=
  mkTurn (cfg t) (proc t) (phase t) (cons t) (upstream t) (upstream_fails t) (out t)
         (metrics_log t)
         (requests t ++ [(Delivery.tgi_url (Delivery.huggingfaceEndpointUrl (cfg t)),
                          Delivery.make_request_body (cfg t) prompt)])
         (clock t).
Definition set_consumer (t : turn) (c : consumer) (ts : list string) (ups : list stream_part)
  : turn :=
  let p := proc t in
  mkTurn (cfg t)
         (mkProcessor ts (responses p) (currentUserInput p) (startTime p)
                      (firstResponseTime p) (thoughtsProcessedCount p))
         (phase t) c ups (upstream_fails t) (out t) (metrics_log t) (requests t) (clock t).

(** ** The synchronous segments of the code *)

(** [reset] (lines 460-468). *)
Definition reset (p : processor) : processor := mkProcessor [] [] "" 0 0 0.

(** Lines 61-63 and 89-92: reset, read the user's text, record the
    start time and send the immediate request. *)
Definition start_turn (t : turn) (prompt : list Middleware.message) : turn :=
  let p := reset (proc t) in
  let input := Middleware.extract_user_input prompt in
  let p := mkProcessor (thoughts p) (responses p) input (clock t) (firstResponseTime p)
                       (thoughtsProcessedCount p) in
  let t := set_proc (set_phase t (PImmediate (Delivery.immediate_prompt input))) p in
  log_request t (Delivery.immediate_prompt input).

(** Lines 96-98 and 106-108: [if (this.firstResponseTime === 0)]. *)
Definition record_first_response (t : turn) : turn :=
  let p := proc t in
  if Nat.eqb (firstResponseTime p) 0 then
    set_proc t (mkProcessor (thoughts p) (responses p) (currentUserInput p) (startTime p)
                            (clock t - startTime p) (thoughtsProcessedCount p))
  else t.

(** [shouldStopGeneration] (lines 415-419). *)
Definition should_stop_generation (p : processor) : bool :=
  Nat.ltb 500 (String.length (Js.join " " (responses p))).

(** Line 211. *)
Definition should_stop (p : processor) : bool :=
  Nat.leb 5 (length (responses p))
  || should_stop_generation p.

(** Lines 182-208: the [while] test and the body up to its [await]. *)
Definition loop_top (t : turn) (v : loop_vars) : turn :=
  let p := proc t in
  if Nat.ltb (waitCount v) 100 then
    if Nat.ltb (lastThoughtCount v) (length (thoughts p)) then
      let prompt := Delivery.build_prompt (currentUserInput p) (thoughts p) (responses p) in
      let p' := mkProcessor (thoughts p) (responses p) (currentUserInput p) (startTime p)
                            (firstResponseTime p) (S (thoughtsProcessedCount p)) in
      log_request (set_phase (set_proc t p') (PAwaitRPC v prompt)) prompt
    else set_phase t (PAwaitDelay (mkLoopVars (textId v) (lastThoughtCount v) (S (waitCount v))))
  else set_phase t PLoopDone.

(** Lines 211-214, then back to the top of the loop. *)
Definition loop_end (t : turn) (v : loop_vars) : turn :=
  if should_stop (proc t) then set_phase t PLoopDone else loop_top t v.

(** Lines 152-158: the consumer starts, then the loop runs up to its
    first [await]. *)
Definition start_concurrent (t : turn) : turn :=
  let t := mkTurn (cfg t) (proc t) (phase t) (CReading Extractor.reader_init) (upstream t)
                  (upstream_fails t) (out t) (metrics_log t) (requests t) (clock t) in
  loop_top t (mkLoopVars 1 0 0).

(** Lines 199-201 after the answer is streamed, then lines 211-214. *)
Definition finish_response (t : turn) (v : loop_vars) (response : string) : turn :=
  let p := proc t in
  let p' := mkProcessor (thoughts p) (responses p ++ [response]) (currentUserInput p)
                        (startTime p) (firstResponseTime p) (thoughtsProcessedCount p) in
  loop_end (set_proc t p') (mkLoopVars (textId v) (length (thoughts p)) 0).

(** [sendMetrics] (lines 436-454).  Line 445 passes the live
    [this.thoughts] array; the report holds its value at the call, so a
    callback that keeps the array and reads it later, after the consumer
    has pushed more thoughts, is not modelled (the route's callback logs
    it at once). *)
Definition metrics_of (p : processor) (now : nat) : metrics :=
  mkMetrics (length (thoughts p)) (thoughtsProcessedCount p) (length (responses p))
            (now - startTime p) (firstResponseTime p) (thoughts p)
            (Js.join " " (responses p)).

Definition send_metrics (t : turn) : turn :=
  mkTurn (cfg t) (proc t) (phase t) (cons t) (upstream t) (upstream_fails t) (out t)
         (if Delivery.onMetricsUpdate (cfg t)
          then metrics_log t ++ [metrics_of (proc t) (clock t)] else metrics_log t)
         (requests t) (clock t).

(** The event loop is free unless the extraction loop spins. *)
Definition runnable (t : turn) : bool :=
  match cons t with CSpinning _ => false | _ => true end.

(** Line 112. *)
Definition fallback_text : string := "Let me think about that... ".

(** The text the immediate answer streams, blank answers included. *)
Definition usable (s : string) : bool := Js.truthy s && Js.truthy (Js.trim s).

Section Step.

(** The outcomes the delivery endpoint may produce. *)
Variable allowed : Delivery.fetch_outcome -> Prop.

(** The user's conversation ([params.prompt]). *)
Variable prompt : list Middleware.message.

Inductive step : turn -> turn -> Prop :=
(** [start] runs up to the immediate call. *)
| step_start t :
    phase t = PStart ->
    step t (start_turn t prompt)
(** The immediate call answers (lines 92-114). *)
| step_immediate_ok t pr o d resp :
    phase t = PImmediate pr -> allowed o ->
    Delivery.call_smollm o = Delivery.CallOk resp -> usable resp = true ->
    step t (set_phase (record_first_response (tick t d))
                      (PImmStream (Pacing.word_deltas (Pacing.words_of resp))))
| step_immediate_blank t pr o d resp :
    phase t = PImmediate pr -> allowed o ->
    Delivery.call_smollm o = Delivery.CallOk resp -> usable resp = false ->
    step t (start_concurrent (tick t d))
| step_immediate_error t pr o d c :
    phase t = PImmediate pr -> allowed o ->
    Delivery.call_smollm o = Delivery.CallError ->
    Pacing.enqueue (out t) (TextDelta "1" fallback_text) = Some c ->
    step t (start_concurrent (set_out (record_first_response (tick t d)) c))
(** The immediate answer, one word per 30 ms (textId 1). *)
| step_imm_word t w ws c :
    phase t = PImmStream (w :: ws) ->
    Pacing.push_fragment (out t) (TextDelta (Js.of_nat 1) w) = Some c ->
    step t (tick (set_phase (set_out t c) (PImmStream ws)) 30)
| step_imm_last t c :
    phase t = PImmStream [] ->
    Pacing.push_fragment (out t) (TextDelta (Js.of_nat 1001) " ") = Some c ->
    step t (start_concurrent (set_out t c))
(** The consumer reads one part (lines 235-271). *)
| step_read t r p ps r' ts' :
    cons t = CReading r -> upstream t = p :: ps ->
    Extractor.on_part r (thoughts (proc t)) p = Some (r', ts') ->
    step t (set_consumer t (CReading r') ts' ps)
| step_read_spin t r i d ps b ts' :
    cons t = CReading r -> upstream t = TextDelta i d :: ps ->
    Extractor.scan (Extractor.buffer r +++ d) (thoughts (proc t)) = Extractor.Stalled b ts' ->
    step t (set_consumer t (CSpinning b) ts' ps)
| step_read_done t r :
    cons t = CReading r -> upstream t = [] -> upstream_fails t = false ->
    step t (set_consumer t CDone (thoughts (proc t)) [])
| step_read_error t r :
    cons t = CReading r -> upstream t = [] -> upstream_fails t = true ->
    step t (set_consumer t CFailed (thoughts (proc t)) [])
| step_spin t b :
    cons t = CSpinning b ->
    step t t
(** The generation loop resumes after [delay(100)]. *)
| step_delay t v :
    runnable t = true -> phase t = PAwaitDelay v ->
    step t (loop_end (tick t 100) v)
(** The generation loop resumes after the delivery call. *)
| step_rpc t v pr o d :
    runnable t = true -> phase t = PAwaitRPC v pr -> allowed o ->
    step t (let response := Delivery.generate_response o in
            if usable response
            then set_phase (tick t d)
                   (PStream (mkLoopVars (S (textId v)) (lastThoughtCount v) (waitCount v))
                            (textId v) response
                            (Pacing.word_deltas (Pacing.words_of response)))
            else loop_end (tick t d) v)
(** A loop answer, one word per 30 ms. *)
| step_word t v id r w ws c :
    runnable t = true -> phase t = PStream v id r (w :: ws) ->
    Pacing.push_fragment (out t) (TextDelta (Js.of_nat id) w) = Some c ->
    step t (tick (set_phase (set_out t c) (PStream v id r ws)) 30)
| step_last t v id r c :
    runnable t = true -> phase t = PStream v id r [] ->
    Pacing.push_fragment (out t) (TextDelta (Js.of_nat (id + 1000)) " ") = Some c ->
    step t (finish_response (set_out t c) v r)
(** [startConcurrentProcessing] closes the stream (line 164). *)
| step_close t c :
    runnable t = true -> phase t = PLoopDone -> Pacing.close (out t) = Some c ->
    step t (set_phase (set_out t c) PClosed)
(** [start] sends the final metrics (line 72). *)
| step_metrics t :
    runnable t = true -> phase t = PClosed ->
    step t (set_phase (send_metrics t) PDone).

End Step.

(** The constructor's metrics call (lines 33-43 of the processor). *)
Definition constructor_metrics (timestamp : string) : metrics :=
  mkMetrics 0 0 0 0 0 ["CONSTRUCTOR_CALLED"] ("Constructor called at " +++ timestamp).

(** [wrapStream]: a new processor, the upstream stream, an open outward
    stream. *)
Definition turn_init (c : Delivery.config) (ups : list stream_part) (fails : bool)
           (now : nat) (timestamp : string) : turn :=
  mkTurn c (mkProcessor [] [] "" 0 0 0) PStart CIdle ups fails Pacing.controller_init
         (if Delivery.onMetricsUpdate c then [constructor_metrics timestamp] else [])
         [] now.

(** Reflexive-transitive closure and infinite executions (as in the
    [Sequences] library of Leroy's course). *)
Inductive star {A} (R : A -> A -> Prop) : A -> A -> Prop :=
| star_refl a : star R a a
| star_step a b c : R a b -> star R b c -> star R a c.

Definition infseq {A} (R : A -> A -> Prop) (a : A) : Prop :=
  exists X : A -> Prop, X a /\ (forall a1, X a1 -> exists a2, R a1 a2 /\ X a2).

Definition reachable (allowed : Delivery.fetch_outcome -> Prop) prompt c ups fails now ts
  (t : turn) : Prop :=
  star (step allowed prompt) (turn_init c ups fails now ts) t.

(** ** The invariant of a turn *)

(** What holds while the generation loop is between two iterations. *)
Definition loop_inv (p : processor) (v : loop_vars) : Prop :=
  length (responses p) <= lastThoughtCount v <= length (thoughts p)
  /\ should_stop p = false.

Definition inv (t : turn) : Prop :=
  let p := proc t in
  Pacing.errored (out t) = false
  /\ length (responses p) <= length (thoughts p)
  /\ length (responses p) <= thoughtsProcessedCount p
  /\ length (responses p) <= 5
  /\ match phase t with
     | PStart | PImmediate _ | PImmStream _ =>
         cons t = CIdle /\ thoughts p = [] /\ responses p = [] /\ Pacing.closed (out t) = false
     | PAwaitDelay v =>
         cons t <> CIdle /\ loop_inv p v /\ Pacing.closed (out t) = false
     | PAwaitRPC v _ | PStream v _ _ _ =>
         cons t <> CIdle /\ loop_inv p v /\ lastThoughtCount v < length (thoughts p)
         /\ S (length (responses p)) <= thoughtsProcessedCount p
         /\ Pacing.closed (out t) = false
     | PLoopDone => cons t <> CIdle /\ Pacing.closed (out t) = false
     | PClosed | PDone => cons t <> CIdle /\ Pacing.closed (out t) = true
     end.

(** Phases before the generation loop starts. *)
Definition is_pre (ph : stage) : bool :=
  match ph with PStart | PImmediate _ | PImmStream _ => true | _ => false end.

(** ** The endpoint is down *)

(** Every call fails or answers nothing: [generateResponseForLatestThought]
    returns the empty string. *)
Definition endpoint_down (o : Delivery.fetch_outcome) : Prop :=
  Delivery.generate_response o = "".

(** The loop is waiting for the endpoint about a thought it has not
    answered, and has not decided to stop. *)
Definition waiting_on_thought (t : turn) : Prop :=
  exists v pr, phase t = PAwaitRPC v pr
    /\ lastThoughtCount v < length (thoughts (proc t)) /\ waitCount v < 100
    /\ should_stop (proc t) = false /\ Pacing.closed (out t) = false.

(** ** A concrete turn *)

Definition demo_config : Delivery.config :=
  Delivery.mkConfig "https://tgi.example" "hf_key" None (Some Delivery.Passthrough) true.

Definition demo_prompt : list Middleware.message :=
  [Middleware.UserMessage [Middleware.TextPart "What is machine learning?"]].

Definition demo_upstream : list stream_part := [TextDelta "0" "[bt]ML is AI[et]"].

(** An answer longer than the 500-character budget. *)
Definition demo_long_answer : string := String.concat "" (repeat "ab" 260).

Definition any_outcome (o : Delivery.fetch_outcome) : Prop := True.

Ltac turn_simpl :=
  unfold set_proc, set_phase, set_out, tick, log_request, set_consumer in *;
  cbn [phase proc out cons thoughts responses thoughtsProcessedCount currentUserInput
       startTime firstResponseTime upstream upstream_fails metrics_log requests clock cfg
       lastThoughtCount waitCount textId length] in *.

Lemma should_stop_false p : should_stop p = false -> length (responses p) < 5.
Proof. unfold should_stop. intros [H _]%orb_false_iff. apply Nat.leb_gt in H. exact H. Qed.

Lemma inv_loop_top t v :
  Pacing.errored (out t) = false -> Pacing.closed (out t) = false -> cons t <> CIdle ->
  loop_inv (proc t) v -> length (responses (proc t)) <= thoughtsProcessedCount (proc t) ->
  inv (loop_top t v).
Proof.
  intros He Hc Hcons [L Hs] Hp. pose proof (should_stop_false _ Hs).
  unfold loop_top. js_case_eqb; unfold inv, loop_inv, should_stop in *; turn_simpl;
    repeat split; auto; lia.
Qed.

Lemma inv_loop_end t v :
  Pacing.errored (out t) = false -> Pacing.closed (out t) = false -> cons t <> CIdle ->
  length (responses (proc t)) <= lastThoughtCount v <= length (thoughts (proc t)) ->
  length (responses (proc t)) <= thoughtsProcessedCount (proc t) ->
  length (responses (proc t)) <= 5 ->
  inv (loop_end t v).
Proof.
  intros He Hc Hcons L Hp H5. unfold loop_end.
  destruct (should_stop (proc t)) eqn:Hs.
  - unfold inv; turn_simpl. repeat split; auto; lia.
  - apply inv_loop_top; auto. split; auto.
Qed.

Lemma inv_start_concurrent t :
  Pacing.errored (out t) = false -> Pacing.closed (out t) = false ->
  responses (proc t) = [] -> inv (start_concurrent t).
Proof.
  intros He Hc Hr. unfold start_concurrent. apply inv_loop_top; cbn; auto; try discriminate.
  - unfold loop_inv, should_stop, should_stop_generation. rewrite Hr. cbn. split; [lia | reflexivity].
  - rewrite Hr. cbn. lia.
Qed.

Lemma inv_set_consumer t c ts' ps :
  inv t -> cons t <> CIdle -> c <> CIdle ->
  (exists fresh, ts' = thoughts (proc t) ++ fresh) ->
  inv (set_consumer t c ts' ps).
Proof.
  intros (He & L1 & L2 & L3 & Hph) Hc Hc' (fresh & ->).
  unfold inv, loop_inv, should_stop in *; turn_simpl. rewrite length_app.
  destruct (phase t); try (destruct Hph as [? _]; contradiction);
    repeat split; intuition lia.
Qed.

Lemma record_first_response_proc t :
  let t' := record_first_response t in
  thoughts (proc t') = thoughts (proc t) /\ responses (proc t') = responses (proc t)
  /\ thoughtsProcessedCount (proc t') = thoughtsProcessedCount (proc t)
  /\ phase t' = phase t /\ out t' = out t /\ cons t' = cons t.
Proof. unfold record_first_response. cbv zeta. destruct (Nat.eqb _ 0); turn_simpl; repeat split. Qed.

Lemma inv_tick t d : inv t -> inv (tick t d).
Proof. unfold inv; turn_simpl. auto. Qed.

Lemma inv_record_first_response t : inv t -> inv (record_first_response t).
Proof.
  unfold record_first_response. destruct (Nat.eqb _ 0); [|auto].
  unfold inv; turn_simpl. auto.
Qed.

Lemma inv_pre_set_phase t ph :
  inv t -> is_pre (phase t) = true -> is_pre ph = true -> inv (set_phase t ph).
Proof.
  intros (He & L & Hph) H1 H2. unfold inv; turn_simpl. split; auto.
  destruct (phase t), ph; try discriminate; intuition.
Qed.

(** Pushing a fragment keeps the invariant in every phase before the
    stream is closed. *)
Lemma inv_push t f c :
  inv t -> Pacing.push_fragment (out t) f = Some c -> inv (set_out t c).
Proof.
  intros (He & L & Hph) Hp. apply Pacing.push_fragment_flags in Hp as (Hc & He' & _).
  unfold inv; turn_simpl. rewrite Hc, He'. auto.
Qed.

Lemma inv_stream_words t v id r ws0 ws :
  inv t -> phase t = PStream v id r ws0 -> inv (set_phase t (PStream v id r ws)).
Proof. intros (He & L & Hph) E. rewrite E in Hph. unfold inv; turn_simpl. auto. Qed.

Lemma inv_finish_response t v id r ws c :
  inv t -> phase t = PStream v id r ws ->
  Pacing.push_fragment (out t) (TextDelta (Js.of_nat (id + 1000)) " ") = Some c ->
  inv (finish_response (set_out t c) v r).
Proof.
  intros (He & L1 & L2 & L3 & Hph) E Hp. rewrite E in Hph.
  destruct Hph as (Hcons & [[La Lb] Hs] & Lc & Ld & Hcl).
  pose proof (should_stop_false _ Hs).
  apply Pacing.push_fragment_flags in Hp as (Hc & He' & _).
  unfold finish_response. apply inv_loop_end; turn_simpl; rewrite ?Hc, ?He', ?length_app;
    cbn [length]; auto; lia.
Qed.

Lemma inv_send_metrics t : inv t -> phase t = PClosed -> inv (set_phase (send_metrics t) PDone).
Proof.
  intros (He & L & Hph) E. rewrite E in Hph.
  unfold inv, send_metrics; turn_simpl. auto.
Qed.

Lemma inv_step allowed prompt t t' : inv t -> step allowed prompt t t' -> inv t'.
Proof.
  intros Hi Hs. pose proof Hi as (He & L1 & L2 & L3 & Hph).
  destruct Hs as [t E | t pr o d resp E _ _ _ | t pr o d resp E _ _ _ | t pr o d c E _ _ Hq
                 | t w ws c E Hq | t c E Hq | t r p ps r' ts' Ec _ Hp | t r i d ps b ts' Ec _ Hp
                 | t r Ec _ _ | t r Ec _ _ | t b _ | t v _ E | t v pr o d _ E _
                 | t v id r w ws c _ E Hq | t v id r c _ E Hq | t c _ E Hq | t _ E];
    try rewrite E in Hph.
  - unfold start_turn, reset, inv; turn_simpl. destruct Hph as (? & _ & _ & ?).
    repeat split; auto; lia.
  - apply inv_pre_set_phase; auto. apply inv_record_first_response, inv_tick; auto.
    pose proof (record_first_response_proc (tick t d)) as (_ & _ & _ & -> & _).
    turn_simpl. now rewrite E.
  - apply inv_start_concurrent; turn_simpl; intuition.
  - apply Pacing.enqueue_flags in Hq as (Hc & He' & _).
    pose proof (record_first_response_proc (tick t d)) as (_ & Hr' & _).
    apply inv_start_concurrent; turn_simpl; auto. rewrite Hr'. intuition.
  - apply inv_tick, inv_pre_set_phase; [eapply inv_push; eauto | turn_simpl | reflexivity].
    now rewrite E.
  - apply Pacing.push_fragment_flags in Hq as (Hc & He' & _).
    apply inv_start_concurrent; turn_simpl; rewrite ?Hc, ?He'; intuition.
  - apply inv_set_consumer; auto; [congruence | discriminate | eapply Extractor.on_part_extends; eauto].
  - apply inv_set_consumer; auto; [congruence | discriminate | eapply Extractor.scan_stalled_extends; eauto].
  - apply inv_set_consumer; auto; [congruence | discriminate | exists []; now rewrite app_nil_r].
  - apply inv_set_consumer; auto; [congruence | discriminate | exists []; now rewrite app_nil_r].
  - exact Hi.
  - destruct Hph as (? & [? ?] & ?). apply inv_loop_end; turn_simpl; auto; lia.
  - cbv zeta. destruct (usable (Delivery.generate_response o)).
    + unfold inv, loop_inv in *; turn_simpl. auto.
    + destruct Hph as (? & [? ?] & _ & _ & ?). apply inv_loop_end; turn_simpl; auto; lia.
  - apply inv_tick. apply (inv_stream_words (set_out t c) v id r (w :: ws)); [eapply inv_push; eauto|].
    now turn_simpl.
  - exact (inv_finish_response t v id r [] c Hi E Hq).
  - apply Pacing.close_flags in Hq as (Hc & He' & _).
    destruct Hph as (? & _). unfold inv; turn_simpl. rewrite Hc, He'. repeat split; auto.
  - apply inv_send_metrics; auto.
Qed.

(** The invariant holds in every state a turn reaches. *)
Lemma inv_reachable allowed prompt c ups fails now ts t :
  reachable allowed prompt c ups fails now ts t -> inv t.
Proof.
  unfold reachable. assert (H0 : inv (turn_init c ups fails now ts)).
  { unfold inv, turn_init; cbn. repeat split; auto; lia. }
  revert H0. generalize (turn_init c ups fails now ts). intros t0 H0 Hst.
  induction Hst; eauto using inv_step.
Qed.

(** C13: In every reachable state of a turn, the stored responses are at
    most as many as the extracted thoughts, at most five, and at
    most the number of generation attempts. *)
Theorem responses_bounded allowed prompt c ups fails now ts t :
  reachable allowed prompt c ups fails now ts t ->
  length (responses (proc t)) <= length (thoughts (proc t))
  /\ length (responses (proc t)) <= 5
  /\ length (responses (proc t)) <= thoughtsProcessedCount (proc t).
Proof. intros H. destruct (inv_reachable _ _ _ _ _ _ _ _ H) as (_ & ? & ? & ? & _). auto. Qed.

Lemma inv_closed t :
  inv t -> (Pacing.closed (out t) = true <-> (phase t = PClosed \/ phase t = PDone)).
Proof.
  intros (_ & _ & _ & _ & Hph).
  destruct (phase t); intuition (try discriminate; try congruence).
Qed.

(** C14: In every reachable state, the outward stream is closed exactly
    when the turn is past [controller.close()] (line 164). *)
Theorem closed_iff_final allowed prompt c ups fails now ts t :
  reachable allowed prompt c ups fails now ts t ->
  Pacing.closed (out t) = true <-> (phase t = PClosed \/ phase t = PDone).
Proof. intros H. exact (inv_closed t (inv_reachable _ _ _ _ _ _ _ _ H)). Qed.

(** C15: While the immediate response is pending or streaming, the
    reasoning consumer has not started and no thought exists: the
    first outward fragments come before any thought is used. *)
Theorem no_thought_before_immediate allowed prompt c ups fails now ts t :
  reachable allowed prompt c ups fails now ts t ->
  is_pre (phase t) = true -> cons t = CIdle /\ thoughts (proc t) = [].
Proof.
  intros H. destruct (inv_reachable _ _ _ _ _ _ _ _ H) as (_ & _ & _ & _ & Hph).
  destruct (phase t); try discriminate; intuition.
Qed.

(** ** The endpoint is down: the loop never stops *)

Lemma waiting_set_consumer t c ts' ps :
  waiting_on_thought t -> (exists fresh, ts' = thoughts (proc t) ++ fresh) ->
  waiting_on_thought (set_consumer t c ts' ps).
Proof.
  intros (v & pr & E & L & W & S & C) (fresh & ->). exists v, pr.
  unfold should_stop in *; turn_simpl. rewrite length_app. repeat split; auto; lia.
Qed.

Lemma waiting_step prompt t t' :
  waiting_on_thought t -> step endpoint_down prompt t t' -> waiting_on_thought t'.
Proof.
  intros Hw Hs. pose proof Hw as (v0 & pr0 & E0 & L0 & W0 & S0 & C0).
  destruct Hs as [t E | t pr o d resp E _ _ _ | t pr o d resp E _ _ _ | t pr o d c E _ _ Hq
                 | t w ws c E Hq | t c E Hq | t r p ps r' ts' Ec _ Hp | t r i d ps b ts' Ec _ Hp
                 | t r Ec _ _ | t r Ec _ _ | t b _ | t v _ E | t v pr o d _ E Ho
                 | t v id r w ws c _ E Hq | t v id r c _ E Hq | t c _ E Hq | t _ E];
    try (rewrite E in E0; discriminate).
  - apply waiting_set_consumer; eauto using Extractor.on_part_extends.
  - apply waiting_set_consumer; eauto using Extractor.scan_stalled_extends.
  - apply waiting_set_consumer; auto. exists []; now rewrite app_nil_r.
  - apply waiting_set_consumer; auto. exists []; now rewrite app_nil_r.
  - exact Hw.
  - rewrite E in E0. injection E0 as <- <-. cbv zeta. unfold endpoint_down in Ho. rewrite Ho.
    cbn [usable Js.truthy andb]. unfold loop_end, loop_top; turn_simpl. rewrite S0.
    destruct (Nat.ltb_spec (waitCount v) 100); [|lia].
    destruct (Nat.ltb_spec (lastThoughtCount v) (length (thoughts (proc t)))); [|lia].
    eexists v, _. unfold should_stop in *; turn_simpl. repeat split; auto.
Qed.

(** C1: When the delivery endpoint fails on every call, a turn whose
    generation loop is waiting on a thought it has not answered
    never closes its outward stream and never reaches the final
    metrics report, whatever the reasoning consumer does: a blank
    answer advances neither [lastThoughtCount] nor [waitCount]
    (lines 194-202), so the loop asks again about the same thought. *)
Theorem endpoint_down_never_closes prompt t t' :
  waiting_on_thought t -> star (step endpoint_down prompt) t t' ->
  Pacing.closed (out t') = false /\ phase t' <> PDone.
Proof.
  intros Hw Hst. induction Hst as [a | a b d Hs Hst IH].
  - destruct Hw as (v & pr & E & _ & _ & _ & C). rewrite E. split; [exact C | discriminate].
  - exact (IH (waiting_step _ _ _ Hw Hs)).
Qed.

(** C2: In that situation the turn has an infinite execution: the loop
    keeps calling the endpoint (or the event loop is blocked by the
    extractor), so the turn does not terminate. *)
Theorem endpoint_down_diverges prompt t :
  waiting_on_thought t -> infseq (step endpoint_down prompt) t.
Proof.
  intros Hw. exists waiting_on_thought. split; [exact Hw|].
  intros a Ha. pose proof Ha as (v & pr & E & _).
  destruct (runnable a) eqn:R.
  - exists (let response := Delivery.generate_response (Delivery.HttpNotOk 500) in
            if usable response
            then set_phase (tick a 0)
                   (PStream (mkLoopVars (S (textId v)) (lastThoughtCount v) (waitCount v))
                            (textId v) response
                            (Pacing.word_deltas (Pacing.words_of response)))
            else loop_end (tick a 0) v).
    assert (Hs : step endpoint_down prompt a
                   (let response := Delivery.generate_response (Delivery.HttpNotOk 500) in
                    if usable response
                    then set_phase (tick a 0)
                           (PStream (mkLoopVars (S (textId v)) (lastThoughtCount v) (waitCount v))
                                    (textId v) response
                                    (Pacing.word_deltas (Pacing.words_of response)))
                    else loop_end (tick a 0) v))
      by (eapply step_rpc; eauto; reflexivity).
    split; [exact Hs | eapply waiting_step; eauto].
  - unfold runnable in R. destruct (cons a) as [| |b| |] eqn:Ec; try discriminate.
    exists a. split; [eapply step_spin; eauto | exact Ha].
Qed.

(** ** Concrete turns *)

(** With the endpoint answering HTTP 500, the turn reaches a state
    where it waits on its first thought. *)
Lemma demo_reaches_waiting :
  exists t, reachable endpoint_down demo_prompt demo_config demo_upstream false 0 "T0" t
       /\ waiting_on_thought t.
Proof.
  eexists. split.
  - unfold reachable.
    eapply star_step; [apply step_start; reflexivity|].
    eapply star_step; [eapply (step_immediate_error _ _ _ _ (Delivery.HttpNotOk 500) 7);
                       reflexivity|].
    eapply star_step; [eapply step_read; reflexivity|].
    eapply star_step; [eapply step_delay; reflexivity|].
    apply star_refl.
  - eexists _, _. split; [reflexivity|]. vm_compute. repeat split; try reflexivity; lia.
Defined.

(** The immediate answer is empty, the thought arrives, the loop answers
    it with a long text, stops on the character budget and closes the
    stream. *)
Lemma demo_closes :
  exists t, reachable any_outcome demo_prompt demo_config demo_upstream false 0 "T0" t
       /\ phase t = PClosed.
Proof.
  eexists. split.
  - unfold reachable.
    eapply star_step; [apply step_start; reflexivity|].
    eapply star_step; [eapply (step_immediate_blank _ _ _ _ (Delivery.HttpOkJson None) 5);
                       reflexivity|].
    eapply star_step; [eapply step_read; reflexivity|].
    eapply star_step; [eapply step_delay; reflexivity|].
    eapply star_step;
      [eapply (step_rpc _ _ _ _ _ (Delivery.HttpOkJson (Some demo_long_answer)) 9);
       reflexivity|].
    cbv zeta. vm_compute (usable _).
    eapply star_step; [eapply step_word; reflexivity|].
    eapply star_step; [eapply step_last; reflexivity|].
    eapply star_step; [eapply step_close; reflexivity|].
    apply star_refl.
  - reflexivity.
Defined.

(** ** Witnesses *)

Lemma responses_bounded_witness :
  exists t, reachable any_outcome demo_prompt demo_config demo_upstream false 0 "T0" t
       /\ length (responses (proc t)) <= length (thoughts (proc t))
       /\ length (responses (proc t)) <= 5
       /\ length (responses (proc t)) <= thoughtsProcessedCount (proc t).
Proof.
  destruct demo_closes as (t & Hr & _). exists t. split; [exact Hr|].
  exact (responses_bounded _ _ _ _ _ _ _ _ Hr).
Defined.

Lemma closed_iff_final_witness :
  exists t, reachable any_outcome demo_prompt demo_config demo_upstream false 0 "T0" t
       /\ (Pacing.closed (out t) = true <-> (phase t = PClosed \/ phase t = PDone)).
Proof.
  destruct demo_closes as (t & Hr & _). exists t. split; [exact Hr|].
  exact (closed_iff_final _ _ _ _ _ _ _ _ Hr).
Defined.

Lemma no_thought_before_immediate_witness :
  is_pre (phase (turn_init demo_config demo_upstream false 0 "T0")) = true
  /\ cons (turn_init demo_config demo_upstream false 0 "T0") = CIdle
  /\ thoughts (proc (turn_init demo_config demo_upstream false 0 "T0")) = [].
Proof.
  split; [reflexivity|].
  exact (no_thought_before_immediate any_outcome demo_prompt _ _ _ _ _ _ (star_refl _ _)
           eq_refl).
Defined.

Lemma endpoint_down_never_closes_witness :
  exists t, waiting_on_thought t /\ Pacing.closed (out t) = false /\ phase t <> PDone.
Proof.
  destruct demo_reaches_waiting as (t & _ & Hw). exists t. split; [exact Hw|].
  exact (endpoint_down_never_closes demo_prompt t t Hw (star_refl _ _)).
Defined.

Lemma endpoint_down_diverges_witness :
  exists t, reachable endpoint_down demo_prompt demo_config demo_upstream false 0 "T0" t
       /\ infseq (step endpoint_down demo_prompt) t.
Proof.
  destruct demo_reaches_waiting as (t & Hr & Hw). exists t. split; [exact Hr|].
  exact (endpoint_down_diverges demo_prompt t Hw).
Defined.

End Fusion.
