(* ===== verification/Liveness.v ===== *)
(** * Termination and completion of a turn

    [Fusion] shows two ways a turn of [processStream] can run forever:
    the delivery endpoint answers blank or fails on every call
    ([endpoint_down_diverges]), or the upstream text makes the
    extraction loop of [consumeGPT4Thoughts] spin ([CSpinning]).  This
    file shows that these are the only ones.  When every answer the
    endpoint may give is usable ([answers_usable]) and the upstream text
    never makes the extraction loop stall, every execution of the turn
    is finite, and an execution that cannot be extended has closed the
    outward stream, sent the final metrics and finished reading the
    upstream stream.

    The proof is by a lexicographic measure ([measure]): the responses
    still allowed (at most five, lines 211-214), then the rank of the
    main task's stage (the [while] loop of [runSmolLMGeneration] ranked
    by [100 - waitCount], so that each pass without a new thought
    lowers it), then the words still to stream, then the parts the
    consumer still has to read. *)

From Stdlib Require Import Ascii String List Lia Arith Bool Wellfounded.
From S2P Require Import Prelude ThoughtExtractor Delivery Pacing Middleware Fusion.
Import ListNotations.

Local Open Scope string_scope.
Local Open Scope js_scope.
Local Open Scope list_scope.

Module Liveness.
Import Fusion.

(** Lexicographic order on a natural number followed by an ordered
    component. *)
Definition lex {A} (R : A -> A -> Prop) (x y : nat * A) : Prop :=
  fst x < fst y \/ (fst x = fst y /\ R (snd x) (snd y)).

(** Each pass through the loop that finds no new thought raises
    [waitCount] (line 206) towards the bound 100 of line 182. *)
Definition wait_rank (v : loop_vars) : nat := 3 * (100 - waitCount v).

(** The stages of the main task, in the order the code runs them. *)
Definition stage_rank (ph : stage) : nat :=
  match ph with
  | PStart => 402
  | PImmediate _ => 401
  | PImmStream _ => 400
  | PAwaitDelay v => wait_rank v + 5
  | PAwaitRPC v _ => wait_rank v + 4
  | PStream v _ _ _ => wait_rank v + 3
  | PLoopDone => 2
  | PClosed => 1
  | PDone => 0
  end.

(** Word deltas still to push. *)
Definition words_left (ph : stage) : nat :=
  match ph with
  | PImmStream ws | PStream _ _ _ ws => length ws
  | _ => 0
  end.

(** Parts the consumer still has to read, plus the final [read()]. *)
Definition consumer_left (t : turn) : nat :=
  match cons t with
  | CIdle | CReading _ => S (length (upstream t))
  | _ => 0
  end.

Definition measure (t : turn) : nat * (nat * (nat * nat)) :=
  (5 - length (responses (proc t)),
   (stage_rank (phase t), (words_left (phase t), consumer_left t))).

Definition measure_lt : nat * (nat * (nat * nat)) -> nat * (nat * (nat * nat)) -> Prop :=
  lex (lex (lex lt)).

(** The rest of the upstream stream never makes the extraction loop
    spin, for the consumer in the state it is in. *)
Definition no_stall (t : turn) : Prop :=
  match cons t with
  | CIdle => Extractor.consume Extractor.reader_init [] (upstream t) <> None
  | CReading r => Extractor.consume r (thoughts (proc t)) (upstream t) <> None
  | CSpinning _ => False
  | CDone | CFailed => True
  end.

(** Every answer the endpoint may give is streamed (line 194). *)
Definition answers_usable (allowed : Delivery.fetch_outcome -> Prop) : Prop :=
  forall o, allowed o -> usable (Delivery.generate_response o) = true.

(** A turn that can take no further step is complete: [start] has
    resolved, the stream is closed and the consumer has stopped. *)
Definition completed (t : turn) : Prop :=
  phase t = PDone /\ Pacing.closed (out t) = true /\ (cons t = CDone \/ cons t = CFailed).

(** What a segment of the main task leaves alone: the consumer, the
    upstream stream, the thoughts, the responses and the outward stream. *)
Definition frame (t t' : turn) : Prop :=
  cons t' = cons t /\ upstream t' = upstream t /\ thoughts (proc t') = thoughts (proc t)
  /\ responses (proc t') = responses (proc t) /\ out t' = out t.

(** The delivery call, if the turn is waiting on it, can only give an
    answer that is streamed. *)
Definition rpc_usable (allowed : Delivery.fetch_outcome -> Prop) (t : turn) : Prop :=
  forall v pr o, phase t = PAwaitRPC v pr -> allowed o ->
  usable (Delivery.generate_response o) = true.

(** The upstream stream yields no thought: none so far, and reading the
    rest of it yields none either. *)
Definition silent (t : turn) : Prop :=
  thoughts (proc t) = []
  /\ match cons t with
     | CIdle => exists r, Extractor.consume Extractor.reader_init [] (upstream t) = Some (r, [])
     | CReading r => exists r', Extractor.consume r [] (upstream t) = Some (r', [])
     | _ => True
     end.

(** ** The measure is well founded *)

Lemma lex_wf {A} (R : A -> A -> Prop) : well_founded R -> well_founded (lex R).
Proof.
  intros HR [n a]. revert a.
  induction n as [n IHn] using (well_founded_induction lt_wf).
  intros a. induction a as [a IHa] using (well_founded_induction HR).
  constructor. intros [m b] [H | [H1 H2]]; cbn in *.
  - apply IHn; exact H.
  - subst m. apply IHa; exact H2.
Qed.

Lemma measure_lt_wf : well_founded measure_lt.
Proof. apply lex_wf, lex_wf, lex_wf, lt_wf. Qed.

(** ** The segments of the main task *)

Lemma frame_loop_top t v : frame t (loop_top t v).
Proof.
  unfold frame, loop_top.
  destruct (Nat.ltb _ 100); [destruct (Nat.ltb _ _)|]; turn_simpl; repeat split.
Qed.

Lemma frame_loop_end t v : frame t (loop_end t v).
Proof.
  unfold loop_end. destruct (should_stop _); [|apply frame_loop_top].
  unfold frame; turn_simpl; repeat split.
Qed.

Lemma rank_loop_top t v : stage_rank (phase (loop_top t v)) <= wait_rank v + 4.
Proof.
  unfold loop_top. destruct (Nat.ltb_spec (waitCount v) 100); [destruct (Nat.ltb _ _)|];
    turn_simpl; cbn [stage_rank]; unfold wait_rank; cbn [waitCount]; lia.
Qed.

Lemma rank_loop_end t v : stage_rank (phase (loop_end t v)) <= wait_rank v + 4.
Proof.
  unfold loop_end. destruct (should_stop _); [|apply rank_loop_top].
  turn_simpl. cbn. lia.
Qed.

Lemma finish_response_fields t v r :
  let t' := finish_response t v r in
  cons t' = cons t /\ upstream t' = upstream t /\ thoughts (proc t') = thoughts (proc t)
  /\ responses (proc t') = responses (proc t) ++ [r] /\ out t' = out t.
Proof.
  unfold finish_response. cbv zeta.
  match goal with |- context [loop_end ?t0 ?v0] => destruct (frame_loop_end t0 v0) as (A & B & C & D & E) end.
  rewrite A, B, C, D, E. turn_simpl. repeat split.
Qed.

Lemma start_concurrent_fields t :
  let t' := start_concurrent t in
  cons t' = CReading Extractor.reader_init /\ upstream t' = upstream t
  /\ thoughts (proc t') = thoughts (proc t) /\ responses (proc t') = responses (proc t)
  /\ out t' = out t /\ stage_rank (phase t') <= 304.
Proof.
  unfold start_concurrent. cbv zeta.
  match goal with |- context [loop_top ?t0 ?v0] =>
    destruct (frame_loop_top t0 v0) as (A & B & C & D & E); pose proof (rank_loop_top t0 v0) end.
  rewrite A, B, C, D, E. cbn in *. repeat split. lia.
Qed.

Lemma frame_refl_fields t t' :
  cons t' = cons t -> upstream t' = upstream t -> proc t' = proc t -> out t' = out t ->
  frame t t'.
Proof. intros A B C D. unfold frame. rewrite A, B, C, D. repeat split. Qed.

Lemma frame_trans t1 t2 t3 : frame t1 t2 -> frame t2 t3 -> frame t1 t3.
Proof. unfold frame. intuition congruence. Qed.

Lemma frame_record_first_response t : frame t (record_first_response t).
Proof.
  unfold frame, record_first_response. destruct (Nat.eqb _ 0); turn_simpl; repeat split.
Qed.

(** ** How the measure decreases *)

Lemma measure_rank t t' :
  responses (proc t') = responses (proc t) -> stage_rank (phase t') < stage_rank (phase t) ->
  measure_lt (measure t') (measure t).
Proof. unfold measure_lt, lex, measure; cbn [fst snd]. intros -> H. lia. Qed.

Lemma measure_words t t' :
  responses (proc t') = responses (proc t) -> stage_rank (phase t') = stage_rank (phase t) ->
  words_left (phase t') < words_left (phase t) -> measure_lt (measure t') (measure t).
Proof. unfold measure_lt, lex, measure; cbn [fst snd]. intros -> H1 H2. lia. Qed.

Lemma measure_consumer t t' :
  responses (proc t') = responses (proc t) -> phase t' = phase t ->
  consumer_left t' < consumer_left t -> measure_lt (measure t') (measure t).
Proof. unfold measure_lt, lex, measure; cbn [fst snd]. intros -> -> H. lia. Qed.

Lemma measure_response t t' r :
  responses (proc t') = responses (proc t) ++ [r] -> length (responses (proc t)) < 5 ->
  measure_lt (measure t') (measure t).
Proof.
  unfold measure_lt, lex, measure; cbn [fst snd]. intros -> H. rewrite length_app. cbn [length]. lia.
Qed.

(** ** The consumer never spins *)

Lemma no_stall_eq t t' :
  cons t' = cons t -> upstream t' = upstream t -> thoughts (proc t') = thoughts (proc t) ->
  no_stall t -> no_stall t'.
Proof. intros A B C. unfold no_stall. rewrite A, B, C. auto. Qed.

Lemma on_part_stalled r ts i d b ts' :
  Extractor.scan (Extractor.buffer r +++ d) ts = Extractor.Stalled b ts' ->
  Extractor.on_part r ts (TextDelta i d) = None.
Proof. intros H. rewrite Extractor.on_part_scan, H. reflexivity. Qed.

Lemma no_stall_start_concurrent t :
  cons t = CIdle -> thoughts (proc t) = [] -> no_stall t -> no_stall (start_concurrent t).
Proof.
  intros Hc Ht. destruct (start_concurrent_fields t) as (A & B & C & _).
  unfold no_stall. rewrite A, B, C, Hc, Ht. auto.
Qed.

Lemma consume_stalled r ts i d ps b ts' :
  Extractor.scan (Extractor.buffer r +++ d) ts = Extractor.Stalled b ts' ->
  Extractor.consume r ts (TextDelta i d :: ps) = None.
Proof. intros H. cbn [Extractor.consume]. rewrite (on_part_stalled r ts i d b ts' H). reflexivity. Qed.

Lemma no_stall_step allowed prompt t t' :
  inv t -> no_stall t -> step allowed prompt t t' -> no_stall t'.
Proof.
  intros Hi Hn Hs. pose proof Hi as (_ & _ & _ & _ & Hph).
  destruct Hs as [t E | t pr o d resp E _ _ _ | t pr o d resp E _ _ _ | t pr o d c E _ _ Hq
                 | t w ws c E Hq | t c E Hq | t r p ps r' ts' Ec Eu Hp | t r i d ps b ts' Ec Eu Hp
                 | t r Ec _ _ | t r Ec _ _ | t b Ec | t v _ E | t v pr o d _ E _
                 | t v id r w ws c _ E Hq | t v id r c _ E Hq | t c _ E Hq | t _ E];
    try exact Hn.
  - rewrite E in Hph. destruct Hph as (Hc & _). revert Hn.
    unfold no_stall, start_turn, reset. turn_simpl. rewrite Hc. auto.
  - rewrite E in Hph. destruct Hph as (Hc & Ht & _).
    destruct (frame_record_first_response (tick t d)) as (A & B & C & _).
    apply (no_stall_eq _ _ A B C), Hn.
  - rewrite E in Hph. destruct Hph as (Hc & Ht & _). apply no_stall_start_concurrent; assumption.
  - rewrite E in Hph. destruct Hph as (Hc & Ht & _).
    destruct (frame_record_first_response (tick t d)) as (A & B & C & _).
    apply no_stall_start_concurrent; cbn [set_out cons upstream proc].
    + rewrite A. exact Hc.
    + rewrite C. exact Ht.
    + apply (no_stall_eq _ _ A B C), Hn.
  - rewrite E in Hph. destruct Hph as (Hc & Ht & _). apply no_stall_start_concurrent; assumption.
  - unfold no_stall in *. rewrite Ec, Eu in Hn. cbn [Extractor.consume] in Hn.
    rewrite Hp in Hn. exact Hn.
  - exfalso. unfold no_stall in Hn. rewrite Ec, Eu in Hn. exact (Hn (consume_stalled _ _ _ _ _ _ _ Hp)).
  - exact I.
  - exact I.
  - destruct (frame_loop_end (tick t 100) v) as (A & B & C & _). apply (no_stall_eq _ _ A B C), Hn.
  - cbv zeta. destruct (usable _); [exact Hn|].
    destruct (frame_loop_end (tick t d) v) as (A & B & C & _). apply (no_stall_eq _ _ A B C), Hn.
  - destruct (finish_response_fields (set_out t c) v r) as (A & B & C & _).
    apply (no_stall_eq _ _ A B C), Hn.
Qed.

(** ** Every step lowers the measure *)

Lemma step_measure allowed prompt t t' :
  rpc_usable allowed t -> inv t -> no_stall t -> step allowed prompt t t' ->
  measure_lt (measure t') (measure t).
Proof.
  intros Hu Hi Hn Hs. pose proof Hi as (_ & _ & _ & _ & Hph).
  destruct Hs as [t E | t pr o d resp E _ _ _ | t pr o d resp E _ _ _ | t pr o d c E _ _ Hq
                 | t w ws c E Hq | t c E Hq | t r p ps r' ts' Ec Eu Hp | t r i d ps b ts' Ec Eu Hp
                 | t r Ec Eu _ | t r Ec Eu _ | t b Ec | t v _ E | t v pr o d _ E Ho
                 | t v id r w ws c _ E Hq | t v id r c _ E Hq | t c _ E Hq | t _ E];
    try (rewrite E in Hph).
  - destruct Hph as (_ & _ & Hr & _). apply measure_rank.
    + unfold start_turn, reset; turn_simpl. now rewrite Hr.
    + unfold start_turn; turn_simpl. rewrite E. cbn. lia.
  - destruct (frame_record_first_response (tick t d)) as (_ & _ & _ & D & _).
    apply measure_rank; [exact D | cbn [set_phase phase]; rewrite E; cbn; lia].
  - destruct (start_concurrent_fields (tick t d)) as (_ & _ & _ & D & _ & R).
    apply measure_rank; [exact D | rewrite E; cbn [stage_rank]; lia].
  - destruct (frame_record_first_response (tick t d)) as (_ & _ & _ & D & _).
    destruct (start_concurrent_fields (set_out (record_first_response (tick t d)) c))
      as (_ & _ & _ & D' & _ & R).
    apply measure_rank; [rewrite D'; exact D | rewrite E; cbn [stage_rank]; lia].
  - apply measure_words; [reflexivity | cbn; now rewrite E | cbn; rewrite E; cbn; lia].
  - destruct (start_concurrent_fields (set_out t c)) as (_ & _ & _ & D & _ & R).
    apply measure_rank; [exact D | rewrite E; cbn [stage_rank]; lia].
  - apply measure_consumer; [reflexivity | reflexivity |].
    unfold consumer_left, set_consumer; cbn. rewrite Ec, Eu. cbn. lia.
  - exfalso. unfold no_stall in Hn. rewrite Ec, Eu in Hn.
    exact (Hn (consume_stalled _ _ _ _ _ _ _ Hp)).
  - apply measure_consumer; [reflexivity | reflexivity |].
    unfold consumer_left, set_consumer; cbn. rewrite Ec. lia.
  - apply measure_consumer; [reflexivity | reflexivity |].
    unfold consumer_left, set_consumer; cbn. rewrite Ec. lia.
  - exfalso. unfold no_stall in Hn. rewrite Ec in Hn. exact Hn.
  - destruct (frame_loop_end (tick t 100) v) as (_ & _ & _ & D & _).
    pose proof (rank_loop_end (tick t 100) v).
    apply measure_rank; [exact D | rewrite E; cbn [stage_rank]; lia].
  - cbv zeta. rewrite (Hu v pr o E Ho). apply measure_rank; [reflexivity|].
    cbn [set_phase phase]. rewrite E. cbn [stage_rank]. unfold wait_rank. cbn [waitCount]. lia.
  - apply measure_words; [reflexivity | cbn; now rewrite E | cbn; rewrite E; cbn; lia].
  - destruct Hph as (_ & (_ & Hs) & _). apply should_stop_false in Hs.
    destruct (finish_response_fields (set_out t c) v r) as (_ & _ & _ & D & _).
    exact (measure_response _ _ r D Hs).
  - apply measure_rank; [reflexivity | cbn; rewrite E; cbn; lia].
  - apply measure_rank; [reflexivity | cbn; rewrite E; cbn; lia].
Qed.

Lemma acc_no_infseq {A} (R : A -> A -> Prop) a : Acc (fun b a => R a b) a -> ~ infseq R a.
Proof.
  induction 1 as [a _ IH]. intros (X & Xa & HX).
  destruct (HX a Xa) as (b & Rab & Xb). apply (IH b Rab). exists X. auto.
Qed.

(** ** Progress *)

Lemma push_fragment_open c p :
  Pacing.closed c = false -> Pacing.errored c = false ->
  exists c', Pacing.push_fragment c p = Some c'.
Proof.
  intros Hc He. unfold Pacing.push_fragment, Pacing.desired_size_null, Pacing.enqueue.
  rewrite Hc, He. cbn. eauto.
Qed.

Lemma enqueue_open c p :
  Pacing.closed c = false -> Pacing.errored c = false -> exists c', Pacing.enqueue c p = Some c'.
Proof. intros Hc He. unfold Pacing.enqueue. rewrite Hc, He. cbn. eauto. Qed.

Lemma close_open c :
  Pacing.closed c = false -> Pacing.errored c = false -> exists c', Pacing.close c = Some c'.
Proof. intros Hc He. unfold Pacing.close. rewrite Hc, He. cbn. eauto. Qed.

(** The consumer can always run one segment while it is reading. *)
Lemma reading_steps allowed prompt t r :
  cons t = CReading r -> exists t', step allowed prompt t t'.
Proof.
  intros Ec. destruct (upstream t) as [|p ps] eqn:Eu.
  - destruct (upstream_fails t) eqn:Ef; eexists.
    + eapply step_read_error; eauto.
    + eapply step_read_done; eauto.
  - destruct (Extractor.on_part r (thoughts (proc t)) p) as [[r' ts']|] eqn:Ep.
    + eexists. eapply step_read; eauto.
    + rewrite Extractor.on_part_scan in Ep. destruct p as [i d|]; [|discriminate].
      destruct (Extractor.scan _ _) as [|b ts'] eqn:Es; [discriminate|].
      eexists. eapply step_read_spin; eauto.
Qed.

(** The main task can run one segment whenever the event loop is free
    and [start] has not resolved. *)
Lemma main_steps allowed prompt t o :
  allowed o -> inv t -> runnable t = true -> phase t <> PDone ->
  exists t', step allowed prompt t t'.
Proof.
  intros Ho Hi Hr Hd. pose proof Hi as (He & _ & _ & _ & Hph).
  destruct (phase t) as [|pr|ws|v pr|v id r ws|v| | |] eqn:E; try rewrite E in Hph.
  - eexists. eapply step_start; exact E.
  - destruct (Delivery.call_smollm o) as [resp|] eqn:Ec.
    + destruct (usable resp) eqn:U; eexists;
        [eapply step_immediate_ok | eapply step_immediate_blank]; eauto.
    + destruct Hph as (_ & _ & _ & Hc).
      destruct (enqueue_open (out t) (TextDelta "1" fallback_text) Hc He) as [c Hq].
      eexists. eapply step_immediate_error; eauto.
  - destruct Hph as (_ & _ & _ & Hc). destruct ws as [|w ws].
    + destruct (push_fragment_open (out t) (TextDelta (Js.of_nat 1001) " ") Hc He) as [c Hq].
      eexists. eapply step_imm_last; eauto.
    + destruct (push_fragment_open (out t) (TextDelta (Js.of_nat 1) w) Hc He) as [c Hq].
      eexists. eapply step_imm_word; eauto.
  - eexists. eapply step_rpc; eauto.
  - destruct Hph as (_ & _ & _ & _ & Hc). destruct ws as [|w ws].
    + destruct (push_fragment_open (out t) (TextDelta (Js.of_nat (id + 1000)) " ") Hc He)
        as [c Hq].
      eexists. eapply step_last; eauto.
    + destruct (push_fragment_open (out t) (TextDelta (Js.of_nat id) w) Hc He) as [c Hq].
      eexists. eapply step_word; eauto.
  - eexists. eapply step_delay; eauto.
  - destruct Hph as (_ & Hc). destruct (close_open (out t) Hc He) as [c Hq].
    eexists. eapply step_close; eauto.
  - eexists. eapply step_metrics; eauto.
  - contradiction.
  Unshelve. all: exact 0.
Qed.

(** Every state of a turn either can take a step or is completed. *)
Lemma progress allowed prompt t o :
  allowed o -> inv t -> (exists t', step allowed prompt t t') \/ completed t.
Proof.
  intros Ho Hi. pose proof Hi as (_ & _ & _ & _ & Hph).
  destruct (cons t) as [|r|b| |] eqn:Ec.
  2: left; eapply reading_steps; eauto.
  2: left; exists t; eapply step_spin; eauto.
  all: assert (Hr : runnable t = true) by (unfold runnable; rewrite Ec; reflexivity).
  all: destruct (phase t) eqn:E; try (left; eapply main_steps; eauto; congruence).
  all: destruct Hph as (Hc & Hcl).
  all: first [congruence | right; unfold completed; auto].
Qed.

Lemma star_no_stall allowed prompt t0 t :
  star (step allowed prompt) t0 t -> inv t0 -> no_stall t0 -> no_stall t.
Proof.
  induction 1 as [a | a b d Hs Hst IH]; intros Hi Hn; [exact Hn|].
  apply IH; [eapply inv_step | eapply no_stall_step]; eauto.
Qed.

Lemma reachable_no_stall allowed prompt c ups fails now ts t :
  Extractor.consume Extractor.reader_init [] ups <> None ->
  reachable allowed prompt c ups fails now ts t -> inv t /\ no_stall t.
Proof.
  intros H Hr. split; [exact (inv_reachable _ _ _ _ _ _ _ _ Hr)|].
  eapply star_no_stall; [exact Hr | | exact H].
  exact (inv_reachable allowed prompt c ups fails now ts _ (star_refl _ _)).
Qed.

(** ** An upstream stream without thoughts *)

Lemma consume_extends r ts ps r' ts' :
  Extractor.consume r ts ps = Some (r', ts') -> exists fresh, ts' = ts ++ fresh.
Proof.
  revert r ts; induction ps as [|p ps IH]; intros r ts H; cbn [Extractor.consume] in H.
  - injection H as _ <-. exists []. now rewrite app_nil_r.
  - destruct (Extractor.on_part r ts p) as [[r1 ts1]|] eqn:Ep; [|discriminate].
    destruct (Extractor.on_part_extends _ _ _ _ _ Ep) as (f1 & ->).
    destruct (IH _ _ H) as (f2 & ->). exists (f1 ++ f2). now rewrite app_assoc.
Qed.

Lemma silent_eq t t' :
  cons t' = cons t -> upstream t' = upstream t -> thoughts (proc t') = thoughts (proc t) ->
  silent t -> silent t'.
Proof. intros A B C. unfold silent. rewrite A, B, C. auto. Qed.

Lemma silent_start_concurrent t : cons t = CIdle -> silent t -> silent (start_concurrent t).
Proof.
  intros Hc [Ht Hm]. destruct (start_concurrent_fields t) as (A & B & C & _).
  unfold silent. rewrite A, B, C, Ht. rewrite Hc in Hm. auto.
Qed.

Lemma silent_step allowed prompt t t' :
  inv t -> no_stall t -> silent t -> step allowed prompt t t' -> silent t'.
Proof.
  intros Hi Hn Hg Hs. pose proof Hi as (_ & _ & _ & _ & Hph).
  destruct Hs as [t E | t pr o d resp E _ _ _ | t pr o d resp E _ _ _ | t pr o d c E _ _ Hq
                 | t w ws c E Hq | t c E Hq | t r p ps r' ts' Ec Eu Hp | t r i d ps b ts' Ec Eu Hp
                 | t r Ec _ _ | t r Ec _ _ | t b Ec | t v _ E | t v pr o d _ E _
                 | t v id r w ws c _ E Hq | t v id r c _ E Hq | t c _ E Hq | t _ E];
    try exact Hg; try (rewrite E in Hph; destruct Hph as (Hc & _)).
  - revert Hg. unfold silent, start_turn, reset. turn_simpl. rewrite Hc. intros [_ H]. auto.
  - destruct (frame_record_first_response (tick t d)) as (A & B & C & _).
    apply (silent_eq _ _ A B C), Hg.
  - apply silent_start_concurrent; assumption.
  - destruct (frame_record_first_response (tick t d)) as (A & B & C & _).
    apply silent_start_concurrent; [cbn [set_out cons]; rewrite A; exact Hc|].
    apply (silent_eq _ _ A B C), Hg.
  - apply silent_start_concurrent; assumption.
  - destruct Hg as [Ht Hm]. rewrite Ec, Eu in Hm. destruct Hm as (r2 & Hm).
    cbn [Extractor.consume] in Hm. rewrite Ht in Hp. rewrite Hp in Hm.
    destruct (consume_extends _ _ _ _ _ Hm) as (fresh & Hf).
    symmetry in Hf. apply app_eq_nil in Hf as [-> _].
    split; [reflexivity | cbn; eauto].
  - exfalso. unfold no_stall in Hn. rewrite Ec, Eu in Hn.
    exact (Hn (consume_stalled _ _ _ _ _ _ _ Hp)).
  - split; [exact (proj1 Hg) | exact I].
  - split; [exact (proj1 Hg) | exact I].
  - destruct (frame_loop_end (tick t 100) v) as (A & B & C & _). apply (silent_eq _ _ A B C), Hg.
  - cbv zeta. destruct (usable _); [exact Hg|].
    destruct (frame_loop_end (tick t d) v) as (A & B & C & _). apply (silent_eq _ _ A B C), Hg.
  - destruct (finish_response_fields (set_out t c) v r) as (A & B & C & _).
    apply (silent_eq _ _ A B C), Hg.
Qed.

(** Without thoughts the loop never waits on the delivery endpoint. *)
Lemma silent_rpc allowed t : inv t -> silent t -> rpc_usable allowed t.
Proof.
  intros (_ & _ & _ & _ & Hph) [Ht _] v pr o E _. rewrite E, Ht in Hph.
  destruct Hph as (_ & _ & L & _). cbn in L. lia.
Qed.

Lemma silent_init c ups fails now ts r :
  Extractor.consume Extractor.reader_init [] ups = Some (r, []) -> silent (turn_init c ups fails now ts).
Proof. intros H. split; [reflexivity | exists r; exact H]. Qed.

(** ** Termination under an invariant *)

Section Good.

Variable allowed : Delivery.fetch_outcome -> Prop.
Variable prompt : list Middleware.message.

(** An invariant of the turn under which the delivery call, when the
    loop waits on it, answers with a text that is streamed. *)
Variable good : turn -> Prop.
Hypothesis good_step :
  forall t t', inv t -> no_stall t -> good t -> step allowed prompt t t' -> good t'.
Hypothesis good_rpc : forall t, inv t -> good t -> rpc_usable allowed t.

Lemma acc_good t : inv t -> no_stall t -> good t -> Acc (fun b a => step allowed prompt a b) t.
Proof.
  remember (measure t) as m eqn:Em. revert t Em.
  induction m as [m IH] using (well_founded_induction measure_lt_wf).
  intros t -> Hi Hn Hg. constructor. intros t' Hs.
  apply (IH (measure t')); eauto using step_measure, inv_step, no_stall_step.
Qed.

Lemma completes_good t o :
  allowed o -> inv t -> no_stall t -> good t ->
  exists t', star (step allowed prompt) t t' /\ completed t' /\ inv t' /\ good t'.
Proof.
  intros Ho Hi Hn Hg. pose proof (acc_good t Hi Hn Hg) as Ha.
  revert Hi Hn Hg. induction Ha as [t _ IH]; intros Hi Hn Hg.
  destruct (progress allowed prompt t o Ho Hi) as [(t1 & Hs) | Hd].
  - destruct (IH t1 Hs) as (t' & Hst & Hd & Hi' & Hg'); eauto using inv_step, no_stall_step.
    exists t'. split; [eapply star_step; eauto | auto].
  - exists t. split; [apply star_refl | auto].
Qed.

Lemma star_good t t' :
  star (step allowed prompt) t t' -> inv t -> no_stall t -> good t -> good t'.
Proof.
  induction 1 as [a | a b d Hs Hst IH]; intros Hi Hn Hg; [exact Hg|].
  apply IH; eauto using inv_step, no_stall_step.
Qed.

End Good.

(** ** The turn terminates and completes *)

(** C4: When every answer the delivery endpoint may give is streamed
    and the upstream text never makes the extraction loop spin, every
    execution of a turn from [wrapStream] is finite: the measure of
    the turn decreases at each segment of either task, however they
    interleave. *)
Theorem turn_terminates allowed prompt c ups fails now ts :
  answers_usable allowed ->
  Extractor.consume Extractor.reader_init [] ups <> None ->
  Acc (fun b a => step allowed prompt a b) (turn_init c ups fails now ts)
  /\ ~ infseq (step allowed prompt) (turn_init c ups fails now ts).
Proof.
  intros Hu Hc.
  assert (H : Acc (fun b a => step allowed prompt a b) (turn_init c ups fails now ts)).
  { destruct (reachable_no_stall allowed prompt c ups fails now ts _ Hc (star_refl _ _))
      as [Hi Hn].
    apply (acc_good allowed prompt (fun _ => True)); auto.
    intros t' _ _ v pr o _ Ho. exact (Hu o Ho). }
  split; [exact H | exact (acc_no_infseq _ _ H)].
Qed.

(** Under the same conditions, and when the endpoint can answer at
    all, every state the turn reaches can still complete: some
    execution leads from it to a state where [start] has sent the final
    metrics, the outward stream is closed and the consumer has finished
    reading. *)
Lemma turn_completes_run allowed prompt c ups fails now ts t o :
  allowed o -> answers_usable allowed ->
  Extractor.consume Extractor.reader_init [] ups <> None ->
  reachable allowed prompt c ups fails now ts t ->
  exists t', star (step allowed prompt) t t' /\ completed t'.
Proof.
  intros Ho Hu Hc Hr. destruct (reachable_no_stall _ _ _ _ _ _ _ _ Hc Hr) as [Hi Hn].
  destruct (completes_good allowed prompt (fun _ => True)) with (t := t) (o := o)
    as (t' & Hst & Hd & _ & _); auto.
  - intros t1 _ _ v pr o1 _ Ho1. exact (Hu o1 Ho1).
  - exists t'. auto.
Qed.

(** An endpoint that always answers "Hi there". *)
Definition answers_hi (o : Delivery.fetch_outcome) : Prop :=
  o = Delivery.HttpOkJson (Some "Hi there").

Lemma turn_terminates_witness :
  answers_usable answers_hi
  /\ Extractor.consume Extractor.reader_init [] demo_upstream <> None
  /\ (Acc (fun b a => step answers_hi demo_prompt a b)
          (turn_init demo_config demo_upstream false 0 "T0")
      /\ ~ infseq (step answers_hi demo_prompt) (turn_init demo_config demo_upstream false 0 "T0")).
Proof.
  assert (Hu : answers_usable answers_hi) by (intros o ->; vm_compute; reflexivity).
  assert (Hc : Extractor.consume Extractor.reader_init [] demo_upstream <> None)
    by (vm_compute; discriminate).
  split; [exact Hu | split; [exact Hc | apply turn_terminates; assumption]].
Defined.

Lemma silent_no_responses t : inv t -> silent t -> responses (proc t) = [].
Proof.
  intros (_ & L & _) [Ht _]. rewrite Ht in L. cbn in L. apply length_zero_iff_nil. lia.
Qed.

(** C6: When the reasoning stream yields no thought, every execution of
    the turn is finite whatever the delivery endpoint does, even when it
    fails on every call: the generation loop only waits, and the idle
    bound of line 182 ends it. *)
Theorem idle_turn_terminates allowed prompt c ups fails now ts r :
  Extractor.consume Extractor.reader_init [] ups = Some (r, []) ->
  Acc (fun b a => step allowed prompt a b) (turn_init c ups fails now ts)
  /\ ~ infseq (step allowed prompt) (turn_init c ups fails now ts).
Proof.
  intros Hc. assert (Hn : Extractor.consume Extractor.reader_init [] ups <> None)
    by (rewrite Hc; discriminate).
  destruct (reachable_no_stall allowed prompt c ups fails now ts _ Hn (star_refl _ _)) as [Hi Hs].
  assert (H : Acc (fun b a => step allowed prompt a b) (turn_init c ups fails now ts))
    by (apply (acc_good allowed prompt silent); eauto using silent_step, silent_rpc, silent_init).
  split; [exact H | exact (acc_no_infseq _ _ H)].
Qed.

(** In that situation, whenever the endpoint can answer at all,
    the loop never stores a response, and from every state the turn
    reaches some execution completes it: the stream is closed with only
    the immediate response (or its fallback) in it and the metrics are
    sent. *)
Lemma idle_turn_completes_run allowed prompt c ups fails now ts r t o :
  allowed o -> Extractor.consume Extractor.reader_init [] ups = Some (r, []) ->
  reachable allowed prompt c ups fails now ts t ->
  responses (proc t) = []
  /\ exists t', star (step allowed prompt) t t' /\ completed t' /\ responses (proc t') = [].
Proof.
  intros Ho Hc Hr. assert (Hn : Extractor.consume Extractor.reader_init [] ups <> None)
    by (rewrite Hc; discriminate).
  destruct (reachable_no_stall _ _ _ _ _ _ _ _ Hn Hr) as [Hi Hs].
  destruct (reachable_no_stall allowed prompt c ups fails now ts _ Hn (star_refl _ _)) as [Hi0 Hs0].
  assert (Hg : silent t)
    by (apply (star_good allowed prompt silent) with (t := turn_init c ups fails now ts);
        eauto using silent_step, silent_init).
  split; [exact (silent_no_responses t Hi Hg)|].
  destruct (completes_good allowed prompt silent) with (t := t) (o := o)
    as (t' & Hst & Hd & Hi' & Hg'); eauto using silent_step, silent_rpc.
  exists t'. split; [exact Hst | split; [exact Hd | exact (silent_no_responses t' Hi' Hg')]].
Qed.

Lemma idle_turn_terminates_witness :
  Extractor.consume Extractor.reader_init [] [TextDelta "0" "no markers here"]
    = Some (Extractor.mkReader "no markers here" 1, [])
  /\ Acc (fun b a => step endpoint_down demo_prompt a b)
        (turn_init demo_config [TextDelta "0" "no markers here"] false 0 "T0")
  /\ ~ infseq (step endpoint_down demo_prompt)
        (turn_init demo_config [TextDelta "0" "no markers here"] false 0 "T0").
Proof.
  assert (Hc : Extractor.consume Extractor.reader_init [] [TextDelta "0" "no markers here"]
               = Some (Extractor.mkReader "no markers here" 1, [])) by (vm_compute; reflexivity).
  split; [exact Hc | exact (idle_turn_terminates _ _ _ _ _ _ _ _ Hc)].
Defined.

End Liveness.
