(* ===== verification/Cancel.v ===== *)
(** * Client cancellation and the [catch] of [processStream]

    The client of the route reads the outward stream and may cancel it
    at any time (closing the page cancels the response body).  WHATWG
    [ReadableStreamCancel] then closes the stream: [desiredSize] becomes
    0, not [null], so the guards of [streamSentenceTokens] (lines 389 and
    402 of [natural-response-processor.ts]) let the push through and
    [controller.enqueue] throws, as does [controller.close()] (line
    164).  The code catches such a throw in two places: the [catch] of
    [emitImmediateResponse] (lines 103-113) when it comes from the
    immediate answer, whose own [enqueue] of the fallback then throws
    again, and the [catch] of [processStream]'s [start] (lines 74-78),
    which sends the metrics and rethrows, rejecting [start].

    [cstep] extends [Fusion.step] with the client's [cancel] and with
    one rule per operation that throws on a cancelled stream; every
    such rule ends in [abort], the [catch] of [start].  The controller's
    [queue] stays the log of what was enqueued: the parts a cancelled
    stream discards were already counted as sent. *)

From Stdlib Require Import Ascii String List Lia Arith Bool.
From S2P Require Import Prelude ThoughtExtractor Delivery Pacing Middleware Fusion Liveness.
Import ListNotations.

Local Open Scope string_scope.
Local Open Scope js_scope.
Local Open Scope list_scope.

Module Cancel.

Import Fusion.

(** [ReadableStreamCancel] on the outward stream: a readable stream
    becomes closed; a closed or errored one is left as it is. *)
Definition cancel (c : Pacing.controller) : Pacing.controller :=
  if Pacing.closed c || Pacing.errored c then c
  else Pacing.mkController (Pacing.queue c) true false.

(** The rejection of [start] errors the stream unless it is already
    closed ([ReadableStreamDefaultControllerError] acts on a readable
    stream only). *)
Definition reject_start (c : Pacing.controller) : Pacing.controller :=
  if Pacing.closed c then c else Pacing.error c.

(** Lines 74-78: [this.sendMetrics(); throw error;], then [start] has
    settled. *)
Definition abort (t : turn) : turn :=
  set_phase (set_out (send_metrics t) (reject_start (out t))) PDone.

(** [start] has settled, normally or through its [catch]. *)
Definition finished (ph : stage) : bool :=
  match ph with PDone => true | _ => false end.

Section CStep.

Variable allowed : Delivery.fetch_outcome -> Prop.
Variable prompt : list Middleware.message.

Inductive cstep : turn -> turn -> Prop :=
(** Every segment of [Fusion.step]. *)
| cstep_step t t' :
    step allowed prompt t t' -> cstep t t'
(** The client cancels the response body. *)
| cstep_cancel t :
    Pacing.closed (out t) = false -> Pacing.errored (out t) = false ->
    cstep t (set_out t (cancel (out t)))
(** The immediate call failed and the fallback [enqueue] of line 109
    throws: the [catch] of [emitImmediateResponse] exits with it. *)
| cstep_fallback_throws t pr o d :
    phase t = PImmediate pr -> allowed o ->
    Delivery.call_smollm o = Delivery.CallError ->
    Pacing.enqueue (out t) (TextDelta "1" fallback_text) = None ->
    cstep t (abort (record_first_response (tick t d)))
(** A push of the immediate answer throws inside the [try] of lines
    91-102; the [catch] records [firstResponseTime] and its fallback
    [enqueue] throws too. *)
| cstep_imm_word_throws t w ws :
    phase t = PImmStream (w :: ws) ->
    Pacing.push_fragment (out t) (TextDelta (Js.of_nat 1) w) = None ->
    Pacing.enqueue (out t) (TextDelta "1" fallback_text) = None ->
    cstep t (abort (record_first_response t))
| cstep_imm_last_throws t :
    phase t = PImmStream [] ->
    Pacing.push_fragment (out t) (TextDelta (Js.of_nat 1001) " ") = None ->
    Pacing.enqueue (out t) (TextDelta "1" fallback_text) = None ->
    cstep t (abort (record_first_response t))
(** A push of a loop answer throws: [runSmolLMGeneration] has no
    [catch], so the error reaches [start]'s. *)
| cstep_word_throws t v id r w ws :
    runnable t = true -> phase t = PStream v id r (w :: ws) ->
    Pacing.push_fragment (out t) (TextDelta (Js.of_nat id) w) = None ->
    cstep t (abort t)
| cstep_last_throws t v id r :
    runnable t = true -> phase t = PStream v id r [] ->
    Pacing.push_fragment (out t) (TextDelta (Js.of_nat (id + 1000)) " ") = None ->
    cstep t (abort t)
(** [controller.close()] (line 164) throws. *)
| cstep_close_throws t :
    runnable t = true -> phase t = PLoopDone -> Pacing.close (out t) = None ->
    cstep t (abort t).

End CStep.

Definition creachable (allowed : Delivery.fetch_outcome -> Prop) prompt c ups fails now ts
  (t : turn) : Prop :=
  star (cstep allowed prompt) (turn_init c ups fails now ts) t.

(** ** What the segments do to the metrics log *)

(** A segment that leaves the metrics log and the configuration alone
    and does not settle [start]. *)
Definition same_log (t t' : turn) : Prop :=
  metrics_log t' = metrics_log t /\ cfg t' = cfg t /\ finished (phase t') = false.

(** The metrics log of a turn configured with [c]: what [wrapStream]
    logged, then one report once [start] has settled. *)
Definition log_inv (c : Delivery.config) (base : list metrics) (t : turn) : Prop :=
  cfg t = c
  /\ exists m, metrics_log t = base ++ (if Delivery.onMetricsUpdate c && finished (phase t)
                                     then [m] else []).

Lemma log_loop_top t v : same_log t (loop_top t v).
Proof. unfold same_log, loop_top. js_case_eqb; turn_simpl; auto. Qed.

Lemma log_loop_end t v : same_log t (loop_end t v).
Proof.
  unfold loop_end. destruct (should_stop _); [|apply log_loop_top].
  unfold same_log; turn_simpl; auto.
Qed.

Lemma same_log_trans t1 t2 t3 :
  metrics_log t2 = metrics_log t1 -> cfg t2 = cfg t1 -> same_log t2 t3 -> same_log t1 t3.
Proof. intros A B (C & D & E). unfold same_log. rewrite C, D, A, B. auto. Qed.

Lemma log_start_concurrent t : same_log t (start_concurrent t).
Proof. unfold start_concurrent. eapply same_log_trans; [| |apply log_loop_top]; reflexivity. Qed.

Lemma log_finish_response t v r : same_log t (finish_response t v r).
Proof. unfold finish_response. eapply same_log_trans; [| |apply log_loop_end]; reflexivity. Qed.

Lemma log_record_first_response t :
  metrics_log (record_first_response t) = metrics_log t /\ cfg (record_first_response t) = cfg t
  /\ phase (record_first_response t) = phase t.
Proof. unfold record_first_response. destruct (Nat.eqb _ 0); turn_simpl; auto. Qed.

(** Every segment of [Fusion.step] but the final [sendMetrics] keeps the
    log and whether [start] has settled. *)
Lemma step_log allowed prompt t t' :
  step allowed prompt t t' ->
  (metrics_log t' = metrics_log t /\ cfg t' = cfg t /\ finished (phase t') = finished (phase t))
  \/ (phase t = PClosed /\ t' = set_phase (send_metrics t) PDone).
Proof.
  intros Hs.
  assert (K : forall t0, same_log t t0 -> finished (phase t) = false ->
                metrics_log t0 = metrics_log t /\ cfg t0 = cfg t
                /\ finished (phase t0) = finished (phase t))
    by (intros t0 (A & B & C) D; rewrite C, D; auto).
  destruct Hs as [t E | t pr o d resp E _ _ _ | t pr o d resp E _ _ _ | t pr o d c E _ _ _
                 | t w ws c E _ | t c E _ | t r p ps r' ts' _ _ _ | t r i d ps b ts' _ _ _
                 | t r _ _ _ | t r _ _ _ | t b _ | t v _ E | t v pr o d _ E _
                 | t v id r w ws c _ E _ | t v id r c _ E _ | t c _ E _ | t _ E];
    [..| right; auto];
    try (left; unfold set_consumer; cbn; auto; fail);
    left; apply K; try (rewrite E; reflexivity).
  - unfold start_turn, same_log; turn_simpl. auto.
  - destruct (log_record_first_response (tick t d)) as (A & B & C).
    unfold same_log; turn_simpl. rewrite A, B. auto.
  - eapply same_log_trans; [| |apply log_start_concurrent]; reflexivity.
  - destruct (log_record_first_response (tick t d)) as (A & B & _).
    eapply same_log_trans; [| |apply log_start_concurrent]; turn_simpl; [exact A | exact B].
  - unfold same_log; turn_simpl. auto.
  - eapply same_log_trans; [| |apply log_start_concurrent]; reflexivity.
  - eapply same_log_trans; [| |apply log_loop_end]; reflexivity.
  - cbv zeta. destruct (usable _).
    + unfold same_log; turn_simpl. auto.
    + eapply same_log_trans; [| |apply log_loop_end]; reflexivity.
  - unfold same_log; turn_simpl. auto.
  - eapply same_log_trans; [| |apply log_finish_response]; reflexivity.
  - unfold same_log; turn_simpl. auto.
Qed.

Lemma log_abort c base t :
  cfg t = c -> finished (phase t) = false -> metrics_log t = base -> log_inv c base (abort t).
Proof.
  intros A B C. unfold abort, send_metrics, log_inv; turn_simpl. rewrite A, C.
  split; [reflexivity|]. cbn [finished]. rewrite andb_true_r.
  destruct (Delivery.onMetricsUpdate c);
    [eexists; reflexivity | exists (metrics_of (proc t) 0); symmetry; apply app_nil_r].
Qed.

Lemma log_inv_open c base t :
  log_inv c base t -> finished (phase t) = false -> cfg t = c /\ metrics_log t = base.
Proof.
  intros (A & m & B) F. rewrite F, andb_false_r, app_nil_r in B. auto.
Qed.

Lemma log_cstep allowed prompt c base t t' :
  log_inv c base t -> cstep allowed prompt t t' -> log_inv c base t'.
Proof.
  intros Hl Hs. destruct Hs as [t t' Hs | t _ _ | t pr o d E _ _ _ | t w ws E _ _ | t E _ _
                               | t v id r w ws _ E _ | t v id r _ E _ | t _ E _].
  - destruct (step_log _ _ _ _ Hs) as [(A & B & C) | (E & ->)].
    + destruct Hl as (Hc & m & Hm). split; [congruence|]. exists m. now rewrite A, C.
    + destruct (log_inv_open c base t Hl) as [Hc Hm]; [now rewrite E|].
      unfold send_metrics, log_inv; turn_simpl. rewrite Hc, Hm. split; [reflexivity|].
      cbn [finished]. rewrite andb_true_r. destruct (Delivery.onMetricsUpdate c);
        [eexists; reflexivity | exists (metrics_of (proc t) 0); symmetry; apply app_nil_r].
  - destruct Hl as (Hc & m & Hm). split; [exact Hc|]. exists m. exact Hm.
  - destruct (log_record_first_response (tick t d)) as (A & B & C).
    destruct (log_inv_open c base t Hl) as [Hc Hm]; [now rewrite E|].
    apply log_abort; turn_simpl; rewrite ?A, ?B, ?C; turn_simpl; rewrite ?E; auto.
  - destruct (log_record_first_response t) as (A & B & C).
    destruct (log_inv_open c base t Hl) as [Hc Hm]; [now rewrite E|].
    apply log_abort; rewrite ?A, ?B, ?C, ?E; auto.
  - destruct (log_record_first_response t) as (A & B & C).
    destruct (log_inv_open c base t Hl) as [Hc Hm]; [now rewrite E|].
    apply log_abort; rewrite ?A, ?B, ?C, ?E; auto.
  - destruct (log_inv_open c base t Hl) as [Hc Hm]; [now rewrite E|].
    apply log_abort; rewrite ?E; auto.
  - destruct (log_inv_open c base t Hl) as [Hc Hm]; [now rewrite E|].
    apply log_abort; rewrite ?E; auto.
  - destruct (log_inv_open c base t Hl) as [Hc Hm]; [now rewrite E|].
    apply log_abort; rewrite ?E; auto.
Qed.

Lemma log_creachable allowed prompt c ups fails now ts t :
  creachable allowed prompt c ups fails now ts t ->
  log_inv c (metrics_log (turn_init c ups fails now ts)) t.
Proof.
  unfold creachable. intros H.
  assert (H0 : log_inv c (metrics_log (turn_init c ups fails now ts)) (turn_init c ups fails now ts))
    by (split; [reflexivity | exists (constructor_metrics ts); cbn; now rewrite andb_false_r, app_nil_r]).
  revert H0. generalize (metrics_log (turn_init c ups fails now ts)) as base.
  induction H as [t0 | t0 t1 t2 S1 S2 IH]; intros base H0; [exact H0|].
  exact (IH base (log_cstep _ _ _ _ _ _ H0 S1)).
Qed.

(** ** A turn that settled before its consumer started *)

Lemma settled_idle_irred allowed prompt t t' :
  phase t = PDone -> Pacing.closed (out t) = true -> cons t = CIdle -> ~ cstep allowed prompt t t'.
Proof.
  intros E Hc Ec H. destruct H as [t t' Hs | | | | | | |]; try congruence.
  destruct Hs; congruence.
Qed.

(** The client cancels while the immediate answer streams: the push of
    its first word throws, and the [catch] of [start] runs. *)
Lemma cancel_demo :
  exists t, creachable any_outcome demo_prompt demo_config demo_upstream false 0 "T0" t
       /\ phase t = PDone /\ Pacing.closed (out t) = true /\ cons t = CIdle
       /\ upstream t = demo_upstream.
Proof.
  eexists. split.
  - unfold creachable.
    eapply star_step; [apply cstep_step, step_start; reflexivity|].
    eapply star_step;
      [apply cstep_step;
       eapply (step_immediate_ok _ _ _ _ (Delivery.HttpOkJson (Some "Hi there")) 5);
       first [exact I | reflexivity]|].
    eapply star_step; [apply cstep_cancel; reflexivity|].
    eapply star_step; [apply (cstep_imm_word_throws _ _ _ "Hi " ["there"]); vm_compute; reflexivity|].
    apply star_refl.
  - repeat split.
Defined.

(** ** What cancellation does to a turn *)

(** C18: In every state a turn reaches, the client's cancellation
    included, [onMetricsUpdate] has received, after what [wrapStream]
    logged, at most one report, and it has received one exactly when
    [start] has settled, whether normally or through the [catch] of
    lines 74-78. *)
Theorem metrics_sent_once allowed prompt c ups fails now ts t :
  creachable allowed prompt c ups fails now ts t ->
  exists m, metrics_log t = metrics_log (turn_init c ups fails now ts)
                           ++ (if Delivery.onMetricsUpdate c && finished (phase t) then [m] else []).
Proof. intros H. exact (proj2 (log_creachable _ _ _ _ _ _ _ _ H)). Qed.

(** C20: When the client cancels while the immediate answer streams, the
    turn settles through the [catch] of [start] without ever starting the
    reasoning consumer: the upstream stream is left unread (the code never
    cancels it) and no later segment reads it. *)
Theorem cancel_leaves_upstream_unread :
  exists t, creachable any_outcome demo_prompt demo_config demo_upstream false 0 "T0" t
       /\ phase t = PDone /\ cons t = CIdle /\ upstream t = demo_upstream
       /\ forall t', ~ cstep any_outcome demo_prompt t t'.
Proof.
  destruct cancel_demo as (t & Hr & E & Hc & Ec & Eu). exists t.
  repeat split; auto. intros t'. exact (settled_idle_irred _ _ t t' E Hc Ec).
Qed.

Lemma metrics_sent_once_witness :
  exists t, creachable any_outcome demo_prompt demo_config demo_upstream false 0 "T0" t
       /\ exists m, metrics_log t
                    = metrics_log (turn_init demo_config demo_upstream false 0 "T0")
                      ++ (if Delivery.onMetricsUpdate demo_config && finished (phase t)
                          then [m] else []).
Proof.
  destruct cancel_demo as (t & Hr & _). exists t. split; [exact Hr|].
  exact (metrics_sent_once _ _ _ _ _ _ _ _ Hr).
Defined.

End Cancel.
