(* ===== verification/Report.v ===== *)
(** * The final metrics report of a turn

    [start] (natural-response-processor.ts, lines 58-79) ends with
    [sendMetrics()] (line 72, lines 436-454): when [onMetricsUpdate] is
    configured it is called once with the counts and the text of the
    turn.  This file proves an invariant of [Fusion.step] on the
    metrics log: until [start] has settled the log is what [wrapStream]
    logged, and afterwards it holds one more report whose
    [responsesGenerated], [thoughtsProcessed] and [fullText] are those of
    the turn, since nothing changes the responses once [start] has
    settled.  With [Liveness] this gives completion theorems in which the
    report is really sent. *)

From Stdlib Require Import Ascii String List Lia Arith Bool.
From S2P Require Import Prelude ThoughtExtractor Delivery Pacing Middleware Fusion Liveness Cancel.
Import ListNotations.

Local Open Scope string_scope.
Local Open Scope js_scope.
Local Open Scope list_scope.

Module Report.

Import Fusion Liveness Cancel.

(** A report that carries the turn's counts and text. *)
Definition report_ok (p : processor) (m : metrics) : Prop :=
  responsesGenerated m = length (responses p)
  /\ thoughtsProcessed m = thoughtsProcessedCount p
  /\ fullText m = Js.join " " (responses p).

(** The metrics log of a turn configured with [c], over what
    [wrapStream] logged. *)
Definition report_inv (c : Delivery.config) (base : list metrics) (t : turn) : Prop :=
  cfg t = c
  /\ if finished (phase t)
     then exists m, metrics_log t = base ++ (if Delivery.onMetricsUpdate c then [m] else [])
                    /\ report_ok (proc t) m
     else metrics_log t = base.

Lemma star_trans {A} (R : A -> A -> Prop) a b c : star R a b -> star R b c -> star R a c.
Proof. induction 1 as [|a0 a1 a2 H _ IH]; auto. intros H2. eapply star_step; eauto. Qed.

Lemma metrics_of_ok p n : report_ok p (metrics_of p n).
Proof. repeat split. Qed.

Lemma finished_done ph : finished ph = true -> ph = PDone.
Proof. destruct ph; cbn; congruence. Qed.

(** Once [start] has settled only the consumer runs: it changes the
    thoughts, never the responses, the counts or the log. *)
Lemma done_step allowed prompt t t' :
  step allowed prompt t t' -> phase t = PDone ->
  phase t' = PDone /\ responses (proc t') = responses (proc t)
  /\ thoughtsProcessedCount (proc t') = thoughtsProcessedCount (proc t)
  /\ metrics_log t' = metrics_log t /\ cfg t' = cfg t.
Proof. intros Hs Hd. destruct Hs; try congruence; unfold set_consumer; cbn; auto. Qed.

Lemma report_step allowed prompt c base t t' :
  report_inv c base t -> step allowed prompt t t' -> report_inv c base t'.
Proof.
  intros [Hc Hl] Hs. destruct (step_log _ _ _ _ Hs) as [(A & B & F) | (E & ->)].
  - split; [congruence|]. rewrite F. destruct (finished (phase t)) eqn:Ft; [|congruence].
    destruct (done_step _ _ _ _ Hs (finished_done _ Ft)) as (_ & R & T & L & _).
    destruct Hl as (m & Hm & Hr & Ht & Hf). exists m. unfold report_ok. rewrite L, R, T. auto.
  - rewrite E in Hl. cbn [finished] in Hl.
    unfold send_metrics, report_inv; turn_simpl. split; [exact Hc|]. cbn [finished].
    exists (metrics_of (proc t) (clock t)). split; [|apply metrics_of_ok].
    rewrite Hc, Hl. destruct (Delivery.onMetricsUpdate c); [reflexivity | symmetry; apply app_nil_r].
Qed.

Lemma report_star allowed prompt c base t t' :
  report_inv c base t -> star (step allowed prompt) t t' -> report_inv c base t'.
Proof.
  intros H0 Hs. induction Hs as [a | a b d S1 S2 IH]; auto.
  apply IH. exact (report_step _ _ _ _ _ _ H0 S1).
Qed.

Lemma report_reachable allowed prompt c ups fails now ts t :
  reachable allowed prompt c ups fails now ts t ->
  report_inv c (metrics_log (turn_init c ups fails now ts)) t.
Proof. apply report_star. split; reflexivity. Qed.

(** A completed turn has sent its report. *)
Lemma completed_report allowed prompt c ups fails now ts t :
  reachable allowed prompt c ups fails now ts t -> completed t ->
  exists m, metrics_log t = metrics_log (turn_init c ups fails now ts)
                            ++ (if Delivery.onMetricsUpdate c then [m] else [])
            /\ report_ok (proc t) m.
Proof.
  intros Hr (Hd & _ & _). destruct (report_reachable _ _ _ _ _ _ _ _ Hr) as [_ Hl].
  rewrite Hd in Hl. exact Hl.
Qed.

(** ** Completion with the report sent *)

(** C5: When every answer the endpoint may give is non-blank, the
    upstream text never makes the extraction loop spin and the endpoint
    can answer at all, every state the turn reaches can still complete:
    some execution leads from it to a state where the outward stream is
    closed, the consumer has finished reading and [start] has settled
    after calling [onMetricsUpdate] exactly once more (when configured),
    with the number of responses, the processed-thought count and the
    joined responses of the turn. *)
Theorem turn_completes allowed prompt c ups fails now ts t o :
  allowed o -> answers_usable allowed ->
  Extractor.consume Extractor.reader_init [] ups <> None ->
  reachable allowed prompt c ups fails now ts t ->
  exists t', star (step allowed prompt) t t' /\ completed t'
    /\ exists m, metrics_log t' = metrics_log (turn_init c ups fails now ts)
                                  ++ (if Delivery.onMetricsUpdate c then [m] else [])
                 /\ responsesGenerated m = length (responses (proc t'))
                 /\ thoughtsProcessed m = thoughtsProcessedCount (proc t')
                 /\ fullText m = Js.join " " (responses (proc t')).
Proof.
  intros Ho Hu Hc Hr.
  destruct (turn_completes_run _ _ _ _ _ _ _ _ _ Ho Hu Hc Hr) as (t' & Hst & Hd).
  exists t'. split; [exact Hst|]. split; [exact Hd|].
  exact (completed_report _ _ _ _ _ _ _ _ (star_trans _ _ _ _ Hr Hst) Hd).
Qed.

(** C7: When the reasoning stream yields no thought and the endpoint can
    answer at all, the loop never stores a response, and from every state
    the turn reaches some execution completes it: the stream is closed
    with only the immediate answer (or its fallback) in it, and
    [onMetricsUpdate] is called once more (when configured) with no
    response and an empty [fullText]. *)
Theorem idle_turn_completes allowed prompt c ups fails now ts r t o :
  allowed o -> Extractor.consume Extractor.reader_init [] ups = Some (r, []) ->
  reachable allowed prompt c ups fails now ts t ->
  responses (proc t) = []
  /\ exists t', star (step allowed prompt) t t' /\ completed t' /\ responses (proc t') = []
       /\ exists m, metrics_log t' = metrics_log (turn_init c ups fails now ts)
                                     ++ (if Delivery.onMetricsUpdate c then [m] else [])
                    /\ responsesGenerated m = 0 /\ fullText m = "".
Proof.
  intros Ho Hc Hr.
  destruct (idle_turn_completes_run _ _ _ _ _ _ _ _ _ _ Ho Hc Hr) as (Hn & t' & Hst & Hd & Ht').
  split; [exact Hn|]. exists t'. split; [exact Hst|]. split; [exact Hd|]. split; [exact Ht'|].
  destruct (completed_report _ _ _ _ _ _ _ _ (star_trans _ _ _ _ Hr Hst) Hd) as (m & Hm & Hg & _ & Hf).
  exists m. rewrite Ht' in Hg, Hf. auto.
Qed.

Lemma turn_completes_witness :
  answers_hi (Delivery.HttpOkJson (Some "Hi there"))
  /\ answers_usable answers_hi
  /\ Extractor.consume Extractor.reader_init [] demo_upstream <> None
  /\ reachable answers_hi demo_prompt demo_config demo_upstream false 0 "T0"
       (turn_init demo_config demo_upstream false 0 "T0")
  /\ exists t', star (step answers_hi demo_prompt) (turn_init demo_config demo_upstream false 0 "T0") t'
       /\ completed t'
       /\ exists m, metrics_log t' = metrics_log (turn_init demo_config demo_upstream false 0 "T0")
                                     ++ (if Delivery.onMetricsUpdate demo_config then [m] else [])
                    /\ responsesGenerated m = length (responses (proc t'))
                    /\ thoughtsProcessed m = thoughtsProcessedCount (proc t')
                    /\ fullText m = Js.join " " (responses (proc t')).
Proof.
  assert (Ho : answers_hi (Delivery.HttpOkJson (Some "Hi there"))) by reflexivity.
  assert (Hu : answers_usable answers_hi) by (intros o ->; vm_compute; reflexivity).
  assert (Hc : Extractor.consume Extractor.reader_init [] demo_upstream <> None)
    by (vm_compute; discriminate).
  assert (Hr : reachable answers_hi demo_prompt demo_config demo_upstream false 0 "T0"
                 (turn_init demo_config demo_upstream false 0 "T0")) by apply star_refl.
  split; [exact Ho | split; [exact Hu | split; [exact Hc | split; [exact Hr|]]]].
  exact (turn_completes _ _ _ _ _ _ _ _ _ Ho Hu Hc Hr).
Defined.

Lemma idle_turn_completes_witness :
  endpoint_down (Delivery.HttpNotOk 500)
  /\ Extractor.consume Extractor.reader_init [] [TextDelta "0" "no markers here"]
     = Some (Extractor.mkReader "no markers here" 1, [])
  /\ reachable endpoint_down demo_prompt demo_config [TextDelta "0" "no markers here"] false 0 "T0"
       (turn_init demo_config [TextDelta "0" "no markers here"] false 0 "T0")
  /\ (responses (proc (turn_init demo_config [TextDelta "0" "no markers here"] false 0 "T0")) = []
      /\ exists t', star (step endpoint_down demo_prompt)
                        (turn_init demo_config [TextDelta "0" "no markers here"] false 0 "T0") t'
           /\ completed t' /\ responses (proc t') = []
           /\ exists m, metrics_log t'
                        = metrics_log (turn_init demo_config [TextDelta "0" "no markers here"] false 0 "T0")
                          ++ (if Delivery.onMetricsUpdate demo_config then [m] else [])
                        /\ responsesGenerated m = 0 /\ fullText m = "").
Proof.
  assert (Ho : endpoint_down (Delivery.HttpNotOk 500)) by reflexivity.
  assert (Hc : Extractor.consume Extractor.reader_init [] [TextDelta "0" "no markers here"]
               = Some (Extractor.mkReader "no markers here" 1, [])) by (vm_compute; reflexivity).
  assert (Hr : reachable endpoint_down demo_prompt demo_config [TextDelta "0" "no markers here"]
                 false 0 "T0" (turn_init demo_config [TextDelta "0" "no markers here"] false 0 "T0"))
    by apply star_refl.
  split; [exact Ho | split; [exact Hc | split; [exact Hr|]]].
  exact (idle_turn_completes _ _ _ _ _ _ _ _ _ _ Ho Hc Hr).
Defined.

End Report.
