(* ===== verification/Emission.v ===== *)
(** * The outward stream: the shape and the ids of every fragment

    A turn puts three kinds of parts on the outward stream
    ([natural-response-processor.ts]): the fallback delta of line 109
    under id ['1'], the words of an answer under [String(textId)] (line
    389) and the separator [' '] under [String(textId + 1000)] (line 402).
    The immediate answer uses [textId] 1; the generation loop starts its
    own [textId] at 1 (line 175) and increments it after every usable
    answer (line 197).  This file proves an invariant of [Fusion.step]
    that fixes the shape of every enqueued part (a text delta whose delta
    is not empty) and the range of its id (1 to 5 for words, 1001 to 1005
    for separators), and bounds the generation loop's counters: [waitCount]
    never exceeds 100 and [textId] never exceeds 6. *)

From Stdlib Require Import Ascii String List Lia Arith Bool.
From S2P Require Import Prelude ThoughtExtractor Delivery Pacing Middleware Fusion Liveness.
Import ListNotations.

Local Open Scope string_scope.
Local Open Scope js_scope.
Local Open Scope list_scope.

Module Emission.

Import Fusion Liveness.

(** A text delta whose id is the numeral of a number satisfying [P] and
    whose delta is not empty. *)
Definition fragment (P : nat -> Prop) (p : stream_part) : Prop :=
  exists n d, p = TextDelta (Js.of_nat n) d /\ d <> "" /\ P n.

Definition id_range (n : nat) : Prop := 1 <= n <= 5 \/ 1001 <= n <= 1005.

Definition nonempty (ws : list string) : Prop := Forall (fun w => w <> "") ws.

(** The generation loop's variables, in the stages that carry them. *)
Definition loop_vars_of (ph : stage) : option loop_vars :=
  match ph with
  | PAwaitRPC v _ | PStream v _ _ _ | PAwaitDelay v => Some v
  | _ => None
  end.

(** The queue holds well-formed fragments, the words still to stream are
    not empty, and the loop's [textId] is one more than the number of
    answers stored (the answer being streamed uses it). *)
Definition emit_inv (t : turn) : Prop :=
  Forall (fragment id_range) (Pacing.queue (out t))
  /\ match phase t with
     | PImmStream ws => nonempty ws
     | PAwaitRPC v _ | PAwaitDelay v =>
         textId v = S (length (responses (proc t))) /\ waitCount v <= 100
     | PStream v id _ ws =>
         id = S (length (responses (proc t))) /\ textId v = S id /\ waitCount v <= 100
         /\ nonempty ws
     | _ => True
     end.

(** What a client reads of one stored answer: its words joined by single
    spaces, then the separator. *)
Definition shown (r : string) : string := Js.join " " (Pacing.words_of r) +++ " ".

(** What a client read before the generation loop started: nothing (a
    blank immediate answer), the fallback, or a usable immediate answer. *)
Definition opening_ok (imm : string) : Prop :=
  imm = "" \/ imm = fallback_text \/ exists resp, usable resp = true /\ imm = shown resp.

(** The text of the outward stream, and the stored answers as shown. *)
Definition transcript (t : turn) : string := Pacing.visible_text (Pacing.queue (out t)).

Definition answers (t : turn) : string := String.concat "" (map shown (responses (proc t))).

Definition settled (t : turn) : Prop :=
  exists imm, opening_ok imm /\ transcript t = imm +++ answers t.

(** The transcript in each stage: empty before the immediate answer, the
    words pushed so far while an answer streams, and otherwise the
    opening followed by the stored answers. *)
Definition text_inv (t : turn) : Prop :=
  match phase t with
  | PStart | PImmediate _ => transcript t = ""
  | PImmStream ws =>
      exists resp pushed, usable resp = true
        /\ pushed ++ ws = Pacing.word_deltas (Pacing.words_of resp)
        /\ transcript t = String.concat "" pushed
  | PStream _ _ r ws =>
      exists imm pushed, opening_ok imm
        /\ pushed ++ ws = Pacing.word_deltas (Pacing.words_of r)
        /\ transcript t = imm +++ answers t +++ String.concat "" pushed
  | _ => settled t
  end.

(** ** The segments keep the invariant *)

Lemma fragment_word n w : 1 <= n <= 5 -> w <> "" -> fragment id_range (TextDelta (Js.of_nat n) w).
Proof. intros Hn Hw. exists n, w. unfold id_range. auto. Qed.

Lemma fragment_separator n : 1 <= n <= 5 -> fragment id_range (TextDelta (Js.of_nat (n + 1000)) " ").
Proof. intros Hn. exists (n + 1000), " ". unfold id_range. split; [reflexivity|]. split; [discriminate|lia]. Qed.

Lemma fragment_fallback : fragment id_range (TextDelta "1" fallback_text).
Proof. exists 1, fallback_text. unfold id_range. split; [reflexivity|]. split; [discriminate|lia]. Qed.

Lemma answer_words_nonempty (s : string) : nonempty (Pacing.word_deltas (Pacing.words_of s)).
Proof. apply Pacing.word_deltas_nonempty, Pacing.words_of_nonempty. Qed.

#[local] Hint Resolve fragment_word fragment_separator fragment_fallback answer_words_nonempty : js.

Lemma emit_loop_top t v :
  Forall (fragment id_range) (Pacing.queue (out t)) ->
  textId v = S (length (responses (proc t))) -> waitCount v <= 100 ->
  emit_inv (loop_top t v).
Proof.
  intros Hq Hid Hw. unfold loop_top. js_case_eqb; unfold emit_inv; turn_simpl; auto; lia.
Qed.

Lemma emit_loop_end t v :
  Forall (fragment id_range) (Pacing.queue (out t)) ->
  textId v = S (length (responses (proc t))) -> waitCount v <= 100 ->
  emit_inv (loop_end t v).
Proof.
  intros Hq Hid Hw. unfold loop_end. destruct (should_stop _); [|now apply emit_loop_top].
  unfold emit_inv; turn_simpl. auto.
Qed.

Lemma emit_start_concurrent t :
  Forall (fragment id_range) (Pacing.queue (out t)) -> responses (proc t) = [] ->
  emit_inv (start_concurrent t).
Proof. intros Hq Hr. apply emit_loop_top; cbn; [exact Hq | now rewrite Hr | lia]. Qed.

Lemma emit_set_consumer t c ts ps : emit_inv t -> emit_inv (set_consumer t c ts ps).
Proof. unfold emit_inv; turn_simpl. auto. Qed.

Lemma queue_record_first_response t :
  Pacing.queue (out (record_first_response t)) = Pacing.queue (out t).
Proof. now destruct (record_first_response_proc t) as (_ & _ & _ & _ & -> & _). Qed.

(** Before the loop starts no answer is stored. *)
Lemma inv_pre_responses t : inv t -> is_pre (phase t) = true -> responses (proc t) = [].
Proof.
  intros (_ & _ & _ & _ & Hph) E. destruct (phase t); try discriminate; intuition.
Qed.

(** While an answer streams, fewer than five answers are stored. *)
Lemma inv_stream_responses t v id r ws :
  inv t -> phase t = PStream v id r ws -> length (responses (proc t)) < 5.
Proof.
  intros (_ & _ & _ & _ & Hph) E. rewrite E in Hph.
  destruct Hph as (_ & [_ Hs] & _). now apply should_stop_false.
Qed.

Lemma emit_step allowed prompt t t' : inv t -> emit_inv t -> step allowed prompt t t' -> emit_inv t'.
Proof.
  intros Hi He Hs. pose proof He as [Hq Hph].
  destruct Hs as [t E | t pr o d resp E _ _ _ | t pr o d resp E _ _ _ | t pr o d c E _ _ Hc
                 | t w ws c E Hc | t c E Hc | t r p ps r' ts' _ _ _ | t r i d ps b ts' _ _ _
                 | t r _ _ _ | t r _ _ _ | t b _ | t v _ E | t v pr o d _ E _
                 | t v id r w ws c _ E Hc | t v id r c _ E Hc | t c _ E Hc | t _ E];
    try rewrite E in Hph.
  - unfold start_turn, emit_inv; turn_simpl. auto.
  - unfold emit_inv; turn_simpl. rewrite queue_record_first_response. cbn. auto with js.
  - apply emit_start_concurrent; [exact Hq|]. apply (inv_pre_responses t); [exact Hi | now rewrite E].
  - apply Pacing.enqueue_flags in Hc as (_ & _ & Hc).
    apply emit_start_concurrent; turn_simpl.
    + rewrite Hc. apply Forall_app. cbn. auto with js.
    + rewrite (proj1 (proj2 (record_first_response_proc _))). cbn.
      apply (inv_pre_responses t); [exact Hi | now rewrite E].
  - inversion Hph as [|? ? Hw Hws]; subst. unfold emit_inv; turn_simpl.
    split; [eapply Pacing.push_fragment_Forall; [exact Hq | apply (fragment_word 1); [lia | exact Hw] | exact Hc] | exact Hws].
  - apply emit_start_concurrent; turn_simpl.
    + eapply Pacing.push_fragment_Forall; eauto. apply (fragment_separator 1). lia.
    + apply (inv_pre_responses t); [exact Hi | now rewrite E].
  - now apply emit_set_consumer.
  - now apply emit_set_consumer.
  - now apply emit_set_consumer.
  - now apply emit_set_consumer.
  - exact He.
  - destruct Hph. apply emit_loop_end; turn_simpl; auto.
  - destruct Hph as [Hid Hw]. cbv zeta. destruct (usable _).
    + unfold emit_inv; turn_simpl. auto 6 with js.
    + apply emit_loop_end; turn_simpl; auto.
  - pose proof (inv_stream_responses t _ _ _ _ Hi E).
    destruct Hph as (-> & Hid & Hw & Hws). inversion Hws as [|? ? Hw1 Hws']; subst.
    unfold emit_inv; turn_simpl. repeat split; auto.
    eapply Pacing.push_fragment_Forall; eauto. apply fragment_word; auto; lia.
  - pose proof (inv_stream_responses t _ _ _ _ Hi E).
    destruct Hph as (-> & Hid & Hw & _). unfold finish_response.
    apply emit_loop_end; turn_simpl; rewrite ?length_app; cbn [length].
    + eapply Pacing.push_fragment_Forall; eauto. apply fragment_separator. lia.
    + lia.
    + lia.
  - apply Pacing.close_flags in Hc as (_ & _ & Hc). unfold emit_inv; turn_simpl.
    rewrite Hc. auto.
  - unfold emit_inv, send_metrics; turn_simpl. auto.
Qed.

Lemma emit_reachable allowed prompt c ups fails now ts t :
  reachable allowed prompt c ups fails now ts t -> inv t /\ emit_inv t.
Proof.
  intros H. split; [exact (inv_reachable _ _ _ _ _ _ _ _ H)|].
  unfold reachable in H.
  assert (H0 : emit_inv (turn_init c ups fails now ts)) by (unfold emit_inv; cbn; auto).
  revert H0. remember (turn_init c ups fails now ts) as t0 eqn:E0.
  assert (Hi : inv t0) by (subst; apply (inv_reachable allowed prompt c ups fails now ts), star_refl).
  clear E0. induction H as [t0 | t0 t1 t2 S1 S2 IH]; intros H0; [exact H0|].
  apply IH; [exact (inv_step _ _ _ _ Hi S1) | exact (emit_step _ _ _ _ Hi H0 S1)].
Qed.

(** ** The transcript *)

Lemma concat_nil_cons (x : string) (l : list string) :
  String.concat "" (x :: l) = x +++ String.concat "" l.
Proof. destruct l; cbn; [symmetry; apply str_app_nil_r | reflexivity]. Qed.

Lemma concat_nil_app (l1 l2 : list string) :
  String.concat "" (l1 ++ l2) = String.concat "" l1 +++ String.concat "" l2.
Proof.
  induction l1 as [|x l1 IH]; [reflexivity|].
  rewrite <- app_comm_cons, !concat_nil_cons, IH. symmetry. apply str_app_assoc.
Qed.

Lemma concat_word_deltas (ws : list string) :
  String.concat "" (Pacing.word_deltas ws) = Js.join " " ws.
Proof.
  rewrite <- (Pacing.visible_word_deltas "" ws). generalize (Pacing.word_deltas ws).
  induction l as [|x l IH]; [reflexivity|]. cbn [map Pacing.visible_text].
  now rewrite concat_nil_cons, IH.
Qed.

(** An unerrored push adds its delta to the transcript. *)
Lemma transcript_push t i d c :
  Pacing.errored (out t) = false -> Pacing.push_fragment (out t) (TextDelta i d) = Some c ->
  Pacing.visible_text (Pacing.queue c) = Pacing.visible_text (Pacing.queue (out t)) +++ d.
Proof.
  intros He Hp.
  rewrite (Pacing.push_fragment_enqueues _ _ _ He Hp), Pacing.visible_text_app. cbn.
  now rewrite str_app_nil_r.
Qed.

Lemma settled_loop_top t v : settled t -> text_inv (loop_top t v).
Proof.
  unfold loop_top. js_case_eqb; unfold text_inv, settled, transcript, answers; turn_simpl; auto.
Qed.

Lemma settled_loop_end t v : settled t -> text_inv (loop_end t v).
Proof.
  unfold loop_end. destruct (should_stop _); [|apply settled_loop_top].
  unfold text_inv, settled, transcript, answers; turn_simpl; auto.
Qed.

Lemma settled_start_concurrent t imm :
  opening_ok imm -> responses (proc t) = [] -> transcript t = imm -> text_inv (start_concurrent t).
Proof.
  intros Ho Hr Ht. apply settled_loop_top. exists imm. split; [exact Ho|].
  unfold transcript, answers in *; cbn. rewrite Hr, Ht. cbn. symmetry. apply str_app_nil_r.
Qed.

Lemma text_set_consumer t c ts ps : text_inv t -> text_inv (set_consumer t c ts ps).
Proof. unfold text_inv, settled, transcript, answers; turn_simpl. auto. Qed.

Lemma text_step allowed prompt t t' : inv t -> text_inv t -> step allowed prompt t t' -> text_inv t'.
Proof.
  intros Hi Ht Hs. pose proof Hi as (He & _).
  destruct Hs as [t E | t pr o d resp E _ _ Hu | t pr o d resp E _ _ _ | t pr o d c E _ _ Hc
                 | t w ws c E Hc | t c E Hc | t r p ps r' ts' _ _ _ | t r i d ps b ts' _ _ _
                 | t r _ _ _ | t r _ _ _ | t b _ | t v _ E | t v pr o d _ E _
                 | t v id r w ws c _ E Hc | t v id r c _ E Hc | t c _ E Hc | t _ E];
    unfold text_inv in Ht; try rewrite E in Ht.
  - unfold start_turn, text_inv, transcript in *; turn_simpl. exact Ht.
  - unfold text_inv, transcript in *; turn_simpl. rewrite queue_record_first_response.
    exists resp, []. auto.
  - apply (settled_start_concurrent _ ""); [now left | | exact Ht].
    apply (inv_pre_responses t); [exact Hi | now rewrite E].
  - pose proof Hc as Hq. apply Pacing.enqueue_flags in Hq as (_ & _ & Hq).
    apply (settled_start_concurrent _ fallback_text); [now right; left | | ].
    + pose proof (record_first_response_proc (tick t d)) as (_ & Hr & _). turn_simpl.
      rewrite Hr. apply (inv_pre_responses t); [exact Hi | now rewrite E].
    + unfold transcript in *; turn_simpl. rewrite Hq, Pacing.visible_text_app, Ht.
      reflexivity.
  - destruct Ht as (resp & pushed & Hu & Hw & Ht). unfold text_inv; turn_simpl.
    exists resp, (pushed ++ [w]). split; [exact Hu|]. split; [now rewrite <- app_assoc|].
    unfold transcript in *; turn_simpl.
    rewrite (transcript_push t _ _ c He Hc), Ht, concat_nil_app. reflexivity.
  - destruct Ht as (resp & pushed & Hu & Hw & Ht). rewrite app_nil_r in Hw.
    apply (settled_start_concurrent _ (shown resp)); [right; right; eauto | | ].
    + apply (inv_pre_responses t); [exact Hi | now rewrite E].
    + unfold transcript in *; turn_simpl.
      rewrite (transcript_push t _ _ c He Hc), Ht, Hw, concat_word_deltas. reflexivity.
  - now apply text_set_consumer.
  - now apply text_set_consumer.
  - now apply text_set_consumer.
  - now apply text_set_consumer.
  - unfold text_inv; exact Ht.
  - apply settled_loop_end. unfold settled, transcript, answers in *; turn_simpl. exact Ht.
  - cbv zeta. destruct Ht as (imm & Ho & Ht). destruct (usable _).
    + unfold text_inv, transcript, answers in *; turn_simpl. exists imm, [].
      split; [exact Ho|]. split; [reflexivity|]. rewrite Ht. cbn. now rewrite str_app_nil_r.
    + apply settled_loop_end. unfold settled, transcript, answers in *; turn_simpl. eauto.
  - destruct Ht as (imm & pushed & Ho & Hw & Ht). unfold text_inv; turn_simpl.
    exists imm, (pushed ++ [w]). split; [exact Ho|]. split; [now rewrite <- app_assoc|].
    unfold transcript in *; turn_simpl. rewrite (transcript_push t _ _ c He Hc), Ht, concat_nil_app. unfold answers; turn_simpl.
    rewrite !str_app_assoc. reflexivity.
  - destruct Ht as (imm & pushed & Ho & Hw & Ht). rewrite app_nil_r in Hw.
    unfold finish_response. apply settled_loop_end. exists imm. split; [exact Ho|].
    unfold transcript, answers in *; turn_simpl. rewrite map_app, concat_nil_app.
    rewrite (transcript_push t _ _ c He Hc), Ht, Hw, concat_word_deltas.
    unfold shown. cbn [map String.concat]. rewrite !str_app_assoc. reflexivity.
  - apply Pacing.close_flags in Hc as (_ & _ & Hc).
    unfold text_inv, settled, transcript, answers in *; turn_simpl. rewrite Hc. exact Ht.
  - unfold text_inv, settled, transcript, answers, send_metrics in *; turn_simpl. exact Ht.
Qed.

Lemma text_reachable allowed prompt c ups fails now ts t :
  reachable allowed prompt c ups fails now ts t -> text_inv t.
Proof.
  unfold reachable. intros H.
  assert (H0 : text_inv (turn_init c ups fails now ts)) by reflexivity.
  assert (Hi : inv (turn_init c ups fails now ts))
    by (apply (inv_reachable allowed prompt c ups fails now ts), star_refl).
  revert H0 Hi. induction H as [t0 | t0 t1 t2 S1 S2 IH]; intros H0 Hi; [exact H0|].
  apply IH; [exact (text_step _ _ _ _ Hi H0 S1) | exact (inv_step _ _ _ _ Hi S1)].
Qed.

(** Every loop stage has [textId] at most 6 and [waitCount] at most 100. *)
Lemma emit_loop_vars t v :
  inv t -> emit_inv t -> loop_vars_of (phase t) = Some v -> waitCount v <= 100 /\ textId v <= 6.
Proof.
  intros Hi [_ Hph] E. pose proof Hi as (_ & _ & _ & L5 & _).
  destruct (phase t) eqn:Ep; try discriminate; injection E as <-.
  - lia.
  - pose proof (inv_stream_responses t _ _ _ _ Hi Ep). lia.
  - lia.
Qed.

(** ** What the outward stream carries *)

(** C27: Every part a turn has put on the outward stream, in every
    reachable state, is a text delta whose id is a decimal numeral and
    whose delta is not empty. *)
Theorem emitted_text_deltas allowed prompt c ups fails now ts t :
  reachable allowed prompt c ups fails now ts t ->
  Forall (fun p => exists n d, p = TextDelta (Js.of_nat n) d /\ d <> "") (Pacing.queue (out t)).
Proof.
  intros H. destruct (emit_reachable _ _ _ _ _ _ _ _ H) as (_ & Hq & _).
  eapply Forall_impl; [|exact Hq]. intros p (n & d & E & Hd & _). eauto.
Qed.

(** C26: In every reachable state of a turn, the ids of the parts on the
    outward stream are 1 to 5 (words) or 1001 to 1005 (separators), and
    the generation loop has waited at most 100 times in a row and its
    [textId] is at most 6. *)
Theorem emitted_ids_bounded allowed prompt c ups fails now ts t :
  reachable allowed prompt c ups fails now ts t ->
  Forall (fun p => exists n d, p = TextDelta (Js.of_nat n) d /\ (1 <= n <= 5 \/ 1001 <= n <= 1005))
         (Pacing.queue (out t))
  /\ (forall v, loop_vars_of (phase t) = Some v -> waitCount v <= 100 /\ textId v <= 6).
Proof.
  intros H. destruct (emit_reachable _ _ _ _ _ _ _ _ H) as (Hi & He). split.
  - eapply Forall_impl; [|exact (proj1 He)]. intros p (n & d & E & _ & Hn). eauto.
  - intros v. exact (emit_loop_vars t v Hi He).
Qed.

(** C25: Once a turn has closed its outward stream, the text a client has
    read from it is the opening (nothing, the fallback sentence, or a
    usable immediate answer) followed by every stored answer in order,
    each as its words joined by single spaces and then one space: the
    stream carries the stored answers and nothing else. *)
Theorem closed_transcript allowed prompt c ups fails now ts t :
  reachable allowed prompt c ups fails now ts t -> Pacing.closed (out t) = true ->
  exists imm,
    (imm = "" \/ imm = fallback_text
     \/ exists resp, usable resp = true /\ imm = Js.join " " (Pacing.words_of resp) +++ " ")
    /\ Pacing.visible_text (Pacing.queue (out t))
       = imm +++ String.concat "" (map (fun r => Js.join " " (Pacing.words_of r) +++ " ")
                                      (responses (proc t))).
Proof.
  intros H Hc. pose proof (text_reachable _ _ _ _ _ _ _ _ H) as Ht.
  apply (inv_closed t (inv_reachable _ _ _ _ _ _ _ _ H)) in Hc.
  unfold text_inv in Ht. destruct Hc as [E|E]; rewrite E in Ht; exact Ht.
Qed.

Lemma emitted_text_deltas_witness :
  exists t, reachable any_outcome demo_prompt demo_config demo_upstream false 0 "T0" t
       /\ Forall (fun p => exists n d, p = TextDelta (Js.of_nat n) d /\ d <> "") (Pacing.queue (out t)).
Proof.
  destruct demo_closes as (t & Hr & _). exists t. split; [exact Hr|].
  exact (emitted_text_deltas _ _ _ _ _ _ _ _ Hr).
Defined.

Lemma emitted_ids_bounded_witness :
  exists t, reachable any_outcome demo_prompt demo_config demo_upstream false 0 "T0" t
       /\ Forall (fun p => exists n d, p = TextDelta (Js.of_nat n) d
                                        /\ (1 <= n <= 5 \/ 1001 <= n <= 1005))
                 (Pacing.queue (out t))
       /\ (forall v, loop_vars_of (phase t) = Some v -> waitCount v <= 100 /\ textId v <= 6).
Proof.
  destruct demo_closes as (t & Hr & _). exists t. split; [exact Hr|].
  exact (emitted_ids_bounded _ _ _ _ _ _ _ _ Hr).
Defined.

Lemma closed_transcript_witness :
  exists t, reachable any_outcome demo_prompt demo_config demo_upstream false 0 "T0" t
       /\ Pacing.closed (out t) = true
       /\ exists imm,
            (imm = "" \/ imm = fallback_text
             \/ exists resp, usable resp = true /\ imm = Js.join " " (Pacing.words_of resp) +++ " ")
            /\ Pacing.visible_text (Pacing.queue (out t))
               = imm +++ String.concat "" (map (fun r => Js.join " " (Pacing.words_of r) +++ " ")
                                              (responses (proc t))).
Proof.
  destruct demo_closes as (t & Hr & Hp). exists t.
  assert (Hc : Pacing.closed (out t) = true)
    by (apply (inv_closed t (inv_reachable _ _ _ _ _ _ _ _ Hr)); auto).
  split; [exact Hr|]. split; [exact Hc|].
  exact (closed_transcript _ _ _ _ _ _ _ _ Hr Hc).
Defined.

End Emission.
