(* ===== verification/Wrapper.v ===== *)
(** * The middlewares as [LanguageModelV2Middleware] values, and the wrapped model

    A middleware of the AI SDK is a record of two operations:
    [transformParams] rewrites the call's parameters and [wrapStream]
    receives [doStream] (the wrapped model's own streaming call) and the
    transformed parameters and returns the stream result the caller sees.
    [streamNaturalTextMiddleware]
    ([stream-natural-text-middleware.ts], lines 42-126) adds the system
    prompt and replaces the model's stream by the processor's
    ([processStream], started as [Fusion.turn_init] and run by
    [Fusion.step] under the transformed prompt); [testStreamMiddleware]
    ([test-middleware.ts]) leaves both unchanged.  [wrapLanguageModel]
    (a library call) runs [transformParams] and hands its result to
    [wrapStream]; [wrapped_stream] is that composition. *)

From Stdlib Require Import Ascii String List Lia Arith Bool.
From S2P Require Import Prelude Delivery Pacing SimpleTransform Middleware Fusion.
Import ListNotations.

Local Open Scope string_scope.

Module Wrapper.

Import Fusion.

(** What [await doStream()] gives: a rejection with its error, or the
    model's stream (its parts and whether it errors after them) and the
    other fields of the result ([request], [response]), kept as they are. *)
Inductive do_stream_result :=
| Rejects (error : string)
| Resolves (parts : list stream_part) (fails : bool) (rest : list (string * string)).

(** The stream a [wrapStream] returns: the model's own, the
    processor's stream over a turn run with the given parameters, or the
    stream [pump] fills. *)
Inductive stream :=
| Upstream (parts : list stream_part) (fails : bool)
| Natural (params : list Middleware.message) (t : turn)
| Transformed (c : Pacing.controller).

(** [LanguageModelV2Middleware]: the calls of [onMetricsUpdate] made while
    [wrapStream] runs, then a thrown error or the stream and the other
    fields of the result. *)
Record middleware := mkMiddleware {
  transform_params : list Middleware.message -> list Middleware.message;
  wrap_stream : list Middleware.message -> do_stream_result ->
                list metrics * (string + (stream * list (string * string))) }.

(** Lines 96-124: [new NaturalResponseProcessor(config)] reports through
    [onMetricsUpdate] (lines 33-43 of the processor), then [doStream] is
    awaited; its rejection is caught, logged and rethrown. *)
Definition natural_wrap_stream (c : Delivery.config) (now : nat) (timestamp : string)
  (params : list Middleware.message) (r : do_stream_result)
  : list metrics * (string + (stream * list (string * string))) :=
  let reported := if Delivery.onMetricsUpdate c then [constructor_metrics timestamp] else [] in
  match r with
  | Rejects e => (reported, inl e)
  | Resolves parts fails rest =>
      (reported, inr (Natural params (turn_init c parts fails now timestamp), rest))
  end.

(** [streamNaturalTextMiddleware(config)] (lines 42-126). *)
Definition stream_natural_text_middleware (c : Delivery.config) (now : nat) (timestamp : string)
  : middleware :=
  mkMiddleware Middleware.transform_prompt (natural_wrap_stream c now timestamp).

(** [testStreamMiddleware()] (test-middleware.ts, lines 7-25): the
    parameters and the result are returned as they are; a rejection of
    [doStream] propagates through the [await]. *)
Definition test_stream_middleware : middleware :=
  mkMiddleware (fun params => params)
    (fun _ r => ([], match r with
                     | Rejects e => inl e
                     | Resolves parts fails rest => inr (Upstream parts fails, rest)
                     end)).

(** [simpleTransformMiddleware()] (simple-transform-middleware.ts,
    lines 9-58): no [transformParams]; [wrapStream] awaits [doStream]
    (a rejection propagates), returns the stream [pump] fills, and keeps
    only the [request] and [response] fields of the result. *)
Definition simple_transform_middleware : middleware :=
  mkMiddleware (fun params => params)
    (fun _ r => ([], match r with
                     | Rejects e => inl e
                     | Resolves parts fails rest =>
                         inr (Transformed (SimpleTransform.transformed_stream parts fails),
                              filter (fun kv => String.eqb (fst kv) "request"
                                                || String.eqb (fst kv) "response") rest)
                     end)).

(** [wrapLanguageModel]'s streaming call. *)
Definition wrapped_stream (mw : middleware) (prompt : list Middleware.message) (r : do_stream_result)
  : list metrics * (string + (stream * list (string * string))) :=
  wrap_stream mw (transform_params mw prompt) r.

(** ** The stream the wrapped model returns *)

(** The only step from a new turn is [start], which sends the immediate
    request. *)
Lemma turn_init_step allowed prompt c parts fails now ts t :
  step allowed prompt (turn_init c parts fails now ts) t ->
  t = start_turn (turn_init c parts fails now ts) prompt.
Proof. intros H. inversion H; try discriminate; reflexivity. Qed.

Lemma start_turn_requests t prompt :
  requests t = [] ->
  requests (start_turn t prompt)
  = [(Delivery.tgi_url (Delivery.huggingfaceEndpointUrl (cfg t)),
      Delivery.make_request_body (cfg t)
        (Delivery.immediate_prompt (Middleware.extract_user_input prompt)))].
Proof. intros H. unfold start_turn; turn_simpl. now rewrite H. Qed.

(** C28: Through [wrapLanguageModel], the natural-text middleware rethrows
    a rejection of [doStream] unchanged; otherwise it returns, with the
    other fields of the model's result, a turn over exactly the model's
    stream whose first step sends one request, the immediate prompt built
    from the user's own question: the system prompt [transformParams]
    adds never reaches the delivery model. *)
Theorem natural_stream_composition c now ts prompt r :
  match wrapped_stream (stream_natural_text_middleware c now ts) prompt r with
  | (_, inl e) => r = Rejects e
  | (_, inr (Natural params t0, rest)) =>
      exists parts fails,
        r = Resolves parts fails rest /\ t0 = turn_init c parts fails now ts
        /\ forall allowed t, step allowed params t0 t ->
             requests t = [(Delivery.tgi_url (Delivery.huggingfaceEndpointUrl c),
                            Delivery.make_request_body c
                              (Delivery.immediate_prompt (Middleware.extract_user_input prompt)))]
  | (_, inr (_, _)) => False
  end.
Proof.
  destruct r as [e|parts fails rest]; cbn; [reflexivity|].
  exists parts, fails. split; [reflexivity|]. split; [reflexivity|].
  intros allowed t H. apply turn_init_step in H as ->.
  rewrite start_turn_requests by reflexivity. cbn.
  now rewrite Middleware.extract_user_input_transform.
Qed.

End Wrapper.
