(* ===== verification/ChatUI.v ===== *)
(** * The web client: the chat input, the message list and the chat page

    [src/apps/web/components/ui/chat-input.tsx], [message-list.tsx],
    [message.tsx] and [src/apps/web/app/chat/page.tsx].  A React component
    is modelled by its state ([useState]), its event handlers as functions
    from the props and the state to the new state and the callback it
    makes, and its render as a record of the attributes the code computes
    (class names, [disabled], contents).  The browser's part is written
    out where the code relies on it: a disabled control receives no
    events, and [form.requestSubmit()] runs the form's [onSubmit] handler.
    [useChat] is a library: its state (messages, status, error) changes
    by events of its own, which the page model takes as arbitrary. *)

From Stdlib Require Import Ascii String List Lia Arith Bool.
From S2P Require Import Prelude.
Import ListNotations.

Local Open Scope string_scope.
Local Open Scope js_scope.

(** ** [ChatInput] (chat-input.tsx) *)

Module ChatInput.

Record props := mkProps { isLoading : bool; disabled : bool }.

(** The events the component handles: the textarea's [onChange] and
    [onKeyDown], and a click on the send button.  Typing, Shift+Enter
    included, reaches the state through [Change]. *)
Inductive event :=
| Change (value : string)
| KeyDown (key : string) (shiftKey : bool)
| ClickSend.

(** [handleFormSubmit] (lines 35-42): the new [input] and the argument of
    the [onSubmit] call, if it is made. *)
Definition handle_form_submit (p : props) (input : string) : string * option string :=
  if Js.truthy (Js.trim input) && negb (isLoading p) then ("", Some input) else (input, None).

(** [handleKeyDown] (lines 19-33): Enter without Shift submits the form
    through [form.requestSubmit()], which runs [handleFormSubmit]. *)
Definition handle_key_down (p : props) (key : string) (shiftKey : bool) (input : string)
  : string * option string :=
  if String.eqb key "Enter" && negb shiftKey then
    if negb (isLoading p) && Js.truthy (Js.trim input) then handle_form_submit p input
    else (input, None)
  else (input, None).

(** Line 52. *)
Definition textarea_disabled (p : props) : bool := disabled p || isLoading p.

(** Line 72. *)
Definition send_disabled (p : props) (input : string) : bool :=
  negb (Js.truthy (Js.trim input)) || isLoading p || disabled p.

(** An event reaches its handler when its control is enabled (lines 45,
    49-52 and 69-72). *)
Definition dispatch (p : props) (e : event) (input : string) : string * option string :=
  match e with
  | Change value => if textarea_disabled p then (input, None) else (value, None)
  | KeyDown key shiftKey =>
      if textarea_disabled p then (input, None) else handle_key_down p key shiftKey input
  | ClickSend => if send_disabled p input then (input, None) else handle_form_submit p input
  end.

(** [s.split(c)]: every occurrence of [c] separates, empty fields kept. *)
Fixpoint split_char (c : ascii) (s : string) : list string :=
  match s with
  | EmptyString => [EmptyString]
  | String c' s' =>
      if (c' =? c)%char then EmptyString :: split_char c s'
      else match split_char c s' with
           | w :: ws => String c' w :: ws
           | [] => [String c' EmptyString]
           end
  end.

Inductive icon := Loader2 | Send.

Record view := mkView {
  value : string;
  textarea_off : bool;
  overflowY : string;
  send_off : bool;
  button_icon : icon }.

(** The rendered attributes (lines 44-82). *)
Definition render_input (p : props) (input : string) : view :=
  mkView input (textarea_disabled p)
         (if Nat.ltb 3 (length (split_char (ascii_of_nat 10) input)) then "auto" else "hidden")
         (send_disabled p input)
         (if isLoading p then Loader2 else Send).

End ChatInput.

(** ** [MessageList] and [Message] (message-list.tsx, message.tsx) *)

Module MessageList.

Inductive role := RSystem | RUser | RAssistant.

Definition role_eqb (a b : role) : bool :=
  match a, b with
  | RSystem, RSystem | RUser, RUser | RAssistant, RAssistant => true
  | _, _ => false
  end.

(** A part of a [UIMessage]: a text part's [text] may be missing. *)
Inductive ui_part :=
| UText (text : option string)
| UOther (type_ : string).

Record ui_message := mkMessage { id : string; role_ : role; parts : option (list ui_part) }.

(** [x || ''] for a string that may be missing. *)
Definition or_empty (s : option string) : string :=
  match s with Some t => if Js.truthy t then t else "" | None => "" end.

(** [.filter(part => part.type === 'text').map(part => part.text || '')]. *)
Fixpoint part_texts (ps : list ui_part) : list string :=
  match ps with
  | [] => []
  | UText t :: ps' => or_empty t :: part_texts ps'
  | UOther _ :: ps' => part_texts ps'
  end.

(** Lines 43-48 of message-list.tsx. *)
Definition content_of (m : ui_message) : string :=
  or_empty (option_map (fun ps => Js.join "" (part_texts ps)) (parts m)).

(** The props of one [Message]. *)
Record bubble := mkBubble { key : option string; brole : role; content : string; isStreaming : bool }.

Inductive list_view :=
| EmptyState                        (** lines 20-32 *)
| Bubbles (bs : list bubble).       (** lines 34-59 *)

(** [MessageList] (lines 10-61). *)
Definition message_list (messages : list ui_message) (isLoading : bool) : list_view :=
  if Nat.eqb (length messages) 0 then EmptyState
  else Bubbles (map (fun m => mkBubble (Some (id m)) (role_ m) (content_of m) false) messages
                ++ (if isLoading && match nth_error messages (length messages - 1) with
                                    | Some m => role_eqb (role_ m) RUser
                                    | None => false
                                    end
                    then [mkBubble None RAssistant "" true] else [])).

Inductive avatar := UserAvatar | AssistantAvatar.

Record message_view := mkMessageView {
  row_class : string;
  bubble_class : string;
  avatar_ : avatar;
  text : string;
  cursor : bool }.

(** [Message] (message.tsx, lines 10-42): [cn] joins the class names. *)
Definition message_component (r : role) (content : string) (isStreaming : bool) : message_view :=
  let user := role_eqb r RUser in
  mkMessageView ("flex w-full mb-4 " +++ if user then "justify-end" else "justify-start")
                ("max-w-[80%] rounded-lg px-4 py-2 text-sm "
                 +++ if user then "bg-primary text-primary-foreground ml-4"
                     else "bg-muted text-muted-foreground mr-4")
                (if user then UserAvatar else AssistantAvatar) content isStreaming.

End MessageList.

(** ** [ChatPage] (app/chat/page.tsx) *)

Module ChatPage.

(** [useChat]'s [status]. *)
Inductive status := Submitted | Streaming | Ready | Failed.

(** Line 25. *)
Definition is_loading (s : status) : bool :=
  match s with Streaming | Submitted => true | _ => false end.

(** The page's state: what [useChat] returns (line 10), the error by its
    [message], and the input's [useState]. *)
Record page := mkPage {
  messages : list MessageList.ui_message;
  status_ : status;
  chat_error : option string;
  input : string }.

(** Lines 67-71. *)
Definition input_props (pg : page) : ChatInput.props :=
  ChatInput.mkProps (is_loading (status_ pg)) (match chat_error pg with Some _ => true | None => false end).

(** Lines 47-52. *)
Definition error_banner (e : option string) : option string :=
  match e with
  | Some m => Some ("Error: " +++ if Js.truthy m then m else "Something went wrong. Please try again.")
  | None => None
  end.

Record page_view := mkPageView {
  banner : option string;
  message_area : MessageList.list_view;
  input_view : ChatInput.view }.

(** Lines 27-74. *)
Definition render_page (pg : page) : page_view :=
  mkPageView (error_banner (chat_error pg))
             (MessageList.message_list (messages pg) (is_loading (status_ pg)))
             (ChatInput.render_input (input_props pg) (input pg)).

(** What happens on the page: the user acts on the input, or [useChat]
    re-renders the page with new messages, status and error. *)
Inductive page_event :=
| UserEvent (e : ChatInput.event)
| ChatUpdate (msgs : list MessageList.ui_message) (st : status) (err : option string).

(** A call of [sendMessage] (line 68), with the page's status and error
    when it is made. *)
Record submission := mkSubmission { sub_text : string; sub_status : status; sub_error : option string }.

Definition page_step (pg : page) (ev : page_event) : page * option submission :=
  match ev with
  | UserEvent e =>
      let (input', sent) := ChatInput.dispatch (input_props pg) e (input pg) in
      (mkPage (messages pg) (status_ pg) (chat_error pg) input',
       option_map (fun txt => mkSubmission txt (status_ pg) (chat_error pg)) sent)
  | ChatUpdate msgs st err => (mkPage msgs st err (input pg), None)
  end.

Fixpoint page_run (pg : page) (evs : list page_event) : page * list submission :=
  match evs with
  | [] => (pg, [])
  | ev :: evs' =>
      let (pg1, s) := page_step pg ev in
      let (pg2, ss) := page_run pg1 evs' in
      (pg2, match s with Some x => x :: ss | None => ss end)
  end.

(** ** What the input submits *)

(** A call of [onSubmit] carries a text that is not blank, from an input
    that was neither loading nor disabled. *)
Lemma dispatch_sent p e input input' txt :
  ChatInput.dispatch p e input = (input', Some txt) ->
  Js.truthy (Js.trim txt) = true /\ ChatInput.isLoading p = false /\ ChatInput.disabled p = false.
Proof.
  destruct p as [l d]. unfold ChatInput.dispatch, ChatInput.handle_key_down,
    ChatInput.handle_form_submit, ChatInput.textarea_disabled, ChatInput.send_disabled; cbn.
  destruct e as [v|k sh|]; destruct l, d; cbn; try (intros H; discriminate H);
    destruct (Js.truthy (Js.trim input)) eqn:T; cbn;
    try destruct (String.eqb k "Enter" && negb sh); cbn; intros H; inversion H; subst; auto.
Qed.

Lemma input_props_guard pg :
  ChatInput.isLoading (input_props pg) = false -> ChatInput.disabled (input_props pg) = false ->
  is_loading (status_ pg) = false /\ chat_error pg = None.
Proof. unfold input_props; cbn. destruct (chat_error pg); [discriminate|auto]. Qed.

Lemma page_step_sent pg ev pg' sub :
  page_step pg ev = (pg', Some sub) ->
  Js.truthy (Js.trim (sub_text sub)) = true /\ is_loading (sub_status sub) = false
  /\ sub_error sub = None.
Proof.
  destruct ev as [e|msgs st err]; cbn; [|discriminate].
  destruct (ChatInput.dispatch (input_props pg) e (input pg)) as [i' [txt|]] eqn:D;
    cbn; [|discriminate].
  intros H; inversion H; subst; cbn.
  destruct (dispatch_sent _ _ _ _ _ D) as (T & L & Dd).
  destruct (input_props_guard pg L Dd). auto.
Qed.

(** C29: However [useChat]'s state changes and whatever the user does,
    every message the chat page sends is not blank, and is sent while the
    page is neither loading (status [submitted] or [streaming]) nor
    showing an error. *)
Theorem submissions_guarded pg evs :
  Forall (fun s => Js.truthy (Js.trim (sub_text s)) = true /\ is_loading (sub_status s) = false
                   /\ sub_error s = None)
         (snd (page_run pg evs)).
Proof.
  revert pg. induction evs as [|ev evs IH]; intros pg; cbn; [constructor|].
  destruct (page_step pg ev) as [pg1 [sub|]] eqn:S; destruct (page_run pg1 evs) as [pg2 ss] eqn:R;
    cbn; specialize (IH pg1); rewrite R in IH; cbn in IH; [|exact IH].
  constructor; [exact (page_step_sent _ _ _ _ S) | exact IH].
Qed.

(** C30: While the textarea is enabled, pressing Enter without Shift does
    exactly what a click on the send button does: both submit the input
    and clear it when it is not blank, and both do nothing otherwise. *)
Theorem enter_is_send p input :
  ChatInput.textarea_disabled p = false ->
  ChatInput.dispatch p (ChatInput.KeyDown "Enter" false) input = ChatInput.dispatch p ChatInput.ClickSend input.
Proof.
  destruct p as [[|] [|]]; unfold ChatInput.textarea_disabled; cbn; try discriminate.
  intros _. unfold ChatInput.handle_key_down, ChatInput.send_disabled, ChatInput.handle_form_submit; cbn.
  destruct (Js.truthy (Js.trim input)); reflexivity.
Qed.

Lemma enter_is_send_witness :
  ChatInput.textarea_disabled (ChatInput.mkProps false false) = false
  /\ ChatInput.dispatch (ChatInput.mkProps false false) (ChatInput.KeyDown "Enter" false) " hi "
     = ChatInput.dispatch (ChatInput.mkProps false false) ChatInput.ClickSend " hi ".
Proof.
  assert (H : ChatInput.textarea_disabled (ChatInput.mkProps false false) = false) by reflexivity.
  split; [exact H | exact (enter_is_send _ " hi " H)].
Defined.

End ChatPage.
