(* ===== verification/Scheduler.v ===== *)
(** * An executable scheduler for a turn

    [Fusion.step] leaves open which task runs next and what the
    delivery endpoint answers.  Here a [choice] fixes both for one
    segment, [run_step] runs that segment, and [exec] runs a whole
    schedule.  [run_step_iff] shows that the steps of [Fusion.step] are
    exactly the segments [run_step] runs for some allowed choice, so a
    schedule evaluated by [vm_compute] is an execution of the turn
    ([exec_star]).  The scenarios at the end of the file are computed
    this way. *)

From Stdlib Require Import Ascii String List Lia Arith Bool.
From S2P Require Import Prelude ThoughtExtractor Delivery Pacing Middleware Fusion Liveness.
Import ListNotations.

Local Open Scope string_scope.
Local Open Scope js_scope.
Local Open Scope list_scope.

Module Scheduler.
Import Fusion.

(** Which segment runs next, with the outcome and duration of a
    delivery call where the segment awaits one. *)
Inductive choice :=
| RunStart
| RunImmediate (o : Delivery.fetch_outcome) (d : nat)
| RunImmWord
| RunRead
| RunSpin
| RunDelay
| RunRpc (o : Delivery.fetch_outcome) (d : nat)
| RunWord
| RunClose
| RunMetrics.

Definition choice_allowed (allowed : Delivery.fetch_outcome -> Prop) (ch : choice) : Prop :=
  match ch with
  | RunImmediate o _ | RunRpc o _ => allowed o
  | _ => True
  end.

(** The segment a choice runs, [None] when it cannot run. *)
Definition run_step (prompt : list Middleware.message) (ch : choice) (t : turn) : option turn :=
  match ch with
  | RunStart =>
      match phase t with PStart => Some (start_turn t prompt) | _ => None end
  | RunImmediate o d =>
      match phase t with
      | PImmediate _ =>
          match Delivery.call_smollm o with
          | Delivery.CallOk resp =>
              if usable resp
              then Some (set_phase (record_first_response (tick t d))
                                   (PImmStream (Pacing.word_deltas (Pacing.words_of resp))))
              else Some (start_concurrent (tick t d))
          | Delivery.CallError =>
              match Pacing.enqueue (out t) (TextDelta "1" fallback_text) with
              | Some c => Some (start_concurrent (set_out (record_first_response (tick t d)) c))
              | None => None
              end
          end
      | _ => None
      end
  | RunImmWord =>
      match phase t with
      | PImmStream (w :: ws) =>
          match Pacing.push_fragment (out t) (TextDelta (Js.of_nat 1) w) with
          | Some c => Some (tick (set_phase (set_out t c) (PImmStream ws)) 30)
          | None => None
          end
      | PImmStream [] =>
          match Pacing.push_fragment (out t) (TextDelta (Js.of_nat 1001) " ") with
          | Some c => Some (start_concurrent (set_out t c))
          | None => None
          end
      | _ => None
      end
  | RunRead =>
      match cons t with
      | CReading r =>
          match upstream t with
          | [] =>
              if upstream_fails t then Some (set_consumer t CFailed (thoughts (proc t)) [])
              else Some (set_consumer t CDone (thoughts (proc t)) [])
          | p :: ps =>
              match Extractor.on_part r (thoughts (proc t)) p with
              | Some (r', ts') => Some (set_consumer t (CReading r') ts' ps)
              | None =>
                  match p with
                  | TextDelta _ d =>
                      match Extractor.scan (Extractor.buffer r +++ d) (thoughts (proc t)) with
                      | Extractor.Stalled b ts' => Some (set_consumer t (CSpinning b) ts' ps)
                      | Extractor.Finished _ _ => None
                      end
                  | OtherPart _ => None
                  end
              end
          end
      | _ => None
      end
  | RunSpin =>
      match cons t with CSpinning _ => Some t | _ => None end
  | RunDelay =>
      if runnable t then
        match phase t with PAwaitDelay v => Some (loop_end (tick t 100) v) | _ => None end
      else None
  | RunRpc o d =>
      if runnable t then
        match phase t with
        | PAwaitRPC v _ =>
            Some (let response := Delivery.generate_response o in
                  if usable response
                  then set_phase (tick t d)
                         (PStream (mkLoopVars (S (textId v)) (lastThoughtCount v) (waitCount v))
                                  (textId v) response
                                  (Pacing.word_deltas (Pacing.words_of response)))
                  else loop_end (tick t d) v)
        | _ => None
        end
      else None
  | RunWord =>
      if runnable t then
        match phase t with
        | PStream v id r (w :: ws) =>
            match Pacing.push_fragment (out t) (TextDelta (Js.of_nat id) w) with
            | Some c => Some (tick (set_phase (set_out t c) (PStream v id r ws)) 30)
            | None => None
            end
        | PStream v id r [] =>
            match Pacing.push_fragment (out t) (TextDelta (Js.of_nat (id + 1000)) " ") with
            | Some c => Some (finish_response (set_out t c) v r)
            | None => None
            end
        | _ => None
        end
      else None
  | RunClose =>
      if runnable t then
        match phase t with
        | PLoopDone =>
            match Pacing.close (out t) with
            | Some c => Some (set_phase (set_out t c) PClosed)
            | None => None
            end
        | _ => None
        end
      else None
  | RunMetrics =>
      if runnable t then
        match phase t with
        | PClosed => Some (set_phase (send_metrics t) PDone)
        | _ => None
        end
      else None
  end.

(** A whole schedule. *)
Fixpoint exec (prompt : list Middleware.message) (t : turn) (chs : list choice) : option turn :=
  match chs with
  | [] => Some t
  | ch :: chs' =>
      match run_step prompt ch t with
      | Some t' => exec prompt t' chs'
      | None => None
      end
  end.

(** An endpoint that always gives the same outcome. *)
Definition always (o0 o : Delivery.fetch_outcome) : Prop := o = o0.

(** The immediate answer of the scenarios, streamed word by word. *)
Definition hi_there : Delivery.fetch_outcome := Delivery.HttpOkJson (Some "Hi there").

(** The start of a turn whose immediate answer is "Hi there". *)
Definition opening : list choice :=
  [RunStart; RunImmediate hi_there 5; RunImmWord; RunImmWord; RunImmWord].

(** A reasoning stream that is slow: the loop waits 100 times, closes the
    stream and reports, and only then does the thought arrive. *)
Definition late_thought_upstream : list stream_part := [TextDelta "0" "[bt]ML is AI[et]"].

Definition late_thought_schedule : list choice :=
  opening ++ repeat RunDelay 100 ++ [RunClose; RunMetrics; RunRead; RunRead].

(** Two thoughts arrive together before the loop's first call. *)
Definition two_thoughts_upstream : list stream_part :=
  [TextDelta "0" "[bt]ML is AI[et] <|sil|> [bt]It trains on data[et]"].

Definition two_thoughts_schedule : list choice :=
  opening ++ [RunRead; RunDelay; RunRpc hi_there 9; RunWord; RunWord; RunWord]
          ++ repeat RunDelay 100 ++ [RunClose; RunMetrics; RunRead].

(** ** The scheduler runs exactly the steps of a turn *)

(** Rewrite a fact about the turn into [run_step] and reduce. *)
Local Ltac sched H := rewrite H; cbv beta iota.

Lemma run_step_sound allowed prompt ch t t' :
  choice_allowed allowed ch -> run_step prompt ch t = Some t' -> step allowed prompt t t'.
Proof.
  intros Ha H. destruct ch; cbn [run_step choice_allowed] in H, Ha;
    repeat match type of H with
           | (match ?x with _ => _ end) = _ => destruct x eqn:?; cbv beta iota in H; try discriminate
           end;
    injection H as <-;
    first [ solve [eapply step_start; eauto] | solve [eapply step_immediate_ok; eauto]
          | solve [eapply step_immediate_blank; eauto] | solve [eapply step_immediate_error; eauto]
          | solve [eapply step_imm_word; eauto] | solve [eapply step_imm_last; eauto]
          | solve [eapply step_read; eauto] | solve [eapply step_read_spin; eauto]
          | solve [eapply step_read_done; eauto] | solve [eapply step_read_error; eauto]
          | solve [eapply step_spin; eauto] | solve [eapply step_delay; eauto]
          | solve [eapply step_rpc; eauto] | solve [eapply step_word; eauto]
          | solve [eapply step_last; eauto] | solve [eapply step_close; eauto]
          | solve [eapply step_metrics; eauto] ].
Qed.

Lemma run_step_complete allowed prompt t t' :
  step allowed prompt t t' -> exists ch, choice_allowed allowed ch /\ run_step prompt ch t = Some t'.
Proof.
  intros Hs.
  destruct Hs as [t E | t pr o d resp E Ho Hc U | t pr o d resp E Ho Hc U | t pr o d c E Ho Hc Hq
                 | t w ws c E Hq | t c E Hq | t r p ps r' ts' Ec Eu Hp | t r i d ps b ts' Ec Eu Hp
                 | t r Ec Eu Hf | t r Ec Eu Hf | t b Ec | t v R E | t v pr o d R E Ho
                 | t v id r w ws c R E Hq | t v id r c R E Hq | t c R E Hq | t R E].
  - exists RunStart. split; [exact I|]. cbn [run_step]. now rewrite E.
  - exists (RunImmediate o d). split; [exact Ho|]. cbn [run_step]. sched E.
    now rewrite Hc, U.
  - exists (RunImmediate o d). split; [exact Ho|]. cbn [run_step]. sched E.
    now rewrite Hc, U.
  - exists (RunImmediate o d). split; [exact Ho|]. cbn [run_step]. sched E.
    now rewrite Hc, Hq.
  - exists RunImmWord. split; [exact I|]. cbn [run_step]. sched E. now rewrite Hq.
  - exists RunImmWord. split; [exact I|]. cbn [run_step]. sched E. now rewrite Hq.
  - exists RunRead. split; [exact I|]. cbn [run_step]. sched Ec.
    sched Eu. now rewrite Hp.
  - exists RunRead. split; [exact I|]. cbn [run_step]. sched Ec.
    sched Eu. sched Extractor.on_part_scan. now rewrite Hp.
  - exists RunRead. split; [exact I|]. cbn [run_step]. sched Ec.
    sched Eu. now rewrite Hf.
  - exists RunRead. split; [exact I|]. cbn [run_step]. sched Ec.
    sched Eu. now rewrite Hf.
  - exists RunSpin. split; [exact I|]. cbn [run_step]. now rewrite Ec.
  - exists RunDelay. split; [exact I|]. cbn [run_step]. sched R. now rewrite E.
  - exists (RunRpc o d). split; [exact Ho|]. cbn [run_step]. sched R.
    now rewrite E.
  - exists RunWord. split; [exact I|]. cbn [run_step]. sched R.
    sched E. now rewrite Hq.
  - exists RunWord. split; [exact I|]. cbn [run_step]. sched R.
    sched E. now rewrite Hq.
  - exists RunClose. split; [exact I|]. cbn [run_step]. sched R.
    sched E. now rewrite Hq.
  - exists RunMetrics. split; [exact I|]. cbn [run_step]. sched R. now rewrite E.
Qed.

(** The executable scheduler is an exact model of a turn: a turn can
    go from [t] to [t'] in one segment exactly when some allowed choice
    of task and endpoint answer makes [run_step] go from [t] to [t']. *)
Theorem run_step_iff allowed prompt t t' :
  step allowed prompt t t' <-> exists ch, choice_allowed allowed ch /\ run_step prompt ch t = Some t'.
Proof.
  split; [apply run_step_complete|]. intros (ch & Ha & H). exact (run_step_sound _ _ _ _ _ Ha H).
Qed.

Lemma exec_star allowed prompt t chs t' :
  Forall (choice_allowed allowed) chs -> exec prompt t chs = Some t' -> star (step allowed prompt) t t'.
Proof.
  revert t; induction chs as [|ch chs IH]; intros t Ha H; cbn in H.
  - injection H as <-. apply star_refl.
  - inversion Ha as [|? ? Hch Hchs]; subst.
    destruct (run_step prompt ch t) as [t1|] eqn:E; [|discriminate].
    eapply star_step; [exact (run_step_sound _ _ _ _ _ Hch E) | exact (IH _ Hchs H)].
Qed.

Lemma exec_reachable allowed prompt c ups fails now ts chs t' :
  Forall (choice_allowed allowed) chs ->
  exec prompt (turn_init c ups fails now ts) chs = Some t' ->
  reachable allowed prompt c ups fails now ts t'.
Proof. apply exec_star. Qed.

Lemma always_schedule o0 chs :
  Forall (fun ch => match ch with RunImmediate o _ | RunRpc o _ => o = o0 | _ => True end) chs ->
  Forall (choice_allowed (always o0)) chs.
Proof. intros H. eapply Forall_impl; [|exact H]. intros [] Hc; exact Hc. Qed.

(** ** Two executions the spec does not expect *)

(** C10: The final metrics can miss thoughts: with an endpoint that always
    answers, a turn whose reasoning stream is slow completes (stream
    closed, metrics sent, upstream read to the end) with one thought
    extracted, yet the report sent at line 72 says [thoughtsExtracted:
    0], because [sendMetrics] does not wait for the consumer. *)
Theorem late_thought_unreported :
  exists t', reachable (always hi_there) demo_prompt demo_config late_thought_upstream false 0 "T0" t'
    /\ Liveness.completed t' /\ thoughts (proc t') = ["ML is AI"]
    /\ map thoughtsExtracted (metrics_log t') = [0; 0].
Proof.
  destruct (exec demo_prompt (turn_init demo_config late_thought_upstream false 0 "T0")
                 late_thought_schedule) as [t'|] eqn:E; [|vm_compute in E; discriminate].
  exists t'. split.
  - eapply exec_reachable; [|exact E]. apply always_schedule. vm_compute. repeat constructor.
  - vm_compute in E. injection E as <-. vm_compute. repeat split; auto.
Qed.

(** C11: A thought can be left unanswered: with an endpoint that always
    answers, when two thoughts arrive before the loop's first call, the
    loop answers the first, sets [lastThoughtCount] to two (line 200)
    and then only waits, so the turn completes with two thoughts and
    one response. *)
Theorem second_thought_unanswered :
  exists t', reachable (always hi_there) demo_prompt demo_config two_thoughts_upstream false 0 "T0" t'
    /\ Liveness.completed t' /\ thoughts (proc t') = ["ML is AI"; "It trains on data"]
    /\ responses (proc t') = ["Hi there"].
Proof.
  destruct (exec demo_prompt (turn_init demo_config two_thoughts_upstream false 0 "T0")
                 two_thoughts_schedule) as [t'|] eqn:E; [|vm_compute in E; discriminate].
  exists t'. split.
  - eapply exec_reachable; [|exact E]. apply always_schedule. vm_compute. repeat constructor.
  - vm_compute in E. injection E as <-. vm_compute. repeat split; auto.
Qed.

End Scheduler.
