(* ===== verification/Demo.v ===== *)
(** * The demo script [quick-demo.js]

    [src/packages/ai/quick-demo.js] wraps GPT-4 with
    [streamNaturalTextMiddleware] (lines 12-20), asks one question with
    its own system prompt through [streamText] (lines 27-31), copies
    every chunk of [result.textStream] to standard output while
    accumulating it (lines 33-37) and prints the response length (lines
    39-40).  Here the wrapped model is [Wrapper.stream_natural_text_middleware]
    over the demo's configuration, the turn it returns runs by
    [Fusion.step], and the script's console is a list of events built
    from what the outward stream holds.  Two parts of [streamText] (a
    library) are written out as the code relies on them: the prompt it
    hands the model for [{system, prompt}] (the system message, then one
    user message with one text part) and [textStream], the deltas of the
    text parts in order, which ends when the stream is closed (the
    outward stream of a turn never errors, [Fusion.inv]).  An unset
    environment variable leaves the field [undefined]; every call of
    [callSmolLMForSentence] then throws at
    [this.config.huggingfaceEndpointUrl.endsWith] before any request
    ([demo_calls]).  The emoji of the logged lines are kept as their
    UTF-8 bytes: the script only prints them. *)

From Stdlib Require Import Ascii String List Lia Arith Bool QArith.
From S2P Require Import Prelude Delivery Pacing Middleware Route Fusion Emission Wrapper Scheduler.
Import ListNotations.

Local Open Scope string_scope.
Local Open Scope js_scope.
Local Open Scope list_scope.

Module Demo.

Import Fusion.

Definition newline : string := String (ascii_of_nat 10) EmptyString.

(** Lines 14-19: [streamNaturalTextMiddleware({...})] with the two
    variables, [temperature: 0.7] and no [onMetricsUpdate] nor
    [fallbackBehavior]; [maxTokens] is not a field of the configuration.
    An unset variable is kept as the empty string: the requests that
    would use it are never sent ([demo_calls]), though the turn's
    request log still records each attempted call. *)
Definition quick_demo_config (e : Route.env) : Delivery.config :=
  Delivery.mkConfig (Route.env_value (Route.HUGGINGFACE_ENDPOINT_URL e))
                    (Route.env_value (Route.HUGGINGFACE_API_KEY e))
                    (Some (7 # 10)%Q) None false.

(** What a delivery call of the demo may give: with the endpoint
    variable unset, [undefined.endsWith] throws a TypeError inside
    [callSmolLMForSentence] (line 338), so every call fails; otherwise
    the endpoint may answer anything. *)
Definition demo_calls (e : Route.env) (o : Delivery.fetch_outcome) : Prop :=
  match Route.HUGGINGFACE_ENDPOINT_URL e with
  | None => Delivery.call_smollm o = Delivery.CallError
  | Some _ => True
  end.

(** Line 22. *)
Definition system : string :=
  "You are a helpful AI assistant that MUST structure your responses using special markers. CRITICAL: You MUST wrap every complete thought in [bt] and [et] markers. You MUST use <|sil|> tokens between thoughts for natural pauses. REQUIRED FORMAT: [bt]Your first complete thought[et] <|sil|> [bt]Your second complete thought[et] <|sil|> [bt]Your final thought[et]. IMPORTANT: Every response must contain multiple [bt]...[et] sections with <|sil|> pauses between them.".

(** Line 30. *)
Definition question : string := "tell me some fun facts about planes".

(** Lines 27-31: the prompt [streamText] hands the model for
    [{system, prompt}]. *)
Definition quick_demo_prompt : list Middleware.message :=
  [Middleware.SystemMessage system; Middleware.UserMessage [Middleware.TextPart question]].

(** Lines 12-20: the wrapped model. *)
Definition quick_demo_model (e : Route.env) (now : nat) (ts : string) : Wrapper.middleware :=
  Wrapper.stream_natural_text_middleware (quick_demo_config e) now ts.

(** The demo's turn has reached [t]: [doStream] resolved to the model's
    stream, the wrapped model returned the processor's stream over a
    turn, and that turn ran to [t] under the transformed prompt. *)
Definition demo_reaches (e : Route.env) (now : nat) (ts : string) (parts : list stream_part)
  (fails : bool) (rest : list (string * string)) (t : turn) : Prop :=
  match Wrapper.wrapped_stream (quick_demo_model e now ts) quick_demo_prompt
          (Wrapper.Resolves parts fails rest) with
  | (_, inr (Wrapper.Natural params t0, _)) => star (step (demo_calls e) params) t0 t
  | _ => False
  end.

(** What the script prints: [console.log] lines and
    [process.stdout.write] chunks. *)
Inductive console_event := Log (line : string) | Write (chunk : string).

(** [result.textStream]: the delta of every text part, in order. *)
Fixpoint text_chunks (ps : list stream_part) : list string :=
  match ps with
  | [] => []
  | TextDelta _ d :: ps' => d :: text_chunks ps'
  | OtherPart _ :: ps' => text_chunks ps'
  end.

(** Lines 33-37: [response += chunk; process.stdout.write(chunk)]. *)
Fixpoint for_await (response : string) (chunks : list string) : string * list console_event :=
  match chunks with
  | [] => (response, [])
  | ch :: chs => let '(r, evs) := for_await (response +++ ch) chs in (r, Write ch :: evs)
  end.

(** Lines 10, 24 and 25. *)
Definition banner : string := "🧪 Stream Natural Text Middleware Demo" +++ newline.

Definition question_line : string :=
  "❓ Question: " +++ Route.dquote +++ question +++ Route.dquote +++ newline.

Definition response_label : string := "🤖 SmolLM Response: ".

(** Lines 39-40. *)
Definition complete_line : string := newline +++ newline +++ "✅ Demo complete!".

Definition length_line (response : string) : string :=
  "📊 Response length: " +++ Js.of_nat (String.length response) +++ " characters".

(** [quickDemo()] (lines 9-41) once its loop has read everything the
    outward stream [c] holds: the loop ends when [c] is closed.  The
    [.catch(console.error)] of line 43 never runs: [wrapLanguageModel]
    and [streamText] return without throwing and [textStream] does not
    throw. *)
Definition quick_demo (c : Pacing.controller) : list console_event :=
  let '(response, writes) := for_await "" (text_chunks (Pacing.queue c)) in
  [Log banner; Log question_line; Log response_label] ++ writes
  ++ (if Pacing.closed c then [Log complete_line; Log (length_line response)] else []).

(** ** A concrete run *)

Definition set_env : Route.env :=
  Route.mkEnv (Some "sk-demo") (Some "https://tgi.example") (Some "hf_key").

(** The immediate answer "Hi there", the thought read and answered,
    then the idle bound and [controller.close()]. *)
Definition closing_schedule : list Scheduler.choice :=
  Scheduler.opening
  ++ [Scheduler.RunRead; Scheduler.RunDelay; Scheduler.RunRpc Scheduler.hi_there 9;
      Scheduler.RunWord; Scheduler.RunWord; Scheduler.RunWord]
  ++ repeat Scheduler.RunDelay 100 ++ [Scheduler.RunClose].

(** ** The script over the wrapped model *)

Lemma demo_reaches_reachable e now ts parts fails rest t :
  demo_reaches e now ts parts fails rest t
  <-> reachable (demo_calls e) (Middleware.transform_prompt quick_demo_prompt)
                (quick_demo_config e) parts fails now ts t.
Proof. split; intros H; exact H. Qed.

Lemma for_await_spec (response : string) (chunks : list string) :
  for_await response chunks = (response +++ String.concat "" chunks, map Write chunks).
Proof.
  revert response; induction chunks as [|ch chs IH]; intros r; cbn [for_await map].
  - now rewrite str_app_nil_r.
  - rewrite IH, Emission.concat_nil_cons, str_app_assoc. reflexivity.
Qed.

Lemma text_chunks_text (ps : list stream_part) :
  String.concat "" (text_chunks ps) = Pacing.visible_text ps.
Proof.
  induction ps as [|[id d|ty] ps IH]; cbn [text_chunks Pacing.visible_text]; auto.
  now rewrite Emission.concat_nil_cons, IH.
Qed.

Lemma quick_demo_spec (c : Pacing.controller) :
  quick_demo c
  = [Log banner; Log question_line; Log response_label] ++ map Write (text_chunks (Pacing.queue c))
    ++ (if Pacing.closed c
        then [Log complete_line; Log (length_line (Pacing.visible_text (Pacing.queue c)))]
        else []).
Proof. unfold quick_demo. now rewrite for_await_spec, text_chunks_text. Qed.

Lemma demo_exec e chs t :
  Forall (Scheduler.choice_allowed (demo_calls e)) chs ->
  Scheduler.exec (Middleware.transform_prompt quick_demo_prompt)
                 (turn_init (quick_demo_config e) demo_upstream false 0 "T0") chs = Some t ->
  demo_reaches e 0 "T0" demo_upstream false [] t.
Proof. intros Ha E. apply demo_reaches_reachable. exact (Scheduler.exec_reachable _ _ _ _ _ _ _ _ _ Ha E). Qed.

Lemma demo_closes_run :
  exists t, demo_reaches set_env 0 "T0" demo_upstream false [] t /\ Pacing.closed (out t) = true.
Proof.
  destruct (Scheduler.exec (Middleware.transform_prompt quick_demo_prompt)
              (turn_init (quick_demo_config set_env) demo_upstream false 0 "T0") closing_schedule)
    as [t|] eqn:E; [|vm_compute in E; discriminate].
  exists t. split; [apply (demo_exec set_env closing_schedule); [repeat constructor | exact E]|].
  vm_compute in E. injection E as <-. reflexivity.
Defined.

(** ** What the demo prints *)

(** C21: Once the demo's turn has closed the outward stream, the script
    has printed its three header lines, written the chunks of
    [textStream], whose text is the opening (nothing, the fallback
    sentence or a usable immediate answer) followed by every stored
    answer, and then logged "Demo complete!" and the length of exactly
    that text. *)
Theorem quick_demo_output e now ts parts fails rest t :
  demo_reaches e now ts parts fails rest t -> Pacing.closed (out t) = true ->
  exists imm text,
    (imm = "" \/ imm = fallback_text
     \/ exists resp, usable resp = true /\ imm = Js.join " " (Pacing.words_of resp) +++ " ")
    /\ text = imm +++ String.concat "" (map (fun r => Js.join " " (Pacing.words_of r) +++ " ")
                                           (responses (proc t)))
    /\ String.concat "" (text_chunks (Pacing.queue (out t))) = text
    /\ quick_demo (out t)
       = [Log banner; Log question_line; Log response_label]
         ++ map Write (text_chunks (Pacing.queue (out t)))
         ++ [Log complete_line; Log (length_line text)].
Proof.
  intros H Hc. apply demo_reaches_reachable in H.
  pose proof (Emission.text_reachable _ _ _ _ _ _ _ _ H) as Ht.
  pose proof Hc as Hph. apply (inv_closed t (inv_reachable _ _ _ _ _ _ _ _ H)) in Hph.
  assert (Hs : Emission.settled t)
    by (unfold Emission.text_inv in Ht; destruct Hph as [E|E]; rewrite E in Ht; exact Ht).
  destruct Hs as (imm & Ho & Htr). unfold Emission.transcript in Htr.
  exists imm, (imm +++ Emission.answers t). split; [exact Ho|]. split; [reflexivity|].
  rewrite text_chunks_text, Htr. split; [reflexivity|].
  rewrite quick_demo_spec, Hc, Htr. reflexivity.
Qed.

Lemma quick_demo_output_witness :
  exists t, demo_reaches set_env 0 "T0" demo_upstream false [] t /\ Pacing.closed (out t) = true
    /\ exists imm text,
         (imm = "" \/ imm = fallback_text
          \/ exists resp, usable resp = true /\ imm = Js.join " " (Pacing.words_of resp) +++ " ")
         /\ text = imm +++ String.concat "" (map (fun r => Js.join " " (Pacing.words_of r) +++ " ")
                                                (responses (proc t)))
         /\ String.concat "" (text_chunks (Pacing.queue (out t))) = text
         /\ quick_demo (out t)
            = [Log banner; Log question_line; Log response_label]
              ++ map Write (text_chunks (Pacing.queue (out t)))
              ++ [Log complete_line; Log (length_line text)].
Proof.
  destruct demo_closes_run as (t & Hr & Hc). exists t. split; [exact Hr|]. split; [exact Hc|].
  exact (quick_demo_output _ _ _ _ _ _ _ Hr Hc).
Defined.

End Demo.
