(* ===== verification/Landing.v ===== *)
(** * The landing page [app/page.tsx]

    [Page] (lines 4-38) renders static markup: a title block and a
    [Link] to [/chat] around the [Button] "Start Chatting", then a short
    list of features.  It has no state and no handler; the markup is a
    tree of elements with their classes, and the page's one way out is
    that link, which leads to the chat page ([app/chat/page.tsx], modelled
    in [ChatUI]).  The emoji and bullet characters are kept as their
    UTF-8 bytes. *)

From Stdlib Require Import String List.
Import ListNotations.

Local Open Scope string_scope.

Module Landing.

Local Set Warnings "-register-all".

(** The JSX the page returns: intrinsic elements with their
    [className], text, [next/link]'s [Link] and the UI library's
    [Button]. *)
Inductive node :=
| Element (tag : string) (className : string) (children : list node)
| Text (s : string)
| Link (href : string) (className : string) (children : list node)
| Button (size : string) (className : string) (children : list node).

(** Lines 4-38. *)
Definition Page : node :=
  Element "div" "flex items-center justify-center min-h-svh bg-gradient-to-br from-background to-muted/20" [
    Element "div" "flex flex-col items-center justify-center gap-6 text-center max-w-md mx-4" [
      Element "div" "space-y-2" [
        Element "div" "text-6xl mb-4" [Text "🤖"];
        Element "h1" "text-3xl font-bold tracking-tight" [Text "AI Chat Assistant"];
        Element "p" "text-muted-foreground text-lg"
          [Text "Experience natural conversations powered by GPT-4 with thoughtful, human-like responses"]];
      Element "div" "space-y-3 w-full" [
        Link "/chat" "block" [Button "lg" "w-full" [Text "Start Chatting"]];
        Element "div" "text-sm text-muted-foreground" [
          Element "div" "flex items-center justify-center gap-2 mb-2" [
            Element "span" "w-2 h-2 bg-green-500 rounded-full" [];
            Element "span" "" [Text "Powered by advanced AI middleware"]];
          Element "ul" "text-xs space-y-1" [
            Element "li" "" [Text "• GPT-4 reasoning with natural language processing"];
            Element "li" "" [Text "• Real-time streaming responses"];
            Element "li" "" [Text "• Thoughtful and contextual conversations"]]]]]].

(** The [href] of every link of a tree, in document order. *)
Fixpoint links (n : node) : list string :=
  match n with
  | Element _ _ cs | Button _ _ cs => flat_map links cs
  | Text _ => []
  | Link href _ cs => href :: flat_map links cs
  end.

(** The text a tree shows. *)
Fixpoint text_of (n : node) : string :=
  match n with
  | Element _ _ cs | Link _ _ cs | Button _ _ cs => String.concat "" (map text_of cs)
  | Text s => s
  end.

(** The text of every button of a tree, in document order. *)
Fixpoint buttons (n : node) : list string :=
  match n with
  | Element _ _ cs | Link _ _ cs => flat_map buttons cs
  | Text _ => []
  | Button _ _ cs => String.concat "" (map text_of cs) :: flat_map buttons cs
  end.

(** The buttons inside links, with the link's target. *)
Fixpoint linked_buttons (n : node) : list (string * string) :=
  match n with
  | Element _ _ cs | Button _ _ cs => flat_map linked_buttons cs
  | Text _ => []
  | Link href _ cs => map (fun b => (href, b)) (flat_map buttons cs) ++ flat_map linked_buttons cs
  end.

(** The landing page leads nowhere but to the chat page: its only link
    goes to [/chat], and its only button, "Start Chatting", sits inside
    that link. *)
Lemma page_navigation :
  links Page = ["/chat"] /\ buttons Page = ["Start Chatting"]
  /\ linked_buttons Page = [("/chat", "Start Chatting")].
Proof. vm_compute. repeat split. Qed.

End Landing.
